(** * DXCluster Cache: a shallow embedding of [dxcluster_cache.py]

    The development follows the layout of the Python module: first the
    Python primitives the module relies on (string methods, [int], [float],
    [datetime], [re], [collections.deque]), then the module's own functions
    in source order, then the properties.

    Conventions.
    - A Python [str] is a Rocq [string]; one [ascii] stands for one code
      point below 256.
    - A Python [float] is [pyfloat]: a finite double carried as the
      rational it stands for, or one of the two infinities, or NaN.
      [float] of a literal or of an [int] rounds to the nearest double,
      ties to the even significand, as CPython does; a literal past the
      largest double gives infinity, an [int] past it raises
      [OverflowError].
    - A Python exception is a value of [exn]; code that can raise returns
      [result].  Where the read loop catches an exception and goes on to
      the next line, the model returns the state unchanged.
    - Clock readings ([datetime.now], [time.time]) and the answers of the
      lookup service are parameters of the functions that use them.
    - Logging is left out. *)

From Stdlib Require Import ZArith QArith Lqa Ascii String List Lia Bool.
From Stdlib Require Import DecimalString.
From stdpp Require Import base option list strings gmap.

Close Scope Q_scope.
Local Open Scope string_scope.
Local Open Scope Z_scope.

(** ** Exceptions *)

Inductive exn : Type :=
| ValueError
| TypeError
| OverflowError
| OSError.

Inductive result (A : Type) : Type :=
| Ok (a : A)
| Raise (e : exn).
Arguments Ok {A} a.
Arguments Raise {A} e.

Definition rbind {A B : Type} (r : result A) (k : A -> result B) : result B :=
  match r with
  | Ok a => k a
  | Raise e => Raise e
  end.

Notation "x <-! r ;; k" := (rbind r (fun x => k))
  (at level 100, r at next level, right associativity).

(** ** Characters and strings *)

Module Py.

Definition code (c : ascii) : nat := nat_of_ascii c.

Definition between (lo hi : nat) (c : ascii) : bool :=
  (Nat.leb lo (code c)) && (Nat.leb (code c) hi).

(** [str.isspace] on one code point below 256. *)
Definition is_space (c : ascii) : bool :=
  between 9 13 c || between 28 32 c
  || Nat.eqb (code c) 133 || Nat.eqb (code c) 160.

(** The white space [int] and [float] skip around a literal: the C
    locale's, and the two code points above 127 that count as spaces. *)
Definition is_literal_space (c : ascii) : bool :=
  between 9 13 c || Nat.eqb (code c) 32
  || Nat.eqb (code c) 133 || Nat.eqb (code c) 160.

Definition is_digit (c : ascii) : bool := between 48 57 c.

Definition is_alpha_ascii (c : ascii) : bool :=
  between 65 90 c || between 97 122 c.

Definition digit_val (c : ascii) : Z := Z.of_nat (code c) - 48.

(** [str.lower] on one code point below 256: A-Z and the accented capitals
    U+00C0..U+00DE (U+00D7 is the multiplication sign). *)
Definition lower_char (c : ascii) : ascii :=
  if between 65 90 c
     || (between 192 222 c && negb (Nat.eqb (code c) 215))
  then ascii_of_nat (code c + 32)
  else c.

Fixpoint lower (s : string) : string :=
  match s with
  | EmptyString => EmptyString
  | String c s' => String (lower_char c) (lower s')
  end.

Fixpoint lstrip_by (p : ascii -> bool) (s : string) : string :=
  match s with
  | String c s' => if p c then lstrip_by p s' else s
  | EmptyString => EmptyString
  end.

(** Drop the longest suffix whose characters all satisfy [p]. *)
Fixpoint rstrip_by (p : ascii -> bool) (s : string) : string :=
  match s with
  | EmptyString => EmptyString
  | String c s' =>
      match rstrip_by p s' with
      | EmptyString => if p c then EmptyString else String c EmptyString
      | r => String c r
      end
  end.

(** [s.strip()]. *)
Definition strip (s : string) : string :=
  rstrip_by is_space (lstrip_by is_space s).

(** [timestr.rstrip("Z")]. *)
Definition rstrip_char (c : ascii) : string -> string :=
  rstrip_by (Ascii.eqb c).

Fixpoint starts_with (p s : string) : bool :=
  match p, s with
  | EmptyString, _ => true
  | String a p', String b s' => Ascii.eqb a b && starts_with p' s'
  | String _ _, EmptyString => false
  end.

(** [sub in s]. *)
Fixpoint contains (sub s : string) : bool :=
  starts_with sub s
  || match s with
     | EmptyString => false
     | String _ s' => contains sub s'
     end.

Definition ends_with (suffix s : string) : bool :=
  let n := String.length s in
  let k := String.length suffix in
  Nat.leb k n && String.eqb (substring (n - k) k s) suffix.

Fixpoint drop (n : nat) (s : string) : string :=
  match n, s with
  | O, _ => s
  | S n', String _ s' => drop n' s'
  | S _, EmptyString => EmptyString
  end.

(** [s.replace(old, new)] for a non-empty [old]. *)
Fixpoint replace_fuel (fuel : nat) (old new s : string) : string :=
  match fuel with
  | O => s
  | S fuel' =>
      match s with
      | EmptyString => EmptyString
      | String c s' =>
          if starts_with old s
          then new ++ replace_fuel fuel' old new (drop (String.length old) s)
          else String c (replace_fuel fuel' old new s')
      end
  end.

Definition replace (old new s : string) : string :=
  replace_fuel (String.length s) old new s.

(** [str(n)] for an [int]. *)
Definition str_of_int (z : Z) : string :=
  NilZero.string_of_int (Z.to_int z).

(** ["%0<w>d" % n] for a non-negative [n]. *)
Fixpoint zeros (n : nat) : string :=
  match n with
  | O => EmptyString
  | S n' => String "0" (zeros n')
  end.

Definition zpad (w : nat) (n : Z) : string :=
  let d := str_of_int n in
  zeros (w - String.length d) ++ d.

(** *** Numeric literals *)

(** [digit (["_"] digit)*], read greedily.  [n] counts the digits read so
    far and [acc] is their value; an underscore is only taken between two
    digits. *)
Fixpoint digitpart (s : string) (acc : Z) (n : nat) : Z * nat * string :=
  match s with
  | String c s' =>
      if is_digit c then digitpart s' (acc * 10 + digit_val c) (S n)
      else if Ascii.eqb c "_" && negb (Nat.eqb n 0) then
        match s' with
        | String c2 s'' =>
            if is_digit c2
            then digitpart s'' (acc * 10 + digit_val c2) (S n)
            else (acc, n, s)
        | EmptyString => (acc, n, s)
        end
      else (acc, n, s)
  | EmptyString => (acc, n, s)
  end.

Definition sign_of (s : string) : Z * string :=
  match s with
  | String "+" s' => (1, s')
  | String "-" s' => (-1, s')
  | _ => (1, s)
  end.

Definition strip_literal (s : string) : string :=
  rstrip_by is_literal_space (lstrip_by is_literal_space s).

(** [sys.get_int_max_str_digits()]: [int] refuses a literal of more
    digits. *)
Definition int_max_str_digits : nat := 4300.

(** [int(s)] for a [str] in base 10; [None] stands for [ValueError]. *)
Definition int_of_str (s : string) : option Z :=
  let '(sg, body) := sign_of (strip_literal s) in
  match digitpart body 0 0%nat with
  | (v, S n, EmptyString) =>
      if Nat.ltb int_max_str_digits (S n) then None else Some (sg * v)
  | _ => None
  end.

End Py.

(** ** Floats *)

Inductive pyfloat : Type :=
| PFin (q : Q)
| PInf
| PNegInf
| PNaN.

Definition Qltb (a b : Q) : bool := negb (Qle_bool b a).

(** [a < f] and [f < b] for integer bounds, as Python compares an [int]
    with a [float] (exactly; every comparison with NaN is false). *)
Definition int_lt_float (a : Z) (f : pyfloat) : bool :=
  match f with
  | PFin q => Qltb (inject_Z a) q
  | PInf => true
  | PNegInf | PNaN => false
  end.

Definition float_lt_int (f : pyfloat) (b : Z) : bool :=
  match f with
  | PFin q => Qltb q (inject_Z b)
  | PNegInf => true
  | PInf | PNaN => false
  end.

(** [a < f < b]. *)
Definition within (a : Z) (f : pyfloat) (b : Z) : bool :=
  int_lt_float a f && float_lt_int f b.

Definition pow10 (n : nat) : Z := 10 ^ Z.of_nat n.

(** The value [m * 10^e]. *)
Definition decimal (m e : Z) : Q :=
  if 0 <=? e then inject_Z (m * 10 ^ e)
  else Qmake m (Z.to_pos (10 ^ (- e))).

(** [floor (log2 (n / d))] for positive [n] and [d]. *)
Definition floor_log2_ratio (n d : Z) : Z :=
  let l := Z.log2 n - Z.log2 d in
  let reached := if 0 <=? l then d * 2 ^ l <=? n else d <=? n * 2 ^ (- l) in
  if reached then l else l - 1.

(** The integer nearest to [n / d] for positive [d], a tie going to the
    even one. *)
Definition round_half_even (n d : Z) : Z :=
  let q := n / d in
  let r := n mod d in
  if 2 * r <? d then q
  else if d <? 2 * r then q + 1
  else if Z.even q then q else q + 1.

(** The binary64 nearest to the positive rational [n / d], as the pair of
    its significand and exponent: 53 bits of significand, and no exponent
    below that of the subnormal numbers. *)
Definition nearest_double (n d : Z) : Z * Z :=
  let e := Z.max (floor_log2_ratio n d - 52) (-1074) in
  let m := if 0 <=? e then round_half_even n (d * 2 ^ e)
           else round_half_even (n * 2 ^ (- e)) d in
  (m, e).

(** The value [m * 2^e]. *)
Definition binary (m e : Z) : Q :=
  if 0 <=? e then inject_Z (m * 2 ^ e)
  else Qmake m (Z.to_pos (2 ^ (- e))).

(** The double a real number is rounded to; past the largest finite
    double the result is an infinity. *)
Definition round_double (q : Q) : pyfloat :=
  let finite (n : Z) : option Q :=
    let '(m, e) := nearest_double n (Zpos (Qden q)) in
    let v := binary m e in
    if Qle_bool (inject_Z (2 ^ 1024)) v then None else Some v in
  match Qnum q with
  | 0 => PFin 0
  | Zpos n =>
      match finite (Zpos n) with
      | Some v => PFin v
      | None => PInf
      end
  | Zneg n =>
      match finite (Zpos n) with
      | Some v => PFin (Qopp v)
      | None => PNegInf
      end
  end.

Definition float_neg (f : pyfloat) : pyfloat :=
  match f with
  | PFin q => PFin (Qopp q)
  | PInf => PNegInf
  | PNegInf => PInf
  | PNaN => PNaN
  end.

(** The exponent part of a float literal: empty, or [e|E] [sign] digits
    up to the end of the string. *)
Definition exponent_of (s : string) : option Z :=
  match s with
  | EmptyString => Some 0
  | String c s' =>
      if Ascii.eqb (Py.lower_char c) "e" then
        let '(sg, body) := Py.sign_of s' in
        match Py.digitpart body 0 0%nat with
        | (v, S _, EmptyString) => Some (sg * v)
        | _ => None
        end
      else None
  end.

(** [digitpart ["." [digitpart]] [exponent]] or ["." digitpart [exponent]]. *)
Definition float_number (s : string) : option pyfloat :=
  let '(ip, ni, r1) := Py.digitpart s 0 0%nat in
  let '(fp, nf, r2) :=
    match r1 with
    | String "." r => Py.digitpart r 0 0%nat
    | _ => (0, 0%nat, r1)
    end in
  if Nat.eqb (ni + nf) 0 then None
  else
    match exponent_of r2 with
    | Some e =>
        Some (round_double (decimal (ip * pow10 nf + fp) (e - Z.of_nat nf)))
    | None => None
    end.

(** [float(s)] for a [str]; [None] stands for [ValueError]. *)
Definition float_of_str (s : string) : option pyfloat :=
  let '(sg, body) := Py.sign_of (Py.strip_literal s) in
  let signed (f : pyfloat) := if sg <? 0 then float_neg f else f in
  let low := Py.lower body in
  if String.eqb low "inf" || String.eqb low "infinity" then Some (signed PInf)
  else if String.eqb low "nan" then Some PNaN
  else option_map signed (float_number body).

(** [int(f)] for a [float]: truncation toward zero. *)
Definition int_of_float (f : pyfloat) : result Z :=
  match f with
  | PFin q => Ok (Z.quot (Qnum q) (Zpos (Qden q)))
  | PInf | PNegInf => Raise OverflowError
  | PNaN => Raise ValueError
  end.

(** ** Values *)

(** The Python values that reach the functions below. *)
Inductive pyval : Type :=
| PyNone
| PyInt (z : Z)
| PyFloat (f : pyfloat)
| PyStr (s : string).

(** [float(v)]. *)
Definition py_float (v : pyval) : result pyfloat :=
  match v with
  | PyNone => Raise TypeError
  | PyInt z =>
      match round_double (inject_Z z) with
      | PFin q => Ok (PFin q)
      | _ => Raise OverflowError
      end
  | PyFloat f => Ok f
  | PyStr s =>
      match float_of_str s with
      | Some f => Ok f
      | None => Raise ValueError
      end
  end.

(** [a == b] on values; an [int] never equals a [str]. *)
Definition py_eq (a b : pyval) : bool :=
  match a, b with
  | PyNone, PyNone => true
  | PyInt x, PyInt y => Z.eqb x y
  | PyStr x, PyStr y => String.eqb x y
  | PyInt x, PyFloat (PFin q) | PyFloat (PFin q), PyInt x =>
      Qeq_bool (inject_Z x) q
  | PyFloat (PFin p), PyFloat (PFin q) => Qeq_bool p q
  | PyFloat PInf, PyFloat PInf => true
  | PyFloat PNegInf, PyFloat PNegInf => true
  | _, _ => false
  end.

(** ** Spot cache and helpers *)

(** [qrg2band_khz]: the chain of range tests of the source, in source
    order. *)
Definition qrg2band_khz (qrg_khz : pyval) : string :=
  match py_float qrg_khz with
  | Raise _ => ""
  | Ok f =>
      if within 1000 f 2000 then "160m"
      else if within 3000 f 4000 then "80m"
      else if within 6000 f 8000 then "40m"
      else if within 9000 f 11000 then "30m"
      else if within 13000 f 15000 then "20m"
      else if within 17000 f 19000 then "17m"
      else if within 20000 f 22000 then "15m"
      else if within 23000 f 25000 then "12m"
      else if within 27000 f 30000 then "10m"
      else if within 49000 f 52000 then "6m"
      else if within 69000 f 71000 then "4m"
      else if within 140000 f 150000 then "2m"
      else if within 430000 f 440000 then "70cm"
      else ""
  end.

(** The ranges tested by [qrg2band_khz], as a table: lower limit, upper
    limit (both exclusive, in kHz) and label. *)
Definition bands : list (Z * Z * string) :=
  [ (1000, 2000, "160m"); (3000, 4000, "80m"); (6000, 8000, "40m");
    (9000, 11000, "30m"); (13000, 15000, "20m"); (17000, 19000, "17m");
    (20000, 22000, "15m"); (23000, 25000, "12m"); (27000, 30000, "10m");
    (49000, 52000, "6m"); (69000, 71000, "4m"); (140000, 150000, "2m");
    (430000, 440000, "70cm") ].

Definition band_lo (b : Z * Z * string) : Z := fst (fst b).
Definition band_hi (b : Z * Z * string) : Z := snd (fst b).
Definition band_label (b : Z * Z * string) : string := snd b.

(** The frequency [f] lies strictly inside the range of [b]. *)
Definition in_band (f : pyfloat) (b : Z * Z * string) : Prop :=
  within (band_lo b) f (band_hi b) = true.

(** ** [datetime] *)

Module DT.

(** An aware [datetime] in UTC ([tzinfo=timezone.utc] throughout the
    module). *)
Record datetime : Type := mk {
  year : Z;
  month : Z;
  day : Z;
  hour : Z;
  minute : Z;
  second : Z;
  microsecond : Z
}.

Definition is_leap (y : Z) : bool :=
  (y mod 4 =? 0) && (negb (y mod 100 =? 0) || (y mod 400 =? 0)).

Definition days_in_month (y m : Z) : Z :=
  if m =? 2 then (if is_leap y then 29 else 28)
  else if (m =? 4) || (m =? 6) || (m =? 9) || (m =? 11) then 30
  else 31.

Definition days_before_year (y : Z) : Z :=
  let y1 := y - 1 in
  y1 * 365 + y1 / 4 - y1 / 100 + y1 / 400.

(** [_DAYS_BEFORE_MONTH[m]], plus one after February of a leap year. *)
Definition days_before_month (y m : Z) : Z :=
  nth (Z.to_nat m) [0; 0; 31; 59; 90; 120; 151; 181; 212; 243; 273; 304; 334] 0
  + (if (2 <? m) && is_leap y then 1 else 0).

(** [date.toordinal]: 1 for 0001-01-01. *)
Definition ymd2ord (y m d : Z) : Z :=
  days_before_year y + days_before_month y m + d.

Definition valid_date (y m d : Z) : bool :=
  (1 <=? y) && (y <=? 9999) && (1 <=? m) && (m <=? 12)
  && (1 <=? d) && (d <=? days_in_month y m).

Definition valid_time (h mi s us : Z) : bool :=
  (0 <=? h) && (h <=? 23) && (0 <=? mi) && (mi <=? 59)
  && (0 <=? s) && (s <=? 59) && (0 <=? us) && (us <=? 999999).

Definition valid (d : datetime) : bool :=
  valid_date (year d) (month d) (day d)
  && valid_time (hour d) (minute d) (second d) (microsecond d).

(** The constructor [datetime(y, m, d, h, mi, s, us, tzinfo=utc)]. *)
Definition make (y m d h mi s us : Z) : result datetime :=
  if valid_date y m d && valid_time h mi s us
  then Ok (mk y m d h mi s us)
  else Raise ValueError.

(** Microseconds since the start of day 0 of the proleptic calendar. *)
Definition to_us (d : datetime) : Z :=
  (((ymd2ord (year d) (month d) (day d) * 24 + hour d) * 60 + minute d) * 60
   + second d) * 1000000 + microsecond d.

(** [a - b] as a [timedelta], in microseconds. *)
Definition diff (a b : datetime) : Z := to_us a - to_us b.

Definition hours (n : Z) : Z := n * 3600 * 1000000.

(** [a > b] on aware datetimes of the same zone. *)
Definition gtb (a b : datetime) : bool := to_us b <? to_us a.

(** [d - timedelta(days=1)]: the same time on the previous calendar day. *)
Definition minus_one_day (d : datetime) : result datetime :=
  let '(y, m, dd) :=
    if 1 <? day d then (year d, month d, day d - 1)
    else if 1 <? month d
      then (year d, month d - 1, days_in_month (year d) (month d - 1))
      else (year d - 1, 12, 31) in
  if 1 <=? y
  then Ok (mk y m dd (hour d) (minute d) (second d) (microsecond d))
  else Raise OverflowError.

Definition date_time_str (d : datetime) : string :=
  Py.zpad 4 (year d) +:+ "-" +:+ Py.zpad 2 (month d) +:+ "-"
  +:+ Py.zpad 2 (day d) +:+ "T" +:+ Py.zpad 2 (hour d) +:+ ":"
  +:+ Py.zpad 2 (minute d) +:+ ":" +:+ Py.zpad 2 (second d).

(** [d.isoformat()]: the fraction has six digits and is left out when the
    microsecond is zero. *)
Definition isoformat (d : datetime) : string :=
  date_time_str d
  +:+ (if microsecond d =? 0 then "" else "." +:+ Py.zpad 6 (microsecond d))
  +:+ "+00:00".

(** [d.isoformat(timespec="milliseconds")]. *)
Definition isoformat_ms (d : datetime) : string :=
  date_time_str d +:+ "." +:+ Py.zpad 3 (microsecond d / 1000) +:+ "+00:00".

(** A field of exactly [n] digits at offset [i]. *)
Definition field (i n : nat) (s : string) : option Z :=
  let f := substring i n s in
  if Nat.eqb (String.length f) n && forallb Py.is_digit (list_ascii_of_string f)
  then Some (fst (fst (Py.digitpart f 0 0%nat)))
  else None.

Definition char_at (i : nat) (s : string) : option ascii := String.get i s.

(** [datetime.fromisoformat] on the shapes [isoformat] emits for UTC:
    [YYYY-MM-DD?HH:MM:SS] with an optional fraction of three or six digits
    and the offset [+00:00]. *)
Definition fromisoformat (s : string) : result datetime :=
  let frac_len :=
    match char_at 19 s with
    | Some "."%char =>
        if Nat.eqb (String.length s) 29 then Some 3%nat
        else if Nat.eqb (String.length s) 32 then Some 6%nat
        else None
    | _ => if Nat.eqb (String.length s) 25 then Some 0%nat else None
    end in
  match frac_len with
  | None => Raise ValueError
  | Some fl =>
      let tz := substring (String.length s - 6) 6 s in
      let us :=
        match fl with
        | 0%nat => Some 0
        | 3%nat => option_map (fun v => v * 1000) (field 20 3 s)
        | _ => field 20 6 s
        end in
      match field 0 4 s, field 5 2 s, field 8 2 s,
            field 11 2 s, field 14 2 s, field 17 2 s, us with
      | Some y, Some m, Some d, Some h, Some mi, Some sec, Some u =>
          if String.eqb tz "+00:00"
             && String.eqb (substring 4 1 s) "-"
             && String.eqb (substring 7 1 s) "-"
             && String.eqb (substring 13 1 s) ":"
             && String.eqb (substring 16 1 s) ":"
          then make y m d h mi sec u
          else Raise ValueError
      | _, _, _, _, _, _, _ => Raise ValueError
      end
  end.

(** The month names of [%b] in the C locale, matched without case. *)
Definition month_of_abbr (a : string) : option Z :=
  let names := ["jan"; "feb"; "mar"; "apr"; "may"; "jun";
                "jul"; "aug"; "sep"; "oct"; "nov"; "dec"] in
  let fix go (l : list string) (i : Z) : option Z :=
    match l with
    | [] => None
    | n :: l' => if String.eqb n (Py.lower a) then Some i else go l' (i + 1)
    end in
  go names 1.

(** [datetime.strptime(date_str + " " + timestr, "%d-%b-%Y %H%MZ")] on a
    date of the shape [DD-Mon-YYYY] and a time of the shape [HHMMZ] (the
    shapes the listing grammar lets through), with
    [.replace(tzinfo=utc, second=s, microsecond=us)]. *)
Definition strptime_replace (date_str timestr : string) (s us : Z)
  : result datetime :=
  match field 0 2 date_str, month_of_abbr (substring 3 3 date_str),
        field 7 4 date_str, field 0 2 timestr, field 2 2 timestr with
  | Some d, Some m, Some y, Some h, Some mi => make y m d h mi s us
  | _, _, _, _, _ => Raise ValueError
  end.

End DT.

(** ** [re]: the fragment used by the two line grammars *)

Module Re.

(** Patterns.  Repetition is only ever applied to a single character or
    character class in the module's patterns, so [Rep] carries the class
    directly: [Rep p lo hi greedy] is [p{lo,hi}] ([hi = None] for no upper
    limit), lazy when [greedy] is [false]. *)
Inductive re : Type :=
| Eps
| Lit (s : string)
| Rep (p : ascii -> bool) (lo : nat) (hi : option nat) (greedy : bool)
| Cat (r1 r2 : re)
| Opt (r : re)
| Grp (name : string) (r : re)
| Bos
| Eos.

(** The named groups that took part in a match, most recent first. *)
Definition groups : Type := list (string * string).

Definition group (name : string) (g : groups) : option string :=
  option_map snd (List.find (fun kv => String.eqb (fst kv) name) g).

(** A continuation receives the offset reached, the rest of the subject and
    the groups so far. *)
Definition cont : Type := nat -> string -> groups -> option groups.

Definition or_else (a : option groups) (b : unit -> option groups)
  : option groups :=
  match a with
  | Some g => Some g
  | None => b tt
  end.

Definition hi_allows (hi : option nat) : bool :=
  match hi with
  | Some O => false
  | _ => true
  end.

(** Backtracking over a repeated class: a greedy repetition first tries to
    take one more character and falls back to stopping; a lazy one first
    tries to stop. *)
Fixpoint rep (p : ascii -> bool) (greedy : bool) (lo : nat) (hi : option nat)
    (pos : nat) (s : string) (g : groups) (k : cont) {struct s}
  : option groups :=
  let stop (_ : unit) :=
    match lo with
    | O => k pos s g
    | S _ => None
    end in
  let more (_ : unit) :=
    match s with
    | String c s' =>
        if p c && hi_allows hi
        then rep p greedy (Nat.pred lo) (option_map Nat.pred hi)
                 (S pos) s' g k
        else None
    | EmptyString => None
    end in
  if greedy then or_else (more tt) stop else or_else (stop tt) more.

Fixpoint run (r : re) (pos : nat) (s : string) (g : groups) (k : cont)
  : option groups :=
  match r with
  | Eps => k pos s g
  | Lit l =>
      if Py.starts_with l s
      then k (pos + String.length l)%nat (Py.drop (String.length l) s) g
      else None
  | Rep p lo hi greedy => rep p greedy lo hi pos s g k
  | Cat r1 r2 => run r1 pos s g (fun pos' s' g' => run r2 pos' s' g' k)
  | Opt r' => or_else (run r' pos s g k) (fun _ => k pos s g)
  | Grp name r' =>
      run r' pos s g
          (fun pos' s' g' => k pos' s' ((name, substring 0 (pos' - pos) s) :: g'))
  | Bos => if Nat.eqb pos 0 then k pos s g else None
  | Eos =>
      if String.eqb s "" || String.eqb s (String "010" "")
      then k pos s g
      else None
  end.

Definition accept : cont := fun _ _ g => Some g.

(** [pattern.match(s)]: anchored at the start. *)
Definition match_ (r : re) (s : string) : option groups :=
  run r 0 s [] accept.

(** [pattern.search(s)]: the first offset at which the pattern matches. *)
Fixpoint search_from (r : re) (pos : nat) (s : string) : option groups :=
  or_else (run r pos s [] accept)
          (fun _ =>
             match s with
             | String _ s' => search_from r (S pos) s'
             | EmptyString => None
             end).

Definition search (r : re) (s : string) : option groups := search_from r 0 s.

Definition seq (rs : list re) : re := fold_right Cat Eps rs.

(** Classes. *)
Definition space : ascii -> bool := Py.is_space.            (* \s *)
Definition nonspace (c : ascii) : bool := negb (Py.is_space c).  (* \S *)
Definition digit : ascii -> bool := Py.is_digit.             (* [0-9] *)
Definition alpha : ascii -> bool := Py.is_alpha_ascii.       (* [A-Za-z] *)
Definition dot (c : ascii) : bool := negb (Ascii.eqb c "010").  (* . *)
Definition chr (a : ascii) : ascii -> bool := Ascii.eqb a.

Definition plus (p : ascii -> bool) : re := Rep p 1 None true.       (* p+ *)
Definition star (p : ascii -> bool) : re := Rep p 0 None true.       (* p* *)
Definition plus_lazy (p : ascii -> bool) : re := Rep p 1 None false. (* p+? *)
Definition maybe (p : ascii -> bool) : re := Rep p 0 (Some 1%nat) true. (* p? *)
Definition times (p : ascii -> bool) (lo hi : nat) : re :=
  Rep p lo (Some hi) true.                                          (* p{lo,hi} *)

End Re.

(** ** Telnet client *)

Import Re.

(** The relay grammar, in three pieces:
    "DX\s+de\s+(?P<spotter>\S+):\s+(?P<freq>[0-9]+\.?[0-9]*"
    ")\s+(?P<spotted>\S+)\s+(?P<rest>.+?)\s+"
    "(?P<time>[0-9]{3,4}Z)" *)
Definition TELNET_RE : re :=
  seq [ Lit "DX"; plus space; Lit "de"; plus space;
        Grp "spotter" (plus nonspace); Lit ":"; plus space;
        Grp "freq" (seq [plus digit; maybe (chr "."); star digit]);
        plus space;
        Grp "spotted" (plus nonspace); plus space;
        Grp "rest" (plus_lazy dot); plus space;
        Grp "time" (seq [times digit 3 4; Lit "Z"]) ].

(** The listing grammar, piece by piece:
    "^(?P<freq>[0-9]+\.?[0-9]*" ")\s+"
    "(?P<spotted>\S+)\s+"
    "(?P<date>[0-9]{2}-[A-Za-z]{3}-[0-9]{4})\s+"
    "(?P<time>[0-9]{4}Z)\s+"
    "(via\s+(?P<via>\S+)\s+)?(?P<message>.+?)"
    "\s*<(?P<spotter>\S+)>$" *)
Definition SHDX_RE : re :=
  seq [ Bos;
        Grp "freq" (seq [plus digit; maybe (chr "."); star digit]);
        plus space;
        Grp "spotted" (plus nonspace); plus space;
        Grp "date" (seq [times digit 2 2; Lit "-"; times alpha 3 3; Lit "-";
                         times digit 4 4]);
        plus space;
        Grp "time" (seq [times digit 4 4; Lit "Z"]); plus space;
        Opt (seq [Lit "via"; plus space; Grp "via" (plus nonspace);
                  plus space]);
        Grp "message" (plus_lazy dot);
        star space; Lit "<"; Grp "spotter" (plus nonspace); Lit ">"; Eos ].

(** ** Spot records and the cache *)

(** An enrichment record ([dxcc_lookup]'s [result] dictionary). *)
Record dxcc : Type := mk_dxcc {
  cont : option string;
  entity : string;
  flag : string;
  dxcc_id : string;
  lotw_user : bool;
  lat : option Q;
  lng : option Q;
  cqz : option Z
}.

(** A spot dictionary.  [frequency] is a value because the two grammars
    store different types under that key. *)
Record spot : Type := mk_spot {
  spotter : string;
  spotted : string;
  frequency : pyval;
  message : string;
  when : string;
  source : string;
  band : string;
  dxcc_spotter : option dxcc;
  dxcc_spotted : option dxcc
}.

(** [collections.deque] with an integer [maxlen]. *)
Module Deque.

Section Deque.
Context {A : Type}.

Record t : Type := mk { items : list A; maxlen : Z }.

(** [d.append(x)]: add on the right, then drop on the left while the
    length exceeds [maxlen]. *)
Definition append (d : t) (x : A) : t :=
  let xs := (items d ++ [x])%list in
  {| items := if maxlen d <? Z.of_nat (length xs) then tail xs else xs;
     maxlen := maxlen d |}.

Definition extend (d : t) (xs : list A) : t := fold_left append xs d.

(** [sys.maxsize]: the largest [Py_ssize_t]. *)
Definition ssize_max : Z := 2 ^ 63 - 1.

(** [deque(xs, maxlen=n)]: an [n] that does not fit a [Py_ssize_t] raises
    [OverflowError], a negative one [ValueError]. *)
Definition new (xs : list A) (n : Z) : result t :=
  if (n <? - ssize_max - 1) || (ssize_max <? n) then Raise OverflowError
  else if n <? 0 then Raise ValueError
  else Ok (extend {| items := []; maxlen := n |} xs).

Definition len (d : t) : nat := length (items d).

End Deque.
Arguments t : clear implicits.

End Deque.

(** The entries of the configuration file. *)
Record config : Type := mk_config {
  host : string;
  port : Z;
  call : string;
  maxcache : Z;
  webport : Z;
  dxcc_lookup_url : string;
  dxcc_lookup_key : string;
  portal_user : string;
  portal_pass : string
}.

Definition DEFAULT_CONFIG : config :=
  {| host := "dxc.example.org"; port := 7300; call := "N0CALL";
     maxcache := 500; webport := 8000;
     dxcc_lookup_url := "http://log.your.site/api/lookup";
     dxcc_lookup_key := "api-key-goes-here";
     portal_user := ""; portal_pass := "" |}.

Definition set_maxcache (k : Z) (c : config) : config :=
  {| host := host c; port := port c; call := call c; maxcache := k;
     webport := webport c; dxcc_lookup_url := dxcc_lookup_url c;
     dxcc_lookup_key := dxcc_lookup_key c;
     portal_user := portal_user c; portal_pass := portal_pass c |}.

(** The module-level state the ingestion loop and the portal share: the
    configuration file and the global [spots]. *)
Record store : Type := mk_store {
  cfg : config;
  spots : Deque.t spot
}.

(** ** Timestamp reconstruction and source detection *)

(** [int(...)] on a slice of the literal. *)
Definition int_of_slice (s : string) : result Z :=
  match Py.int_of_str s with
  | Some z => Ok z
  | None => Raise ValueError
  end.

(** The two [int] calls of [parse_z_time] on the stripped literal [t]:
    [t[0], t[1:3]] for three characters, [t[0:2], t[2:4]] for four. *)
Definition hour_minute (t : string) : result (Z * Z) :=
  if Nat.eqb (String.length t) 3 then
    hh <-! int_of_slice (substring 0 1 t) ;;
    mm <-! int_of_slice (substring 1 2 t) ;;
    Ok (hh, mm)
  else
    hh <-! int_of_slice (substring 0 2 t) ;;
    mm <-! int_of_slice (substring 2 2 t) ;;
    Ok (hh, mm).

(** The current date with the parsed hour and minute, keeping the current
    second and microsecond. *)
Definition overlay (now : DT.datetime) (hh mm : Z) : result DT.datetime :=
  DT.make (DT.year now) (DT.month now) (DT.day now)
          hh mm (DT.second now) (DT.microsecond now).

(** [parse_z_time(timestr)], with the clock reading [now] made a
    parameter. *)
Definition parse_z_time (now : DT.datetime) (timestr : string)
  : result DT.datetime :=
  let t := Py.rstrip_char "Z" timestr in
  let n := String.length t in
  if Nat.eqb n 3 || Nat.eqb n 4 then
    hm <-! hour_minute t ;;
    when_ <-! overlay now (fst hm) (snd hm) ;;
    if DT.hours 12 <? DT.diff when_ now
    then DT.minus_one_day when_
    else Ok when_
  else Ok now.

Definition detect_source_from_message (msg : string) : string :=
  let m := Py.lower msg in
  if Py.contains "pota" m then "pota"
  else if Py.contains "cq" m then "cq"
  else "cluster".

(** ** The body of the read loop *)

(** The relay branch up to the finished dictionary. *)
Definition relay_spot (now : DT.datetime) (m : groups) : result spot :=
  match group "spotter" m, group "freq" m, group "spotted" m,
        group "rest" m, group "time" m with
  | Some spotter_, Some freq, Some spotted_, Some rest, Some time =>
      let msg := Py.strip rest in
      when_ <-! parse_z_time now time ;;
      f <-! py_float (PyStr freq) ;;
      khz <-! int_of_float f ;;
      Ok {| spotter := spotter_;
            spotted := spotted_;
            frequency := PyStr (Py.str_of_int khz);
            message := msg;
            when := Py.replace "+00:00" "Z" (DT.isoformat when_);
            source := detect_source_from_message msg;
            band := qrg2band_khz (PyStr freq);
            dxcc_spotter := None;
            dxcc_spotted := None |}
  | _, _, _, _, _ => Raise TypeError
  end.

(** The listing branch up to the finished dictionary. *)
Definition shdx_spot (now : DT.datetime) (m2 : groups) : result spot :=
  match group "freq" m2, group "spotted" m2, group "date" m2,
        group "time" m2, group "message" m2, group "spotter" m2 with
  | Some freq, Some spotted_, Some date_str, Some timestr,
    Some message0, Some spotter_ =>
      let via := group "via" m2 in
      let message1 := Py.strip message0 in
      dt <-! DT.strptime_replace date_str timestr
               (DT.second now) (DT.microsecond now) ;;
      let message2 :=
        match via with
        | Some v => message1 +:+ " via " +:+ v
        | None => message1
        end in
      f <-! py_float (PyStr freq) ;;
      khz <-! int_of_float f ;;
      Ok {| spotter := spotter_;
            spotted := spotted_;
            frequency := PyInt khz;
            message := message2;
            when := Py.replace "+00:00" "Z" (DT.isoformat_ms dt);
            source := "cluster";
            band := qrg2band_khz (PyStr freq);
            dxcc_spotter := None;
            dxcc_spotted := None |}
  | _, _, _, _, _, _ => Raise TypeError
  end.

(** [with _lock:] of the relay branch: bring the deque to the configured
    size, then append. *)
Definition relay_store (st : store) (s : spot) : result store :=
  let desired_max := maxcache (cfg st) in
  d <-! (if negb (Deque.maxlen (spots st) =? desired_max)
         then Deque.new (Deque.items (spots st)) desired_max
         else Ok (spots st)) ;;
  Ok {| cfg := cfg st; spots := Deque.append d s |}.

(** [with _lock: spots.append(spot)] of the listing branch. *)
Definition shdx_store (st : store) (s : spot) : store :=
  {| cfg := cfg st; spots := Deque.append (spots st) s |}.

(** Which grammar a line was read with. *)
Inductive parsed : Type :=
| Relay (s : spot)
| BulkListing (s : spot)
| Unrecognized.

(** The two grammars in the order the loop tries them, on the stripped
    text of a line. *)
Definition parse_line (now : DT.datetime) (text : string) : result parsed :=
  match search TELNET_RE text with
  | Some m => s <-! relay_spot now m ;; Ok (Relay s)
  | None =>
      match match_ SHDX_RE text with
      | Some m2 => s <-! shdx_spot now m2 ;; Ok (BulkListing s)
      | None => Ok Unrecognized
      end
  end.

(** One turn of the inner loop on a received line.  An exception is
    caught by the loop ([except Exception]: logged, next line), which
    leaves the store as it was. *)
Definition handle_line (now : DT.datetime) (line : string) (st : store)
  : store :=
  let text := Py.strip line in
  if String.eqb text "" then st
  else
    match parse_line now text with
    | Ok (Relay s) =>
        match relay_store st s with
        | Ok st' => st'
        | Raise _ => st
        end
    | Ok (BulkListing s) => shdx_store st s
    | Ok Unrecognized => st
    | Raise _ => st
    end.

(** [portal_config]: the form's [maxcache] is written to the configuration
    file, then the deque is rebuilt; a raise after the save leaves the file
    changed and the deque as it was. *)
Definition portal_config (k : Z) (st : store) : store :=
  let cfg' := set_maxcache k (cfg st) in
  match Deque.new (Deque.items (spots st)) (maxcache cfg') with
  | Ok d => {| cfg := cfg'; spots := d |}
  | Raise _ => {| cfg := cfg'; spots := spots st |}
  end.

(** The state after start-up with configuration [c]. *)
Definition startup (c : config) : result store :=
  d <-! Deque.new [] (maxcache c) ;;
  Ok {| cfg := c; spots := d |}.

(** ** DXCC lookup *)

Module Dxcc.

(** The fields read from the lookup service's JSON answer, at the types
    the service documents; [None] is a missing (or null) field.  For
    [cont], where the two differ, [None] is the missing field and
    [Some None] the null one. *)
Record payload : Type := mk_payload {
  p_cont : option (option string);
  p_dxcc : option string;
  p_dxcc_flag : option string;
  p_dxcc_id : option Z;
  p_lotw_member : option bool;
  p_dxcc_lat : option Q;
  p_dxcc_long : option Q;
  p_dxcc_lon : option Q;
  p_dxcc_cqz : option Z
}.

(** What [requests.post] and [resp.json()] can come to: an exception (no
    connection, timeout, a body that is not JSON), a status that is not
    [ok], or a decoded answer. *)
Inductive response : Type :=
| Failed
| NotOk (status : Z)
| Answer (data : payload).

(** The outbound request: URL and JSON body [{key, callsign}]. *)
Record request : Type := mk_request {
  req_url : string;
  req_key : string;
  req_callsign : string
}.

Definition upper_char (c : ascii) : ascii :=
  if Py.between 97 122 c
     || (Py.between 224 254 c && negb (Nat.eqb (Py.code c) 247))
  then ascii_of_nat (Py.code c - 32)
  else c.

(** [x.capitalize()]. *)
Definition capitalize (w : string) : string :=
  match w with
  | EmptyString => EmptyString
  | String c w' => String (upper_char c) (Py.lower w')
  end.

(** [s.split()]: the maximal runs of characters that are not white
    space.  [cur] is the run being read, reversed. *)
Fixpoint split_ws (s : string) (cur : list ascii) : list string :=
  let flush (rest : list string) :=
    match cur with
    | [] => rest
    | _ => string_of_list_ascii (rev cur) :: rest
    end in
  match s with
  | EmptyString => flush []
  | String c s' =>
      if Py.is_space c then flush (split_ws s' [])
      else split_ws s' (c :: cur)
  end.

Fixpoint join (sep : string) (ws : list string) : string :=
  match ws with
  | [] => ""
  | [w] => w
  | w :: ws' => w +:+ sep +:+ join sep ws'
  end.

(** [to_uc_word]. *)
Definition to_uc_word (s : string) : string :=
  join " " (map capitalize (split_ws s [])).

(** [x or None] on a number: zero is false. *)
Definition nonzeroZ (x : option Z) : option Z :=
  match x with
  | Some 0 => None
  | _ => x
  end.

Definition nonzeroQ (x : option Q) : option Q :=
  match x with
  | Some q => if Qeq_bool q 0 then None else Some q
  | None => None
  end.

(** The [result] dictionary built from an answer. *)
Definition normalize (data : payload) : dxcc :=
  {| cont := default (Some "") (p_cont data);
     entity := to_uc_word (default "" (p_dxcc data));
     flag := default "" (p_dxcc_flag data);
     dxcc_id := match nonzeroZ (p_dxcc_id data) with
                | Some i => Py.str_of_int i
                | None => ""
                end;
     lotw_user := default false (p_lotw_member data);
     lat := p_dxcc_lat data;
     lng := match nonzeroQ (p_dxcc_long data) with
            | Some q => Some q
            | None => nonzeroQ (p_dxcc_lon data)
            end;
     cqz := nonzeroZ (p_dxcc_cqz data) |}.

Definition dxcc_cache_ttl : Q := 3600 # 1.

(** The module-level state of the lookup, with the outbound requests made
    so far (most recent first). *)
Record state : Type := mk_state {
  dxcc_cache : gmap string (dxcc * Q);
  consecutive_dxcc_errors : Z;
  outbound : list request
}.

Definition fresh (now : Q) (entry : dxcc * Q) : bool :=
  Qltb (now - snd entry)%Q dxcc_cache_ttl.

(** [dxcc_lookup(call)].  [now] is the reading of [time.time()] and
    [resp] is what the service answers if it is asked. *)
Definition dxcc_lookup (c : config) (now : Q) (resp : response)
    (call_ : string) (st : state) : option dxcc * state :=
  let hit :=
    match dxcc_cache st !! call_ with
    | Some entry => if fresh now entry then Some (fst entry) else None
    | None => None
    end in
  match hit with
  | Some v => (Some v, st)
  | None =>
      let req := {| req_url := dxcc_lookup_url c;
                    req_key := dxcc_lookup_key c;
                    req_callsign := call_ |} in
      let sent := req :: outbound st in
      match resp with
      | Answer data =>
          let result := normalize data in
          (Some result,
           {| dxcc_cache := <[call_ := (result, now)]> (dxcc_cache st);
              consecutive_dxcc_errors := 0;
              outbound := sent |})
      | NotOk _ | Failed =>
          (None,
           {| dxcc_cache := dxcc_cache st;
              consecutive_dxcc_errors := consecutive_dxcc_errors st + 1;
              outbound := sent |})
      end
  end.

(** The number of outbound requests a step added. *)
Definition calls_between (before after : state) : Z :=
  Z.of_nat (length (outbound after)) - Z.of_nat (length (outbound before)).

End Dxcc.

(** ** Sending to the cluster *)

Module Client.

(** The Telnet connection object: what has been written to it, and whether
    a write on it raises. *)
Record telnet : Type := mk_telnet {
  written : list string;
  broken : bool
}.

(** [DXClusterClient]'s [connected] and [tn]. *)
Record t : Type := mk {
  connected : bool;
  tn : option telnet
}.

(** [client.tn.write(cmd.encode())] on an existing connection. *)
Definition write (cmd : string) (c : telnet) : result telnet :=
  if broken c then Raise OSError
  else Ok {| written := (written c ++ [cmd])%list; broken := broken c |}.

(** [not client.connected or not client.tn]. *)
Definition no_session (c : t) : bool :=
  negb (connected c) || match tn c with None => true | Some _ => false end.

(** [send_spot(frequency, callsign, remarks)]. *)
Definition send_spot (frequency_ callsign remarks : string) (c : t)
  : bool * t :=
  if no_session c then (false, c)
  else
    match tn c with
    | None => (false, c)
    | Some conn =>
        let cmd := "dx " +:+ frequency_ +:+ " " +:+ callsign +:+ " "
                   +:+ remarks +:+ String "010" "" in
        match write cmd conn with
        | Ok conn' => (true, {| connected := connected c; tn := Some conn' |})
        | Raise _ => (false, c)
        end
    end.

(** A JSON answer of the web layer: status code and body. *)
Record reply : Type := mk_reply {
  status : Z;
  body : list (string * string)
}.

Definition failure (r : reply) : bool := 400 <=? status r.

(** [send_telnet_cmd], on the form's [cmd] field. *)
Definition send_telnet_cmd (form_cmd : string) (c : t) : reply * t :=
  let cmd := Py.strip form_cmd in
  if String.eqb cmd "" then
    ({| status := 400; body := [("error", "No command provided")] |}, c)
  else if no_session c then
    ({| status := 400; body := [("error", "DXCluster client not connected")] |},
     c)
  else
    match tn c with
    | None =>
        ({| status := 400;
            body := [("error", "DXCluster client not connected")] |}, c)
    | Some conn =>
        let cmd' := if Py.ends_with (String "010" "") cmd then cmd
                    else cmd +:+ String "010" "" in
        match write cmd' conn with
        | Ok conn' =>
            ({| status := 200;
                body := [("status", "sent"); ("cmd", Py.strip cmd')] |},
             {| connected := connected c; tn := Some conn' |})
        | Raise _ =>
            ({| status := 500; body := [("error", "write failed")] |}, c)
        end
    end.

(** A value of the posted JSON object, as the route uses it: its truth
    value ([not v]) and its text in an f-string ([str(v)]). *)
Record jsonv : Type := mk_jsonv {
  truth : bool;
  text : string
}.

(** What [request.get_json()] finds in a request: a content type that is
    not JSON (a form post is one), a JSON body that does not parse, a JSON
    object, or any other JSON value, of which the route only uses the
    truth value. *)
Inductive posted : Type :=
| NotJson
| BadJson
| JsonObject (fields : gmap string jsonv)
| JsonOther (truthy : bool).

(** [sndspot]: the route in front of [send_spot].  [get_json] answers 415
    to a body that is not JSON and 400 to one that does not parse, before
    [request.form] is looked at; a JSON value that is neither false nor an
    object has no [get], and the exception is answered with 500.  The form
    of a request with a JSON body is empty.  The bodies of these three
    answers are error pages, left empty here. *)
Definition sndspot (req : posted) (c : t) : reply * t :=
  match req with
  | NotJson => ({| status := 415; body := [] |}, c)
  | BadJson => ({| status := 400; body := [] |}, c)
  | JsonOther true => ({| status := 500; body := [] |}, c)
  | JsonOther false | JsonObject _ =>
      let data : gmap string jsonv :=
        match req with
        | JsonObject fields => fields
        | _ => ∅
        end in
      let freq := data !! "frequency" in
      let call_ := data !! "callsign" in
      let remarks := match data !! "remarks" with
                     | Some v => text v
                     | None => ""
                     end in
      match freq, call_ with
      | Some f, Some cs =>
          if truth f && truth cs then
            let '(success, c') := send_spot (text f) (text cs) remarks c in
            if success then ({| status := 200; body := [("status", "ok")] |}, c')
            else ({| status := 500; body := [("status", "failed")] |}, c')
          else
            ({| status := 400;
                body := [("error", "frequency and callsign are required")] |},
             c)
      | _, _ =>
          ({| status := 400;
              body := [("error", "frequency and callsign are required")] |}, c)
      end
  end.

End Client.

(** ** Web API *)

(** [datetime.fromisoformat(s.get("when").replace("Z", "+00:00"))]. *)
Definition when_of (s : spot) : result DT.datetime :=
  DT.fromisoformat (Py.replace "Z" "+00:00" (when s)).

(** The loop of [api_spot]: [acc] is the pair [(youngest, chosen)]. *)
Fixpoint api_spot_loop (q : string) (l : list spot)
    (acc : option (DT.datetime * spot))
  : result (option (DT.datetime * spot)) :=
  match l with
  | [] => Ok acc
  | s :: l' =>
      if py_eq (frequency s) (PyStr q) then
        t <-! when_of s ;;
        match acc with
        | None => api_spot_loop q l' (Some (t, s))
        | Some (youngest, _) =>
            if DT.gtb t youngest
            then api_spot_loop q l' (Some (t, s))
            else api_spot_loop q l' acc
        end
      else api_spot_loop q l' acc
  end.

(** [api_spot(qrg_khz)]: [Ok None] stands for the empty object. *)
Definition api_spot (qrg_khz : Z) (d : Deque.t spot) : result (option spot) :=
  acc <-! api_spot_loop (Py.str_of_int qrg_khz) (Deque.items d) None ;;
  Ok (option_map snd acc).

(** The [when] of the listing view: re-rendered with milliseconds, or the
    stored text when it does not parse. *)
Definition when_str (s : spot) : string :=
  match when_of s with
  | Ok t => Py.replace "+00:00" "Z" (DT.isoformat_ms t)
  | Raise _ => when s
  end.

(** [api_spots]: newest first. *)
Definition api_spots (d : Deque.t spot) : list spot :=
  map (fun s => {| spotter := spotter s; spotted := spotted s;
                   frequency := frequency s; message := message s;
                   when := when_str s; source := source s; band := band s;
                   dxcc_spotter := dxcc_spotter s;
                   dxcc_spotted := dxcc_spotted s |})
      (rev (Deque.items d)).

(** [api_spots_band(band)]. *)
Definition api_spots_band (b : string) (d : Deque.t spot) : list spot :=
  filter (fun s => String.eqb (band s) b = true) (Deque.items d).

(** [api_stats]. *)
Definition api_stats (d : Deque.t spot) (c : Client.t) : nat * bool :=
  (Deque.len d, Client.connected c).

(** ** The writers of the cache, as operations *)

(** The three places that assign to or append to [spots]: the relay branch
    and the listing branch of the read loop, and the portal's
    configuration form. *)
Inductive cache_op : Type :=
| OpRelay (s : spot)
| OpListing (s : spot)
| OpConfig (k : Z).

Definition step (st : store) (o : cache_op) : store :=
  match o with
  | OpRelay s =>
      match relay_store st s with
      | Ok st' => st'
      | Raise _ => st
      end
  | OpListing s => shdx_store st s
  | OpConfig k => portal_config k st
  end.

Definition run_ops (st : store) (ops : list cache_op) : store :=
  fold_left step ops st.

(** The records handed to [append], in order. *)
Definition inserted (ops : list cache_op) : list spot :=
  flat_map (fun o => match o with
                     | OpRelay s | OpListing s => [s]
                     | OpConfig _ => []
                     end) ops.

(** A capacity [deque] takes: not negative and not above [sys.maxsize]. *)
Definition valid_capacity (k : Z) : Prop := 0 <= k <= Deque.ssize_max.

(** The operation does not ask for a capacity the rebuild raises on. *)
Definition capacity_ok (o : cache_op) : Prop :=
  match o with
  | OpConfig k => valid_capacity k
  | _ => True
  end.

(** The [n] most recently inserted elements of [l], oldest first. *)
Definition most_recent {A : Type} (n : nat) (l : list A) : list A :=
  drop (length l - n) l.


(** ** Vocabulary of the properties *)

(** The deque holds no more than [maxlen] elements. *)
Definition bounded {A : Type} (d : Deque.t A) : Prop :=
  0 <= Deque.maxlen d /\ Z.of_nat (Deque.len d) <= Deque.maxlen d.

(** The deque is within its bound and its bound is the configured one. *)
Definition synced (st : store) : Prop :=
  Deque.maxlen (spots st) = maxcache (cfg st) /\ bounded (spots st).

(** The lookup finds no usable entry for [call_] at time [now]: none is
    stored, or the stored one is one TTL old or older. *)
Definition cache_miss (now : Q) (call_ : string) (st : Dxcc.state) : Prop :=
  forall entry, Dxcc.dxcc_cache st !! call_ = Some entry ->
                Dxcc.fresh now entry = false.

(** [msg] has a substring that reads [sub] once put in lower case. *)
Definition icontains (sub msg : string) : Prop :=
  exists l w r, msg = l +:+ w +:+ r /\ Py.lower w = sub.

(** The text is a timestamp written to the millisecond:
    [YYYY-MM-DDTHH:MM:SS.mmmZ], three digits after the point. *)
Definition millisecond_text (w : string) : bool :=
  Nat.eqb (String.length w) 24
  && String.eqb (substring 19 1 w) "."
  && forallb Py.is_digit (list_ascii_of_string (substring 20 3 w))
  && String.eqb (substring 23 1 w) "Z".

(** The day number of a datetime. *)
Definition ordinal (d : DT.datetime) : Z :=
  DT.ymd2ord (DT.year d) (DT.month d) (DT.day d).

(** [now] with its hour and minute replaced. *)
Definition at_time (now : DT.datetime) (hh mm : Z) : DT.datetime :=
  DT.mk (DT.year now) (DT.month now) (DT.day now)
        hh mm (DT.second now) (DT.microsecond now).

(** How many minutes the time of day [hh:mm] is ahead of the clock. *)
Definition minutes_ahead (now : DT.datetime) (hh mm : Z) : Z :=
  (hh * 60 + mm) - (DT.hour now * 60 + DT.minute now).

(** ** Sample data *)

Definition relay_line : string := "DX de K1ABC: 14074.0 DL1XYZ FT8 CQ DX 1822Z".

Definition listing_line : string :=
  "14074.0 DL1XYZ 11-Nov-2025 1822Z via W1AW CQ DX <K1ABC>".

(** A later entry of the listing for the same frequency. *)
Definition later_listing_line : string :=
  "14074.0 DL1XYZ 11-Nov-2025 1825Z CQ DX <W1AW>".

(** 2025-11-11 18:30:07.123456 UTC. *)
Definition sample_now : DT.datetime := DT.mk 2025 11 11 18 30 7 123456.

Definition sample_payload : Dxcc.payload :=
  {| Dxcc.p_cont := Some (Some "EU"); Dxcc.p_dxcc := Some "FEDERAL REPUBLIC OF GERMANY";
     Dxcc.p_dxcc_flag := None; Dxcc.p_dxcc_id := Some 230;
     Dxcc.p_lotw_member := Some true;
     Dxcc.p_dxcc_lat := Some (51 # 1)%Q; Dxcc.p_dxcc_long := Some (10 # 1)%Q;
     Dxcc.p_dxcc_lon := None; Dxcc.p_dxcc_cqz := Some 14 |}.

(** No entry cached, no error counted, no request made. *)
Definition cold : Dxcc.state :=
  {| Dxcc.dxcc_cache := ∅; Dxcc.consecutive_dxcc_errors := 0;
     Dxcc.outbound := [] |}.

Definition sample_store (capacity : Z) : store :=
  {| cfg := set_maxcache capacity DEFAULT_CONFIG;
     spots := {| Deque.items := []; Deque.maxlen := capacity |} |}.

Definition sample_spot (who : string) : spot :=
  {| spotter := who; spotted := "DL1XYZ"; frequency := PyStr "14074";
     message := "CQ"; when := "2025-11-11T18:22:07.123456Z";
     source := "cq"; band := "20m";
     dxcc_spotter := None; dxcc_spotted := None |}.

From Stdlib Require DecimalFacts DecimalPos.

Local Open Scope list_scope.

(** * Further parts of the module *)

(** ** Config and persistence *)

(** A JSON value of the configuration file: null, a boolean, an integer
    or a string (the defaults are integers and strings). *)
Inductive jval : Type :=
| JNull
| JBool (b : bool)
| JInt (z : Z)
| JStr (s : string).

(** What [CONFIG_FILE] holds: nothing, something [json.load] or the
    [setdefault] loop fails on (not JSON, not an object, not readable), or
    a JSON object. *)
Inductive config_file : Type :=
| NoFile
| Unreadable
| Stored (entries : gmap string jval).

(** [DEFAULT_CONFIG.items()]. *)
Definition DEFAULT_CONFIG_items : list (string * jval) :=
  [ ("host", JStr "dxc.example.org"); ("port", JInt 7300);
    ("call", JStr "N0CALL"); ("maxcache", JInt 500); ("webport", JInt 8000);
    ("dxcc_lookup_url", JStr "http://log.your.site/api/lookup");
    ("dxcc_lookup_key", JStr "api-key-goes-here");
    ("portal_user", JStr ""); ("portal_pass", JStr "") ].

(** [DEFAULT_CONFIG.copy()]. *)
Definition DEFAULT_CONFIG_copy : gmap string jval :=
  list_to_map DEFAULT_CONFIG_items.

(** [cfg.setdefault(k, v)]. *)
Definition setdefault (k : string) (v : jval) (cfg_ : gmap string jval)
  : gmap string jval :=
  match cfg_ !! k with
  | Some _ => cfg_
  | None => <[k := v]> cfg_
  end.

(** [save_config(cfg)]. *)
Definition save_config (cfg_ : gmap string jval) : config_file := Stored cfg_.

(** [load_config()]: the dictionary returned and the file afterwards. *)
Definition load_config (file : config_file) : gmap string jval * config_file :=
  match file with
  | Stored entries =>
      (fold_left (fun c kv => setdefault (fst kv) (snd kv) c)
                 DEFAULT_CONFIG_items entries, file)
  | Unreadable => (DEFAULT_CONFIG_copy, file)
  | NoFile => (DEFAULT_CONFIG_copy, save_config (list_to_map DEFAULT_CONFIG_items))
  end.

(** [cfg.get(k)]: [None] for a missing key. *)
Definition cfg_get (k : string) (cfg_ : gmap string jval) : jval :=
  default JNull (cfg_ !! k).

(** Truth value of a JSON value. *)
Definition truthy (v : jval) : bool :=
  match v with
  | JNull => false
  | JBool b => b
  | JInt z => negb (z =? 0)
  | JStr s => negb (String.eqb s "")
  end.



(** ** The portal's access gate *)

(** [request.authorization]: absent, or a user name and a password (either
    of which is [None] for a scheme other than Basic). *)
Definition authorization : Type := option (option string * option string).

(** [a == v] for a credential of the request and a configured value. *)
Definition cred_eq (a : option string) (v : jval) : bool :=
  match a, v with
  | Some x, JStr y => String.eqb x y
  | None, JNull => true
  | _, _ => false
  end.

(** [check_auth(username, password)]. *)
Definition check_auth (username password : option string) (file : config_file)
  : bool * config_file :=
  let '(cfg_, file') := load_config file in
  (cred_eq username (cfg_get "portal_user" cfg_)
   && cred_eq password (cfg_get "portal_pass" cfg_), file').

(** What [requires_auth] does with a request: run the route, or answer 401
    with a [WWW-Authenticate] challenge. *)
Inductive gate : Type :=
| Admit
| Challenge.

(** The wrapper [decorated] of [requires_auth], up to the call of the
    route. *)
Definition requires_auth (auth : authorization) (file : config_file)
  : gate * config_file :=
  let '(cfg_, file1) := load_config file in
  if negb (truthy (cfg_get "portal_user" cfg_))
     || negb (truthy (cfg_get "portal_pass" cfg_))
  then (Admit, file1)
  else
    match auth with
    | None => (Challenge, file1)
    | Some (username, password) =>
        let '(ok, file2) := check_auth username password file1 in
        if ok then (Admit, file2) else (Challenge, file2)
    end.

(** [portal_setup_user], on the form's [user] and [pass] fields (absent
    fields read as the empty string). *)
Definition portal_setup_user (user_field pass_field : string)
    (file : config_file) : config_file :=
  let user := Py.strip user_field in
  let pwd := Py.strip pass_field in
  if negb (String.eqb user "") && negb (String.eqb pwd "") then
    let '(cfg_, _) := load_config file in
    save_config (<["portal_pass" := JStr pwd]>
                   (<["portal_user" := JStr user]> cfg_))
  else file.


(** ** Cluster list persistence *)

(** The two characters a text file read in universal-newline mode breaks
    lines at. *)
Definition is_break (c : ascii) : bool :=
  Nat.eqb (Py.code c) 10 || Nat.eqb (Py.code c) 13.

(** The pieces of a text between line breaks.  [for line in f] yields the
    same pieces with their terminators, except that it yields nothing for
    an empty last piece and for the empty piece inside a CR LF pair; the
    loops below strip every line and skip the empty ones. *)
Fixpoint text_lines (s : string) : list string :=
  match s with
  | EmptyString => [EmptyString]
  | String c s' =>
      if is_break c then EmptyString :: text_lines s'
      else
        match text_lines s' with
        | l :: ls => String c l :: ls
        | [] => [String c EmptyString]
        end
  end.

(** [s.split(c, 1)] when [c] occurs in [s]: the text before the first [c]
    and the text after it. *)
Fixpoint split_once (c : ascii) (s : string) : option (string * string) :=
  match s with
  | EmptyString => None
  | String a s' =>
      if Ascii.eqb a c then Some (EmptyString, s')
      else
        match split_once c s' with
        | Some (x, y) => Some (String a x, y)
        | None => None
        end
  end.

(** One turn of the loop of [load_clusters]. *)
Definition cluster_of_line (line0 : string) : list (string * string) :=
  let line := Py.strip line0 in
  if negb (String.eqb line "") && Py.contains "," line then
    match split_once "," line with
    | Some (name, hp) => [(Py.strip name, Py.strip hp)]
    | None => []
    end
  else [].

(** [load_clusters()], on the text of [CLUSTERS_FILE] ([None] when the
    file does not exist): pairs of name and host:port. *)
Definition load_clusters (file : option string) : list (string * string) :=
  match file with
  | None => []
  | Some text => flat_map cluster_of_line (text_lines text)
  end.

(** [save_clusters(clusters)]: the text written. *)
Fixpoint save_clusters (clusters : list (string * string)) : string :=
  match clusters with
  | [] => ""
  | (name, hostport) :: rest =>
      name +:+ "," +:+ hostport +:+ String "010" "" +:+ save_clusters rest
  end.

(** [int(request.form.get("count", 0))]. *)
Definition cluster_count (form : gmap string string) : result Z :=
  match form !! "count" with
  | Some s => int_of_slice s
  | None => Ok 0
  end.

(** The stripped [name_i] and [hostport_i] of the form, each the empty
    string when the form has no such field. *)
Definition cluster_row (form : gmap string string) (i : nat)
  : string * string :=
  let field k :=
    Py.strip (default "" (form !! (k +:+ Py.str_of_int (Z.of_nat i)))) in
  (field "name_", field "hostport_").

(** Both parts of a row are there. *)
Definition filled (r : string * string) : bool :=
  negb (String.eqb (fst r) "") && negb (String.eqb (snd r) "").

(** The loop of [save_clusters_route] over [range(count)]: a row is kept
    when neither part is empty. *)
Definition cluster_rows (form : gmap string string) (count : Z)
  : list (string * string) :=
  flat_map (fun i => let r := cluster_row form i in
                     if filled r then [r] else [])
           (List.seq 0%nat (Z.to_nat count)).

(** [save_clusters_route]: the new text of the file, or the exception of
    [int(request.form.get("count", 0))], raised before anything is
    written. *)
Definition save_clusters_route (form : gmap string string) : result string :=
  count <-! cluster_count form ;;
  Ok (save_clusters (cluster_rows form count)).

(** A string has a character that satisfies [p]. *)
Fixpoint any_char (p : ascii -> bool) (s : string) : bool :=
  match s with
  | EmptyString => false
  | String c s' => p c || any_char p s'
  end.

(** A cluster entry that survives being written and read back: both parts
    stripped, no comma in the name, no line break in either. *)
Definition storable (c : string * string) : Prop :=
  Py.strip (fst c) = fst c /\ Py.strip (snd c) = snd c
  /\ any_char (Ascii.eqb ",") (fst c) = false
  /\ any_char is_break (fst c) = false
  /\ any_char is_break (snd c) = false.

(** The first character of [s], if any, does not satisfy [p]. *)
Definition head_ok (p : ascii -> bool) (s : string) : bool :=
  match s with
  | EmptyString => true
  | String c _ => negb (p c)
  end.

(** ** Enrichment of a spot *)

(** [populate_dxcc(spot)]: the two lookups, one after the other, and the
    two assignments.  [now1], [resp1] and [now2], [resp2] are the clock
    reading and the service's answer for the first and the second
    lookup. *)
Definition populate_dxcc (c : config) (now1 now2 : Q)
    (resp1 resp2 : Dxcc.response) (s : spot) (st : Dxcc.state)
  : spot * Dxcc.state :=
  let '(s1, st1) := Dxcc.dxcc_lookup c now1 resp1 (spotter s) st in
  let '(s2, st2) := Dxcc.dxcc_lookup c now2 resp2 (spotted s) st1 in
  ({| spotter := spotter s; spotted := spotted s;
      frequency := frequency s; message := message s;
      when := when s; source := source s; band := band s;
      dxcc_spotter := match s1 with
                      | Some v => Some v
                      | None => dxcc_spotter s
                      end;
      dxcc_spotted := match s2 with
                      | Some v => Some v
                      | None => dxcc_spotted s
                      end |}, st2).

(** The lookup state with its error counter set to [k]. *)
Definition with_errors (k : Z) (st : Dxcc.state) : Dxcc.state :=
  {| Dxcc.dxcc_cache := Dxcc.dxcc_cache st;
     Dxcc.consecutive_dxcc_errors := k;
     Dxcc.outbound := Dxcc.outbound st |}.

(** ** The read loop over a run of lines *)

(** The inner loop of [run] over the lines received, each with the clock
    reading at its arrival. *)
Definition handle_lines (feed : list (DT.datetime * string)) (st : store)
  : store :=
  fold_left (fun st' x => handle_line (fst x) (snd x) st') feed st.

(** The records the two grammars make of a run of lines, in arrival
    order. *)
Definition parsed_records (feed : list (DT.datetime * string)) : list spot :=
  flat_map (fun x =>
              let text := Py.strip (snd x) in
              if String.eqb text "" then []
              else match parse_line (fst x) text with
                   | Ok (Relay s) | Ok (BulkListing s) => [s]
                   | _ => []
                   end) feed.

(** ** Decimal text *)

(** The value of a run of decimal digits read after the value [acc]. *)
Fixpoint uint_value (d : Decimal.uint) (acc : Z) : Z :=
  match d with
  | Decimal.Nil => acc
  | Decimal.D0 l => uint_value l (acc * 10)
  | Decimal.D1 l => uint_value l (acc * 10 + 1)
  | Decimal.D2 l => uint_value l (acc * 10 + 2)
  | Decimal.D3 l => uint_value l (acc * 10 + 3)
  | Decimal.D4 l => uint_value l (acc * 10 + 4)
  | Decimal.D5 l => uint_value l (acc * 10 + 5)
  | Decimal.D6 l => uint_value l (acc * 10 + 6)
  | Decimal.D7 l => uint_value l (acc * 10 + 7)
  | Decimal.D8 l => uint_value l (acc * 10 + 8)
  | Decimal.D9 l => uint_value l (acc * 10 + 9)
  end.

(** [p] is [w] decimal digits that read [v]. *)
Definition digits_of (w : nat) (v : Z) (p : string) : Prop :=
  String.length p = w
  /\ forallb Py.is_digit (list_ascii_of_string p) = true
  /\ fst (fst (Py.digitpart p 0 0%nat)) = v.

(** ** Timestamps as text *)

(** The date and the time of day laid out from six groups of digits, as
    [isoformat] writes them. *)
Definition stamp (py pm pd ph pmi ps : string) : string :=
  py +:+ "-" +:+ pm +:+ "-" +:+ pd +:+ "T" +:+ ph +:+ ":" +:+ pmi
  +:+ ":" +:+ ps.

(** [w] with its microsecond cut down to whole milliseconds. *)
Definition to_millisecond (w : DT.datetime) : DT.datetime :=
  DT.mk (DT.year w) (DT.month w) (DT.day w)
        (DT.hour w) (DT.minute w) (DT.second w)
        (DT.microsecond w / 1000 * 1000).

(** The stored timestamp of [s] reads back as some datetime. *)
Definition readable (s : spot) : Prop := exists t, when_of s = Ok t.

(** ** The portal's configuration form *)





(** ** The portal's front page *)

(** The figures [portal_index] takes from the cache: [entries] and
    [recent]. *)
Definition portal_index_entries (d : Deque.t spot) : nat := Deque.len d.

Definition portal_index_recent (d : Deque.t spot) : list spot :=
  take 50 (rev (Deque.items d)).

(** ** Entity names *)

(** Text of code points below 128. *)
Definition ascii_text (s : string) : bool :=
  forallb (fun c => Nat.ltb (Py.code c) 128) (list_ascii_of_string s).

(** A word without white space that does not begin with a small letter
    and has no capital letter after its first character. *)
Definition title_word (w : string) : bool :=
  match w with
  | EmptyString => false
  | String c w' =>
      negb (Py.between 97 122 c)
      && negb (any_char (Py.between 65 90) w')
      && negb (any_char Py.is_space w)
  end.

(** ** The front page's freshest and oldest timestamps *)

(** [a < b] on [str]: by code point, a proper prefix before what extends
    it. *)
Fixpoint str_ltb (a b : string) : bool :=
  match a, b with
  | _, EmptyString => false
  | EmptyString, String _ _ => true
  | String x a', String y b' =>
      Nat.ltb (Py.code x) (Py.code y)
      || (Nat.eqb (Py.code x) (Py.code y) && str_ltb a' b')
  end.

(** [max(texts, default=None)]: a later text replaces the one kept when it
    is greater. *)
Definition py_max (texts : list string) : option string :=
  fold_left (fun acc x =>
               match acc with
               | None => Some x
               | Some m => if str_ltb m x then Some x else acc
               end) texts None.

(** [min(texts, default=None)]. *)
Definition py_min (texts : list string) : option string :=
  fold_left (fun acc x =>
               match acc with
               | None => Some x
               | Some m => if str_ltb x m then Some x else acc
               end) texts None.

Definition portal_index_freshest (d : Deque.t spot) : option string :=
  py_max (map when (Deque.items d)).

Definition portal_index_oldest (d : Deque.t spot) : option string :=
  py_min (map when (Deque.items d)).

(** The timestamp of [s] is the text of the valid datetime [w], as the
    relay branch or as the listing branch writes it. *)
Definition stamped (s : spot) (w : DT.datetime) : Prop :=
  DT.valid w = true
  /\ (when s = Py.replace "+00:00" "Z" (DT.isoformat w)
      \/ when s = Py.replace "+00:00" "Z" (DT.isoformat_ms w)).

(** The whole seconds of [w] since the start of the calendar. *)
Definition whole_seconds (w : DT.datetime) : Z := DT.to_us w / 1000000.

(** ** Lines on the wire *)

(** The number of line feeds in a text. *)
Fixpoint line_feeds (s : string) : nat :=
  match s with
  | EmptyString => 0%nat
  | String c s' =>
      ((if Ascii.eqb c "010" then 1 else 0) + line_feeds s')%nat
  end.
(** * Properties *)

Local Open Scope list_scope.

(** ** Band derivation *)

Section BandFacts.

Lemma Qltb_lt (a b : Q) : Qltb a b = true <-> (a < b)%Q.
Proof.
  unfold Qltb. rewrite negb_true_iff, <- not_true_iff_false, Qle_bool_iff.
  split; [apply Qnot_le_lt | apply Qlt_not_le].
Qed.

(** Two ranges that both contain [f] overlap as integer intervals. *)
Lemma within_overlap (a b c d : Z) (f : pyfloat) :
  within a f b = true -> within c f d = true -> a < d /\ c < b.
Proof.
  unfold within. rewrite !andb_true_iff.
  destruct f as [q| | |]; simpl; try (intros [? ?]; discriminate).
  rewrite !Qltb_lt. intros [Ha Hb] [Hc Hd]. split; rewrite Zlt_Qlt.
  - eapply Qlt_trans; eassumption.
  - eapply Qlt_trans; eassumption.
Qed.

Lemma in_band_disjoint (f : pyfloat) (b1 b2 : Z * Z * string) :
  b1 ∈ bands -> b2 ∈ bands -> in_band f b1 -> in_band f b2 -> b1 = b2.
Proof.
  unfold in_band, bands. intros H1 H2 I1 I2.
  pose proof (within_overlap _ _ _ _ _ I1 I2) as [L R].
  repeat (apply elem_of_cons in H1 as [-> | H1]);
    try (apply elem_of_nil in H1; contradiction);
    repeat (apply elem_of_cons in H2 as [-> | H2]);
    try (apply elem_of_nil in H2; contradiction);
    first [ reflexivity | exfalso; cbn in L, R; lia ].
Qed.

End BandFacts.

(** One step of the chain: either the range test fails, or it succeeds and
    contradicts the range [f] is known to be in. *)
Ltac band_step Hin :=
  match goal with
  | |- context [within ?a ?f ?b] =>
      let E := fresh "E" in
      destruct (within a f b) eqn:E;
      [ first
          [ reflexivity
          | exfalso;
            let P := fresh in
            pose proof (within_overlap _ _ _ _ _ Hin E) as P;
            cbn in P; lia ]
      | ]
  end.

Lemma qrg2band_khz_in_band (v : pyval) (f : pyfloat) (b : Z * Z * string) :
  py_float v = Ok f -> b ∈ bands -> in_band f b ->
  qrg2band_khz v = band_label b.
Proof.
  unfold in_band, bands, qrg2band_khz. intros Hf Hb Hin. rewrite Hf.
  repeat (apply elem_of_cons in Hb as [-> | Hb]);
    try (apply elem_of_nil in Hb; contradiction);
    cbn [band_lo band_hi band_label fst snd] in *;
    repeat band_step Hin; congruence.
Qed.

Lemma qrg2band_khz_out_of_range (v : pyval) (f : pyfloat) :
  py_float v = Ok f -> (forall b, b ∈ bands -> ~ in_band f b) ->
  qrg2band_khz v = "".
Proof.
  unfold qrg2band_khz. intros -> Hout.
  assert (H : forall lo hi l, (lo, hi, l) ∈ bands -> within lo f hi = false).
  { intros lo hi l Hb. apply not_true_is_false. exact (Hout _ Hb). }
  repeat (erewrite H by
    (unfold bands; repeat first [ apply list_elem_of_here
                                | apply list_elem_of_further ])).
  reflexivity.
Qed.

Lemma qrg2band_khz_non_numeric (v : pyval) (e : exn) :
  py_float v = Raise e -> qrg2band_khz v = "".
Proof. unfold qrg2band_khz. intros ->. reflexivity. Qed.

(** C8. Band derivation is a total function into the labels of the table
    (or the empty string): a frequency inside a range gets that range's
    label, the ranges are pairwise disjoint so the label is unique, a
    numeric input outside every range and a non-numeric input give the
    empty string, and 14074, 999, 1500 and 7100 give 20m, nothing, 160m and
    40m. *)
Theorem qrg2band_khz_spec :
  (forall v f b, py_float v = Ok f -> b ∈ bands -> in_band f b ->
     qrg2band_khz v = band_label b)
  /\ (forall f b1 b2, b1 ∈ bands -> b2 ∈ bands ->
        in_band f b1 -> in_band f b2 -> b1 = b2)
  /\ (forall v f, py_float v = Ok f ->
        (forall b, b ∈ bands -> ~ in_band f b) -> qrg2band_khz v = "")
  /\ (forall v e, py_float v = Raise e -> qrg2band_khz v = "")
  /\ (forall v, qrg2band_khz v = "" \/
        exists b, b ∈ bands /\ qrg2band_khz v = band_label b)
  /\ map band_label bands =
       ["160m"; "80m"; "40m"; "30m"; "20m"; "17m"; "15m"; "12m"; "10m";
        "6m"; "4m"; "2m"; "70cm"]
  /\ qrg2band_khz (PyInt 14074) = "20m"
  /\ qrg2band_khz (PyInt 999) = ""
  /\ qrg2band_khz (PyInt 1500) = "160m"
  /\ qrg2band_khz (PyInt 7100) = "40m"
  /\ qrg2band_khz (PyStr "14074") = "20m"
  /\ qrg2band_khz (PyStr "999") = ""
  /\ qrg2band_khz (PyStr "1500") = "160m"
  /\ qrg2band_khz (PyStr "7100") = "40m".
Proof.
  split; [exact qrg2band_khz_in_band |].
  split; [exact in_band_disjoint |].
  split; [exact qrg2band_khz_out_of_range |].
  split; [exact qrg2band_khz_non_numeric |].
  split.
  - intros v. unfold qrg2band_khz.
    destruct (py_float v) as [f | e]; [| left; reflexivity].
    repeat match goal with
    | |- context [within ?a f ?b] =>
        destruct (within a f b);
        [ right; eexists (a, b, _); split;
          [ repeat first [ apply list_elem_of_here
                         | apply list_elem_of_further ]
          | reflexivity ]
        | ]
    end.
    left; reflexivity.
  - repeat split; vm_compute; reflexivity.
Qed.

(** The theorem at the frequency of the FT8 calling channel on 20 metres. *)
Lemma qrg2band_khz_spec_witness :
  qrg2band_khz (PyStr "14074.0") = "20m".
Proof.
  apply (proj1 qrg2band_khz_spec (PyStr "14074.0") (round_double (decimal 140740 (-1)))
           (13000, 15000, "20m")).
  - vm_compute. reflexivity.
  - unfold bands. repeat first [ apply list_elem_of_here
                               | apply list_elem_of_further ].
  - vm_compute. reflexivity.
Defined.

(** ** The spot cache *)

Section DequeFacts.
Context {A : Type}.
Implicit Types (d : Deque.t A) (x : A) (xs : list A).

Lemma append_maxlen d x : Deque.maxlen (Deque.append d x) = Deque.maxlen d.
Proof. reflexivity. Qed.

Lemma extend_maxlen xs : forall d,
  Deque.maxlen (Deque.extend d xs) = Deque.maxlen d.
Proof.
  induction xs as [|x xs IH]; intros d; [reflexivity|].
  change (Deque.extend d (x :: xs)) with (Deque.extend (Deque.append d x) xs).
  now rewrite IH.
Qed.

Lemma tail_drop (l : list A) : tail l = drop 1 l.
Proof. destruct l; simpl; [reflexivity | now rewrite drop_0]. Qed.

(** One append keeps the most recent [maxlen] of the old contents followed
    by the new element. *)
Lemma append_items d x :
  bounded d ->
  Deque.items (Deque.append d x)
  = most_recent (Z.to_nat (Deque.maxlen d)) (Deque.items d ++ [x]).
Proof.
  intros [Hm Hl]. unfold Deque.append, most_recent, Deque.len in *. simpl.
  rewrite length_app. simpl.
  destruct (Z.ltb_spec (Deque.maxlen d)
              (Z.of_nat (length (Deque.items d) + 1))) as [Hlt | Hge].
  - rewrite tail_drop. f_equal. lia.
  - replace (length (Deque.items d) + 1 - Z.to_nat (Deque.maxlen d))%nat
      with 0%nat by lia.
    now rewrite drop_0.
Qed.

Lemma append_bounded d x : bounded d -> bounded (Deque.append d x).
Proof.
  intros Hb. pose proof (append_items d x Hb) as Hi.
  destruct Hb as [Hm Hl]. split; [exact Hm|].
  unfold Deque.len in *. rewrite Hi. unfold most_recent.
  rewrite length_drop, length_app. simpl. lia.
Qed.

Lemma most_recent_app (n : nat) (l k : list A) :
  most_recent n (most_recent n l ++ k) = most_recent n (l ++ k).
Proof.
  unfold most_recent.
  destruct (Nat.le_gt_cases (length l) n) as [Hle | Hgt].
  - replace (length l - n)%nat with 0%nat by lia. now rewrite drop_0.
  - set (a := (length l - n)%nat).
    assert (Ha : length (drop a l) = n) by (rewrite length_drop; lia).
    rewrite !drop_app, !length_app, Ha, drop_drop. f_equal; f_equal; lia.
Qed.

Lemma extend_items xs : forall d,
  bounded d ->
  Deque.items (Deque.extend d xs)
  = most_recent (Z.to_nat (Deque.maxlen d)) (Deque.items d ++ xs)
  /\ bounded (Deque.extend d xs).
Proof.
  induction xs as [|x xs IH]; intros d Hb.
  - simpl. rewrite app_nil_r. split; [|exact Hb].
    destruct Hb as [Hm Hl]. unfold most_recent, Deque.len in *.
    replace (length (Deque.items d) - Z.to_nat (Deque.maxlen d))%nat
      with 0%nat by lia.
    now rewrite drop_0.
  - change (Deque.extend d (x :: xs))
      with (Deque.extend (Deque.append d x) xs).
    destruct (IH (Deque.append d x) (append_bounded d x Hb)) as [Hi Hb'].
    split; [|exact Hb'].
    rewrite Hi, append_maxlen, (append_items d x Hb), most_recent_app.
    now rewrite <- app_assoc.
Qed.

(** Rebuilding a deque at capacity [k] keeps the [k] most recent elements
    in order. *)
Lemma new_items xs (k : Z) :
  valid_capacity k ->
  exists d, Deque.new xs k = Ok d
            /\ Deque.maxlen d = k
            /\ Deque.items d = most_recent (Z.to_nat k) xs
            /\ bounded d.
Proof.
  intros [Hk Hmax]. unfold Deque.new.
  destruct (Z.ltb_spec k (- Deque.ssize_max - 1)) as [Hlow | _];
    [unfold Deque.ssize_max in *; lia|].
  destruct (Z.ltb_spec Deque.ssize_max k) as [Hhigh | _]; [lia|].
  cbn [orb].
  destruct (Z.ltb_spec k 0) as [Hneg | _]; [lia|].
  set (e := {| Deque.items := []; Deque.maxlen := k |}).
  assert (He : bounded e) by (split; unfold Deque.len; simpl; lia).
  destruct (extend_items xs e He) as [Hi Hb].
  exists (Deque.extend e xs). split; [reflexivity|].
  split; [apply extend_maxlen|]. split; [exact Hi | exact Hb].
Qed.

(** Outside the valid capacities the constructor raises: [ValueError] for
    a negative [Py_ssize_t], [OverflowError] for what is not one. *)
Lemma new_invalid xs (k : Z) :
  ~ valid_capacity k ->
  Deque.new xs k
  = Raise (if (k <? - Deque.ssize_max - 1) || (Deque.ssize_max <? k)
           then OverflowError else ValueError).
Proof.
  intros Hk. unfold Deque.new, valid_capacity in *.
  destruct ((k <? - Deque.ssize_max - 1) || (Deque.ssize_max <? k)) eqn:E;
    [reflexivity|].
  apply orb_false_iff in E as [_ E]. apply Z.ltb_ge in E.
  destruct (Z.ltb_spec k 0); [reflexivity | lia].
Qed.

Lemma new_negative xs (k : Z) :
  - Deque.ssize_max - 1 <= k < 0 -> Deque.new xs k = Raise ValueError.
Proof.
  intros [Hlo Hk]. rewrite new_invalid by (unfold valid_capacity; lia).
  destruct (Z.ltb_spec k (- Deque.ssize_max - 1)); [lia|].
  destruct (Z.ltb_spec Deque.ssize_max k);
    [unfold Deque.ssize_max in *; lia | reflexivity].
Qed.

Lemma new_too_large xs (k : Z) :
  Deque.ssize_max < k -> Deque.new xs k = Raise OverflowError.
Proof.
  intros Hk. rewrite new_invalid by (unfold valid_capacity; lia).
  destruct (Z.ltb_spec Deque.ssize_max k); [|lia].
  now rewrite orb_true_r.
Qed.

Lemma most_recent_all (n : nat) (l : list A) :
  (length l <= n)%nat -> most_recent n l = l.
Proof.
  intros H. unfold most_recent.
  replace (length l - n)%nat with 0%nat by lia. apply drop_0.
Qed.

Lemma most_recent_length (n : nat) (l : list A) :
  (n <= length l)%nat -> length (most_recent n l) = n.
Proof. intros H. unfold most_recent. rewrite length_drop. lia. Qed.

Lemma most_recent_suffix (n : nat) (l : list A) :
  exists old, l = old ++ most_recent n l.
Proof.
  exists (take (length l - n) l). unfold most_recent.
  now rewrite take_drop.
Qed.

End DequeFacts.

Section CacheFacts.
Implicit Types (st : store) (s : spot) (k : Z).

Lemma shdx_store_items st s :
  bounded (spots st) ->
  Deque.items (spots (shdx_store st s))
  = most_recent (Z.to_nat (Deque.maxlen (spots st)))
                (Deque.items (spots st) ++ [s]).
Proof. intros Hb. simpl. now apply append_items. Qed.

(** The relay branch always ends with the deque at the configured size,
    holding the most recent records, the new one last. *)
Lemma relay_store_items st s :
  bounded (spots st) ->
  Deque.maxlen (spots st) = maxcache (cfg st)
  \/ valid_capacity (maxcache (cfg st)) ->
  exists st', relay_store st s = Ok st'
    /\ cfg st' = cfg st
    /\ synced st'
    /\ Deque.items (spots st')
       = most_recent (Z.to_nat (maxcache (cfg st)))
                     (Deque.items (spots st) ++ [s]).
Proof.
  intros Hb Hk. unfold relay_store.
  destruct (Z.eqb_spec (Deque.maxlen (spots st)) (maxcache (cfg st)))
    as [Heq | Hne]; simpl.
  - eexists. split; [reflexivity|]. split; [reflexivity|]. split.
    + split; [exact Heq | now apply append_bounded].
    + simpl. rewrite <- Heq. now apply append_items.
  - destruct Hk as [Hk | Hk]; [contradiction|].
    destruct (new_items (Deque.items (spots st)) _ Hk)
      as (d & Hd & Hm & Hi & Hbd).
    rewrite Hd. cbn [rbind]. eexists. split; [reflexivity|].
    split; [reflexivity|]. cbn [spots cfg]. split.
    + split; [exact Hm | now apply append_bounded].
    + rewrite (append_items d s Hbd), Hm, Hi.
      apply most_recent_app.
Qed.

Lemma portal_config_items st k :
  valid_capacity k ->
  synced (portal_config k st)
  /\ maxcache (cfg (portal_config k st)) = k
  /\ Deque.items (spots (portal_config k st))
     = most_recent (Z.to_nat k) (Deque.items (spots st)).
Proof.
  intros Hk. unfold portal_config. simpl.
  destruct (new_items (Deque.items (spots st)) k Hk)
    as (d & Hd & Hm & Hi & Hbd).
  rewrite Hd. simpl. repeat split; try assumption; apply Hbd.
Qed.

Lemma step_synced st (o : cache_op) :
  synced st -> capacity_ok o ->
  synced (step st o)
  /\ exists evicted,
       Deque.items (spots st) ++ inserted [o]
       = evicted ++ Deque.items (spots (step st o)).
Proof.
  intros [Hm Hb] Hok. destruct o as [s | s | k].
  - change (inserted [OpRelay s]) with [s]. cbn [step].
    destruct (relay_store_items st s Hb (or_introl Hm))
      as (st' & -> & _ & Hs & Hi).
    split; [exact Hs|]. rewrite Hi. apply most_recent_suffix.
  - change (inserted [OpListing s]) with [s].
    change (step st (OpListing s)) with (shdx_store st s).
    split.
    + split; [exact Hm | now apply append_bounded].
    + rewrite (shdx_store_items st s Hb). apply most_recent_suffix.
  - change (inserted [OpConfig k]) with (@nil spot).
    change (step st (OpConfig k)) with (portal_config k st).
    destruct (portal_config_items st k Hok) as (Hs & _ & Hi).
    split; [exact Hs|]. rewrite Hi, app_nil_r. apply most_recent_suffix.
Qed.

Lemma inserted_cons (o : cache_op) (ops : list cache_op) :
  inserted (o :: ops) = inserted [o] ++ inserted ops.
Proof. unfold inserted. simpl. now rewrite app_nil_r. Qed.

Lemma run_ops_synced (ops : list cache_op) : forall st,
  synced st -> Forall capacity_ok ops ->
  synced (run_ops st ops)
  /\ exists evicted,
       Deque.items (spots st) ++ inserted ops
       = evicted ++ Deque.items (spots (run_ops st ops)).
Proof.
  induction ops as [|o ops IH]; intros st Hs Hok.
  - split; [exact Hs|]. exists []. simpl. now rewrite app_nil_r.
  - apply Forall_cons in Hok as [Ho Hops].
    destruct (step_synced st o Hs Ho) as (Hs1 & ev1 & E1).
    destruct (IH (step st o) Hs1 Hops) as (Hs2 & ev2 & E2).
    split; [exact Hs2|]. exists (ev1 ++ ev2).
    rewrite inserted_cons.
    change (run_ops st (o :: ops)) with (run_ops (step st o) ops).
    rewrite app_assoc, E1, <- !app_assoc, E2. reflexivity.
Qed.

Lemma startup_synced (c : config) st :
  startup c = Ok st -> synced st /\ Deque.items (spots st) = [].
Proof.
  unfold startup, Deque.new.
  destruct ((maxcache c <? - Deque.ssize_max - 1)
            || (Deque.ssize_max <? maxcache c)); [discriminate|].
  destruct (Z.ltb_spec (maxcache c) 0) as [Hneg | Hk]; simpl; [discriminate|].
  intros [= <-]. unfold synced, bounded, Deque.len. simpl.
  repeat split; lia.
Qed.

End CacheFacts.

Section ReadLoopFacts.
Implicit Types (now : DT.datetime) (st : store).

(** A received line leaves the store alone or is one of the two appending
    operations, on the record the parser made of it. *)
Lemma handle_line_step now (line : string) st :
  handle_line now line st = st
  \/ (exists s, parse_line now (Py.strip line) = Ok (Relay s)
                /\ handle_line now line st = step st (OpRelay s))
  \/ (exists s, parse_line now (Py.strip line) = Ok (BulkListing s)
                /\ handle_line now line st = step st (OpListing s)).
Proof.
  unfold handle_line. destruct (String.eqb (Py.strip line) ""); [now left|].
  destruct (parse_line now (Py.strip line)) as [[s | s |] | e];
    [right; left | right; right | left | left];
    first [ reflexivity | exists s; split; reflexivity ].
Qed.

(** The read loop keeps the cache within the configured bound. *)
Lemma handle_line_synced now (line : string) st :
  synced st -> synced (handle_line now line st).
Proof.
  intros Hs.
  destruct (handle_line_step now line st) as [-> | [(s & _ & ->) | (s & _ & ->)]];
    [exact Hs | |]; now apply step_synced.
Qed.

End ReadLoopFacts.

(** A capacity [deque] does not take, in the form: the file is written,
    the rebuild raises, the cache stays as it was, and from then on the
    relay branch raises on every record, as long as the file says so. *)
Lemma portal_config_invalid (st : store) (k : Z) :
  ~ valid_capacity k ->
  spots (portal_config k st) = spots st
  /\ maxcache (cfg (portal_config k st)) = k
  /\ (Deque.maxlen (spots st) <> k ->
      forall s, exists e, relay_store (portal_config k st) s = Raise e).
Proof.
  intros Hk. unfold portal_config. cbn [maxcache set_maxcache].
  rewrite (new_invalid _ k Hk). cbn [spots cfg maxcache set_maxcache].
  split; [reflexivity|]. split; [reflexivity|].
  intros Hne s. unfold relay_store. cbn [spots cfg maxcache set_maxcache].
  destruct (Z.eqb_spec (Deque.maxlen (spots st)) k) as [E | _];
    [contradiction|].
  cbn [negb]. rewrite (new_invalid _ k Hk). eexists. reflexivity.
Qed.

(** C1, the failing case.  A capacity of -1 submitted through the portal
    form is written to the configuration while the rebuild of the deque
    raises: the cache keeps its record and its bound of two, and holds
    more than the configured capacity. *)
Lemma spot_cache_exceeds_configured_capacity :
  startup (set_maxcache 2 DEFAULT_CONFIG) = Ok (sample_store 2)
  /\ (let st := run_ops (sample_store 2)
                  [OpListing (sample_spot "A"); OpConfig (-1)] in
      maxcache (cfg st) = -1
      /\ Deque.items (spots st) = [sample_spot "A"]
      /\ Deque.maxlen (spots st) = 2
      /\ ~ (Z.of_nat (Deque.len (spots st)) <= maxcache (cfg st))).
Proof.
  split; [reflexivity|]. cbv zeta.
  split; [reflexivity|]. split; [reflexivity|]. split; [reflexivity|].
  vm_compute. intros H. apply H. reflexivity.
Qed.

(** C1, amended.  As long as every capacity submitted through the portal
    form is one [deque] takes (from 0 to [sys.maxsize]) and the
    configuration changes only through that form: in every state reached
    from start-up by the cache's writers, the deque's bound is the
    configured capacity, the cache holds at most that many records, and
    its contents are the tail end of the sequence of inserted records, in
    insertion order.  Appending to a full cache drops exactly the oldest
    record and keeps the others in order.  Setting the capacity to a valid
    [k] keeps the [k] most recently inserted records in order when [k] is
    at most the current size, and keeps all records when [k] is at least
    the current size; the relay branch brings the deque to a valid
    configured capacity in the same way before it appends.  A capacity
    [deque] does not take is written to the configuration all the same,
    and the cache keeps its records and its bound. *)
Theorem spot_cache_bounded_fifo :
  (forall (c : config) (st0 : store) (ops : list cache_op),
     startup c = Ok st0 -> Forall capacity_ok ops ->
     let st := run_ops st0 ops in
     Deque.maxlen (spots st) = maxcache (cfg st)
     /\ Z.of_nat (Deque.len (spots st)) <= maxcache (cfg st)
     /\ exists evicted, inserted ops = evicted ++ Deque.items (spots st))
  /\ (forall (st : store) (s : spot),
        synced st ->
        Z.of_nat (Deque.len (spots st)) = maxcache (cfg st) ->
        Deque.items (spots (step st (OpListing s)))
        = tail (Deque.items (spots st) ++ [s])
        /\ Deque.items (spots (step st (OpRelay s)))
           = tail (Deque.items (spots st) ++ [s]))
  /\ (forall (st : store) (k : Z),
        synced st -> valid_capacity k ->
        k <= Z.of_nat (Deque.len (spots st)) ->
        let st' := portal_config k st in
        maxcache (cfg st') = k
        /\ Deque.maxlen (spots st') = k
        /\ Z.of_nat (Deque.len (spots st')) = k
        /\ Deque.items (spots st')
           = most_recent (Z.to_nat k) (Deque.items (spots st)))
  /\ (forall (st : store) (k : Z),
        synced st -> valid_capacity k ->
        Z.of_nat (Deque.len (spots st)) <= k ->
        let st' := portal_config k st in
        maxcache (cfg st') = k
        /\ Deque.maxlen (spots st') = k
        /\ Deque.items (spots st') = Deque.items (spots st))
  /\ (forall (st : store) (s : spot),
        bounded (spots st) -> valid_capacity (maxcache (cfg st)) ->
        exists st', relay_store st s = Ok st'
          /\ Deque.maxlen (spots st') = maxcache (cfg st)
          /\ Deque.items (spots st')
             = most_recent (Z.to_nat (maxcache (cfg st)))
                           (Deque.items (spots st) ++ [s]))
  /\ (forall (st : store) (k : Z),
        ~ valid_capacity k ->
        let st' := portal_config k st in
        maxcache (cfg st') = k /\ spots st' = spots st).
Proof.
  split; [| split; [| split; [| split; [| split]]]].
  - intros c st0 ops Hst Hok st.
    destruct (startup_synced c st0 Hst) as [Hs0 Hnil].
    destruct (run_ops_synced ops st0 Hs0 Hok) as ([Hm Hb] & ev & E).
    rewrite Hnil in E. simpl in E. fold st in Hm, Hb, E.
    split; [exact Hm|]. split; [rewrite <- Hm; apply Hb|].
    exists ev. exact E.
  - intros st s [Hm Hb] Hfull.
    assert (E : most_recent (Z.to_nat (maxcache (cfg st)))
                  (Deque.items (spots st) ++ [s])
                = tail (Deque.items (spots st) ++ [s])).
    { unfold most_recent, Deque.len in *. rewrite tail_drop, length_app.
      simpl. f_equal. lia. }
    split.
    + change (step st (OpListing s)) with (shdx_store st s).
      rewrite (shdx_store_items st s Hb), Hm. exact E.
    + cbn [step].
      destruct (relay_store_items st s Hb (or_introl Hm))
        as (st' & -> & _ & _ & Hi).
      rewrite Hi. exact E.
  - intros st k [Hm Hb] Hk Hle st'.
    destruct (portal_config_items st k Hk) as ([Hm' Hb'] & Hc & Hi).
    fold st' in Hm', Hb', Hc, Hi.
    split; [exact Hc|]. split; [now rewrite Hm'|]. split; [|exact Hi].
    destruct Hk as [Hk _].
    unfold Deque.len in *. rewrite Hi, most_recent_length; lia.
  - intros st k [Hm Hb] Hk Hle st'.
    destruct (portal_config_items st k Hk) as ([Hm' Hb'] & Hc & Hi).
    fold st' in Hm', Hb', Hc, Hi.
    split; [exact Hc|]. split; [now rewrite Hm'|].
    rewrite Hi. apply most_recent_all. unfold Deque.len in *. lia.
  - intros st s Hb Hk.
    destruct (relay_store_items st s Hb (or_intror Hk))
      as (st' & E & Hc & [Hm _] & Hi).
    exists st'. split; [exact E|]. split; [|exact Hi].
    rewrite <- Hc. exact Hm.
  - intros st k Hk st'.
    destruct (portal_config_invalid st k Hk) as (Hs & Hc & _).
    split; assumption.
Qed.

(** The invariant on a run that fills a cache of two places, overflows it
    and then shrinks it to one place. *)
Lemma spot_cache_bounded_fifo_witness :
  let ops := [OpListing (sample_spot "A"); OpRelay (sample_spot "B");
              OpListing (sample_spot "C"); OpConfig 1] in
  let st := run_ops (sample_store 2) ops in
  Deque.maxlen (spots st) = maxcache (cfg st)
  /\ Z.of_nat (Deque.len (spots st)) <= maxcache (cfg st)
  /\ exists evicted, inserted ops = evicted ++ Deque.items (spots st).
Proof.
  apply (proj1 spot_cache_bounded_fifo (set_maxcache 2 DEFAULT_CONFIG)).
  - reflexivity.
  - repeat (apply Forall_cons; split); try apply Forall_nil; try exact I.
    unfold capacity_ok, valid_capacity, Deque.ssize_max. lia.
Defined.

(** ** Calendar facts *)

Section CalendarFacts.

Lemma days_before_year_succ (y : Z) :
  DT.days_before_year (y + 1)
  = DT.days_before_year y + (if DT.is_leap y then 366 else 365).
Proof.
  unfold DT.days_before_year, DT.is_leap.
  replace (y + 1 - 1) with y by lia.
  destruct (Z.eqb_spec (y mod 4) 0), (Z.eqb_spec (y mod 100) 0),
    (Z.eqb_spec (y mod 400) 0); cbn [negb andb orb];
    Z.div_mod_to_equations; lia.
Qed.

Lemma days_in_month_range (y m : Z) : 28 <= DT.days_in_month y m <= 31.
Proof.
  unfold DT.days_in_month.
  destruct (m =? 2); [destruct (DT.is_leap y); lia|].
  destruct ((m =? 4) || (m =? 6) || (m =? 9) || (m =? 11)); lia.
Qed.

(** The days before a month are the days before the previous month plus
    that month's length. *)
Lemma days_before_month_succ (y m : Z) :
  1 <= m < 12 ->
  DT.days_before_month y (m + 1)
  = DT.days_before_month y m + DT.days_in_month y m.
Proof.
  intros Hm.
  assert (H : m = 1 \/ m = 2 \/ m = 3 \/ m = 4 \/ m = 5 \/ m = 6 \/ m = 7
              \/ m = 8 \/ m = 9 \/ m = 10 \/ m = 11) by lia.
  unfold DT.days_before_month, DT.days_in_month.
  repeat (destruct H as [-> | H]); try subst m;
    destruct (DT.is_leap y); reflexivity.
Qed.

Lemma days_before_january (y : Z) : DT.days_before_month y 1 = 0.
Proof. reflexivity. Qed.

Lemma days_before_december (y : Z) :
  DT.days_before_month y 12 = 334 + (if DT.is_leap y then 1 else 0).
Proof. unfold DT.days_before_month. destruct (DT.is_leap y); reflexivity. Qed.

Lemma valid_inv (d : DT.datetime) :
  DT.valid d = true ->
  (1 <= DT.year d <= 9999 /\ 1 <= DT.month d <= 12
   /\ 1 <= DT.day d <= DT.days_in_month (DT.year d) (DT.month d))
  /\ (0 <= DT.hour d <= 23 /\ 0 <= DT.minute d <= 59
      /\ 0 <= DT.second d <= 59 /\ 0 <= DT.microsecond d <= 999999).
Proof.
  unfold DT.valid, DT.valid_date, DT.valid_time.
  rewrite !andb_true_iff, !Z.leb_le. lia.
Qed.

Lemma valid_intro (y m d h mi s us : Z) :
  1 <= y <= 9999 -> 1 <= m <= 12 -> 1 <= d <= DT.days_in_month y m ->
  0 <= h <= 23 -> 0 <= mi <= 59 -> 0 <= s <= 59 -> 0 <= us <= 999999 ->
  DT.valid_date y m d && DT.valid_time h mi s us = true.
Proof.
  intros. unfold DT.valid_date, DT.valid_time.
  rewrite !andb_true_iff, !Z.leb_le. lia.
Qed.

(** Subtracting a day lands on a valid datetime exactly 24 hours earlier,
    with the time of day unchanged; only 0001-01-01 has no previous day. *)
Lemma minus_one_day_spec (d : DT.datetime) :
  DT.valid d = true ->
  1 < DT.ymd2ord (DT.year d) (DT.month d) (DT.day d) ->
  exists r, DT.minus_one_day d = Ok r
    /\ DT.valid r = true
    /\ DT.ymd2ord (DT.year r) (DT.month r) (DT.day r)
       = DT.ymd2ord (DT.year d) (DT.month d) (DT.day d) - 1
    /\ DT.to_us r = DT.to_us d - DT.hours 24
    /\ (DT.hour r, DT.minute r, DT.second r, DT.microsecond r)
       = (DT.hour d, DT.minute d, DT.second d, DT.microsecond d).
Proof.
  intros Hv Hord.
  destruct (valid_inv d Hv) as ((Hy & Hm & Hd) & (Hh & Hmi & Hs & Hus)).
  destruct d as [y m dd h mi s us]; cbn [DT.year DT.month DT.day DT.hour
    DT.minute DT.second DT.microsecond] in *.
  assert (Hgoal : forall y' m' d',
    1 <= y' <= 9999 -> 1 <= m' <= 12 -> 1 <= d' <= DT.days_in_month y' m' ->
    DT.ymd2ord y' m' d' = DT.ymd2ord y m dd - 1 ->
    let r := DT.mk y' m' d' h mi s us in
    DT.valid r = true
    /\ DT.ymd2ord (DT.year r) (DT.month r) (DT.day r) = DT.ymd2ord y m dd - 1
    /\ DT.to_us r = DT.to_us (DT.mk y m dd h mi s us) - DT.hours 24
    /\ (DT.hour r, DT.minute r, DT.second r, DT.microsecond r)
       = (h, mi, s, us)).
  { intros y' m' d' Hy' Hm' Hd' E r. subst r. split.
    - unfold DT.valid. cbn. now apply valid_intro.
    - split; [exact E|]. split; [|reflexivity].
      unfold DT.to_us, DT.hours. cbn. rewrite E. lia. }
  unfold DT.minus_one_day. cbn [DT.year DT.month DT.day DT.hour
    DT.minute DT.second DT.microsecond].
  destruct (Z.ltb_spec 1 dd) as [Hd1 | Hd1].
  - destruct (Z.leb_spec 1 y); [|lia].
    eexists. split; [reflexivity|]. apply Hgoal; try lia.
    unfold DT.ymd2ord. lia.
  - assert (dd = 1) by lia. subst dd.
    destruct (Z.ltb_spec 1 m) as [Hm1 | Hm1].
    + destruct (Z.leb_spec 1 y); [|lia].
      eexists. split; [reflexivity|].
      pose proof (days_in_month_range y (m - 1)).
      apply Hgoal; try lia.
      unfold DT.ymd2ord.
      pose proof (days_before_month_succ y (m - 1) ltac:(lia)) as E.
      replace (m - 1 + 1) with m in E by lia. lia.
    + assert (m = 1) by lia. subst m.
      assert (Hy2 : 2 <= y).
      { destruct (Z.eq_dec y 1) as [-> | ]; [|lia].
        vm_compute in Hord. discriminate. }
      destruct (Z.leb_spec 1 (y - 1)); [|lia].
      eexists. split; [reflexivity|].
      apply Hgoal; try lia.
      * unfold DT.days_in_month. cbn. lia.
      * unfold DT.ymd2ord.
        pose proof (days_before_year_succ (y - 1)) as E.
        replace (y - 1 + 1) with y in E by lia.
        rewrite days_before_january, days_before_december.
        destruct (DT.is_leap (y - 1)); lia.
Qed.

End CalendarFacts.

(** ** Timestamp reconstruction *)

Section ParseZTime.
Implicit Types (now : DT.datetime) (timestr : string) (hh mm : Z).

Lemma overlay_ok now hh mm :
  DT.valid now = true -> 0 <= hh <= 23 -> 0 <= mm <= 59 ->
  overlay now hh mm = Ok (at_time now hh mm).
Proof.
  intros Hv Hh Hm. destruct (valid_inv now Hv) as ((? & ? & ?) & ? & ? & ? & ?).
  unfold overlay, DT.make. now rewrite valid_intro.
Qed.

Lemma overlay_raises now hh mm :
  ~ (0 <= hh <= 23 /\ 0 <= mm <= 59) -> overlay now hh mm = Raise ValueError.
Proof.
  intros Hbad. unfold overlay, DT.make.
  destruct (DT.valid_date _ _ _ && DT.valid_time _ _ _ _) eqn:E;
    [|reflexivity].
  exfalso. apply Hbad. unfold DT.valid_time in E.
  rewrite !andb_true_iff, !Z.leb_le in E. lia.
Qed.

Lemma diff_at_time now hh mm :
  DT.diff (at_time now hh mm) now = minutes_ahead now hh mm * 60 * 1000000.
Proof. unfold DT.diff, DT.to_us, at_time, minutes_ahead. cbn. lia. Qed.

Lemma more_than_12h now hh mm :
  DT.hours 12 < DT.diff (at_time now hh mm) now
  <-> 720 < minutes_ahead now hh mm.
Proof. rewrite diff_at_time. unfold DT.hours. lia. Qed.

Lemma parse_z_time_eq now timestr hh mm :
  DT.valid now = true ->
  (String.length (Py.rstrip_char "Z" timestr) = 3
   \/ String.length (Py.rstrip_char "Z" timestr) = 4)%nat ->
  hour_minute (Py.rstrip_char "Z" timestr) = Ok (hh, mm) ->
  0 <= hh <= 23 -> 0 <= mm <= 59 ->
  parse_z_time now timestr
  = if 720 <? minutes_ahead now hh mm
    then DT.minus_one_day (at_time now hh mm)
    else Ok (at_time now hh mm).
Proof.
  intros Hv Hlen Hhm Hh Hm. unfold parse_z_time.
  assert (E : Nat.eqb (String.length (Py.rstrip_char "Z" timestr)) 3
              || Nat.eqb (String.length (Py.rstrip_char "Z" timestr)) 4 = true).
  { destruct Hlen as [-> | ->]; reflexivity. }
  rewrite E, Hhm. cbn [rbind fst snd].
  rewrite (overlay_ok now hh mm Hv Hh Hm). cbn [rbind].
  rewrite diff_at_time. unfold DT.hours.
  destruct (Z.ltb_spec (12 * 3600 * 1000000)
              (minutes_ahead now hh mm * 60 * 1000000)),
    (Z.ltb_spec 720 (minutes_ahead now hh mm)); first [reflexivity | lia].
Qed.

Lemma at_time_valid now hh mm :
  DT.valid now = true -> 0 <= hh <= 23 -> 0 <= mm <= 59 ->
  DT.valid (at_time now hh mm) = true.
Proof.
  intros Hv Hh Hm. destruct (valid_inv now Hv) as ((? & ? & ?) & ? & ? & ? & ?).
  unfold DT.valid, at_time. cbn. now apply valid_intro.
Qed.

End ParseZTime.

(** C3. For a literal whose hour and minute are in range, reconstruction
    puts that hour and minute on the current UTC date, keeping the current
    second and microsecond, and returns the same time on the previous day
    exactly when that timestamp is more than 12 hours ahead of the clock.
    "2359Z" read at 00:05 is 23:59 of the day before; "0005Z" read at 00:10
    is 00:05 of the same day. *)
Theorem parse_z_time_rollover :
  (forall (now : DT.datetime) (timestr : string) (hh mm : Z),
     DT.valid now = true ->
     (String.length (Py.rstrip_char "Z" timestr) = 3
      \/ String.length (Py.rstrip_char "Z" timestr) = 4)%nat ->
     hour_minute (Py.rstrip_char "Z" timestr) = Ok (hh, mm) ->
     0 <= hh <= 23 -> 0 <= mm <= 59 ->
     overlay now hh mm = Ok (at_time now hh mm)
     /\ (DT.hours 12 < DT.diff (at_time now hh mm) now ->
         parse_z_time now timestr = DT.minus_one_day (at_time now hh mm)
         /\ (1 < ordinal now ->
             exists r, parse_z_time now timestr = Ok r
               /\ ordinal r = ordinal now - 1
               /\ DT.to_us r = DT.to_us (at_time now hh mm) - DT.hours 24
               /\ (DT.hour r, DT.minute r, DT.second r, DT.microsecond r)
                  = (hh, mm, DT.second now, DT.microsecond now)))
     /\ (DT.diff (at_time now hh mm) now <= DT.hours 12 ->
         parse_z_time now timestr = Ok (at_time now hh mm)))
  /\ (forall now : DT.datetime,
        DT.valid now = true -> DT.hour now = 0 -> DT.minute now = 5 ->
        1 < ordinal now ->
        exists r, parse_z_time now "2359Z" = Ok r
          /\ ordinal r = ordinal now - 1
          /\ DT.hour r = 23 /\ DT.minute r = 59)
  /\ (forall now : DT.datetime,
        DT.valid now = true -> DT.hour now = 0 -> DT.minute now = 10 ->
        parse_z_time now "0005Z" = Ok (at_time now 0 5))
  /\ parse_z_time (DT.mk 2025 11 12 0 5 7 123456) "2359Z"
     = Ok (DT.mk 2025 11 11 23 59 7 123456)
  /\ parse_z_time (DT.mk 2025 11 12 0 10 7 123456) "0005Z"
     = Ok (DT.mk 2025 11 12 0 5 7 123456).
Proof.
  assert (Hmain : forall now timestr hh mm,
    DT.valid now = true ->
    (String.length (Py.rstrip_char "Z" timestr) = 3
     \/ String.length (Py.rstrip_char "Z" timestr) = 4)%nat ->
    hour_minute (Py.rstrip_char "Z" timestr) = Ok (hh, mm) ->
    0 <= hh <= 23 -> 0 <= mm <= 59 ->
    720 < minutes_ahead now hh mm -> 1 < ordinal now ->
    exists r, parse_z_time now timestr = Ok r
      /\ ordinal r = ordinal now - 1
      /\ DT.to_us r = DT.to_us (at_time now hh mm) - DT.hours 24
      /\ (DT.hour r, DT.minute r, DT.second r, DT.microsecond r)
         = (hh, mm, DT.second now, DT.microsecond now)).
  { intros now timestr hh mm Hv Hlen Hhm Hh Hm Hahead Hord.
    rewrite (parse_z_time_eq now timestr hh mm Hv Hlen Hhm Hh Hm).
    destruct (Z.ltb_spec 720 (minutes_ahead now hh mm)); [|lia].
    destruct (minus_one_day_spec (at_time now hh mm)
                (at_time_valid now hh mm Hv Hh Hm) Hord)
      as (r & Er & _ & Eo & Eu & Et).
    exists r. repeat split; assumption. }
  split; [| split; [| split; [| split]]].
  - intros now timestr hh mm Hv Hlen Hhm Hh Hm.
    pose proof (parse_z_time_eq now timestr hh mm Hv Hlen Hhm Hh Hm) as E.
    split; [now apply overlay_ok|]. split.
    + intros Hahead. apply more_than_12h in Hahead. split.
      * rewrite E. destruct (Z.ltb_spec 720 (minutes_ahead now hh mm));
          [reflexivity | lia].
      * intros Hord. now apply Hmain.
    + intros Hnot. rewrite E.
      destruct (Z.ltb_spec 720 (minutes_ahead now hh mm)) as [H|H];
        [|reflexivity].
      apply more_than_12h in H. lia.
  - intros now Hv Hh Hm Hord.
    destruct (Hmain now "2359Z" 23 59 Hv) as (r & Er & Eo & _ & Et);
      try solve [ right; reflexivity | reflexivity | lia | assumption ].
    { unfold minutes_ahead. lia. }
    exists r. injection Et as E1 E2 _ _. repeat split; assumption.
  - intros now Hv Hh Hm.
    rewrite (parse_z_time_eq now "0005Z" 0 5 Hv);
      try solve [ right; reflexivity | reflexivity | lia ].
    destruct (Z.ltb_spec 720 (minutes_ahead now 0 5)) as [H|H];
      [|reflexivity].
    unfold minutes_ahead in H. lia.
  - vm_compute. reflexivity.
  - vm_compute. reflexivity.
Qed.

(** "2359Z" read five minutes after midnight on 12 November 2025. *)
Lemma parse_z_time_rollover_witness :
  exists r, parse_z_time (DT.mk 2025 11 12 0 5 7 123456) "2359Z" = Ok r
    /\ ordinal r = ordinal (DT.mk 2025 11 12 0 5 7 123456) - 1
    /\ DT.hour r = 23 /\ DT.minute r = 59.
Proof.
  apply (proj1 (proj2 parse_z_time_rollover) (DT.mk 2025 11 12 0 5 7 123456)).
  - reflexivity.
  - reflexivity.
  - reflexivity.
  - vm_compute. reflexivity.
Defined.

Section ParseZTimeTotality.
Implicit Types (now : DT.datetime) (timestr : string).

Lemma int_of_slice_raises (s : string) (e : exn) :
  int_of_slice s = Raise e -> e = ValueError.
Proof. unfold int_of_slice. destruct (Py.int_of_str s); congruence. Qed.

Lemma hour_minute_raises (t : string) (e : exn) :
  hour_minute t = Raise e -> e = ValueError.
Proof.
  unfold hour_minute.
  destruct (Nat.eqb (String.length t) 3);
    repeat match goal with
    | |- context [int_of_slice ?s] =>
        let E := fresh "E" in
        destruct (int_of_slice s) eqn:E; cbn [rbind];
        [| apply int_of_slice_raises in E; congruence ]
    end; discriminate.
Qed.

Lemma parse_z_time_other_length now timestr :
  String.length (Py.rstrip_char "Z" timestr) <> 3%nat ->
  String.length (Py.rstrip_char "Z" timestr) <> 4%nat ->
  parse_z_time now timestr = Ok now.
Proof.
  intros H3 H4. unfold parse_z_time.
  apply Nat.eqb_neq in H3, H4. now rewrite H3, H4.
Qed.

Lemma parse_z_time_out_of_range now timestr :
  (String.length (Py.rstrip_char "Z" timestr) = 3
   \/ String.length (Py.rstrip_char "Z" timestr) = 4)%nat ->
  (forall hh mm, hour_minute (Py.rstrip_char "Z" timestr) = Ok (hh, mm) ->
                 ~ (0 <= hh <= 23 /\ 0 <= mm <= 59)) ->
  parse_z_time now timestr = Raise ValueError.
Proof.
  intros Hlen Hbad. unfold parse_z_time.
  assert (E : Nat.eqb (String.length (Py.rstrip_char "Z" timestr)) 3
              || Nat.eqb (String.length (Py.rstrip_char "Z" timestr)) 4 = true).
  { destruct Hlen as [-> | ->]; reflexivity. }
  rewrite E.
  destruct (hour_minute (Py.rstrip_char "Z" timestr)) as [[hh mm] | e] eqn:Hhm;
    cbn [rbind fst snd].
  - now rewrite (overlay_raises now hh mm (Hbad hh mm eq_refl)).
  - now rewrite (hour_minute_raises _ _ Hhm).
Qed.

(** In-range hour and minute: the reconstructor returns a timestamp. *)
Lemma parse_z_time_returns now timestr (hh mm : Z) :
  DT.valid now = true -> 1 < ordinal now ->
  (String.length (Py.rstrip_char "Z" timestr) = 3
   \/ String.length (Py.rstrip_char "Z" timestr) = 4)%nat ->
  hour_minute (Py.rstrip_char "Z" timestr) = Ok (hh, mm) ->
  0 <= hh <= 23 -> 0 <= mm <= 59 ->
  exists r, parse_z_time now timestr = Ok r.
Proof.
  intros Hv Hord Hlen Hhm Hh Hm.
  rewrite (parse_z_time_eq now timestr hh mm Hv Hlen Hhm Hh Hm).
  destruct (720 <? minutes_ahead now hh mm); [|eauto].
  destruct (minus_one_day_spec (at_time now hh mm)
              (at_time_valid now hh mm Hv Hh Hm) Hord) as (r & Er & _).
  eauto.
Qed.

End ParseZTimeTotality.

Section DigitFacts.

Lemma is_digit_cases (c : ascii) :
  Py.is_digit c = true ->
  c ∈ ["0"; "1"; "2"; "3"; "4"; "5"; "6"; "7"; "8"; "9"]%char.
Proof.
  destruct c as [[] [] [] [] [] [] [] []]; intros H;
    first [ discriminate H
          | repeat first [ apply list_elem_of_here
                         | apply list_elem_of_further ] ].
Qed.

Ltac digit_cases H :=
  apply is_digit_cases in H;
  repeat (apply elem_of_cons in H as [-> | H]);
  try (apply elem_of_nil in H; contradiction).

Lemma digit_val_range (c : ascii) :
  Py.is_digit c = true -> 0 <= Py.digit_val c <= 9.
Proof. intros H. digit_cases H; vm_compute; split; discriminate. Qed.

Lemma int_of_slice_digit (c : ascii) :
  Py.is_digit c = true ->
  int_of_slice (String c "") = Ok (Py.digit_val c).
Proof. intros H. digit_cases H; reflexivity. Qed.

Lemma int_of_slice_digits (c1 c2 : ascii) :
  Py.is_digit c1 = true -> Py.is_digit c2 = true ->
  int_of_slice (String c1 (String c2 ""))
  = Ok (Py.digit_val c1 * 10 + Py.digit_val c2).
Proof. intros H1 H2. digit_cases H1; digit_cases H2; reflexivity. Qed.

Lemma digit_not_Z (c : ascii) :
  Py.is_digit c = true -> Ascii.eqb "Z" c = false.
Proof. intros H. digit_cases H; reflexivity. Qed.

(** The literals the relay grammar lets through: three or four digits and
    a "Z". *)
Lemma hour_minute_digits4 (c1 c2 c3 c4 : ascii) :
  Py.is_digit c1 = true -> Py.is_digit c2 = true ->
  Py.is_digit c3 = true -> Py.is_digit c4 = true ->
  let lit := String c1 (String c2 (String c3 (String c4 "Z"))) in
  String.length (Py.rstrip_char "Z" lit) = 4%nat
  /\ hour_minute (Py.rstrip_char "Z" lit)
     = Ok (Py.digit_val c1 * 10 + Py.digit_val c2,
           Py.digit_val c3 * 10 + Py.digit_val c4).
Proof.
  intros H1 H2 H3 H4 lit.
  assert (E : Py.rstrip_char "Z" lit
              = String c1 (String c2 (String c3 (String c4 "")))).
  { unfold lit, Py.rstrip_char. cbn [Py.rstrip_by].
    change (Ascii.eqb "Z" "Z") with true. cbn match.
    now rewrite (digit_not_Z c4 H4). }
  rewrite E. split; [reflexivity|].
  unfold hour_minute. cbn [String.length Nat.eqb substring].
  rewrite (int_of_slice_digits c1 c2 H1 H2). cbn [rbind].
  rewrite (int_of_slice_digits c3 c4 H3 H4). reflexivity.
Qed.

Lemma hour_minute_digits3 (c1 c2 c3 : ascii) :
  Py.is_digit c1 = true -> Py.is_digit c2 = true ->
  Py.is_digit c3 = true ->
  let lit := String c1 (String c2 (String c3 "Z")) in
  String.length (Py.rstrip_char "Z" lit) = 3%nat
  /\ hour_minute (Py.rstrip_char "Z" lit)
     = Ok (Py.digit_val c1, Py.digit_val c2 * 10 + Py.digit_val c3).
Proof.
  intros H1 H2 H3 lit.
  assert (E : Py.rstrip_char "Z" lit = String c1 (String c2 (String c3 ""))).
  { unfold lit, Py.rstrip_char. cbn [Py.rstrip_by].
    change (Ascii.eqb "Z" "Z") with true. cbn match.
    now rewrite (digit_not_Z c3 H3). }
  rewrite E. split; [reflexivity|].
  unfold hour_minute. cbn [String.length Nat.eqb substring].
  rewrite (int_of_slice_digit c1 H1). cbn [rbind].
  rewrite (int_of_slice_digits c2 c3 H2 H3). reflexivity.
Qed.

End DigitFacts.

Section RelayLiterals.
Implicit Types (now : DT.datetime).

(** A four-digit literal is reconstructed exactly when its first two
    digits are an hour and its last two a minute. *)
Lemma parse_z_time_digits4 now (c1 c2 c3 c4 : ascii) :
  DT.valid now = true -> 1 < ordinal now ->
  Py.is_digit c1 = true -> Py.is_digit c2 = true ->
  Py.is_digit c3 = true -> Py.is_digit c4 = true ->
  let hh := Py.digit_val c1 * 10 + Py.digit_val c2 in
  let mm := Py.digit_val c3 * 10 + Py.digit_val c4 in
  let lit := String c1 (String c2 (String c3 (String c4 "Z"))) in
  (hh <= 23 /\ mm <= 59 -> exists r, parse_z_time now lit = Ok r)
  /\ (~ (hh <= 23 /\ mm <= 59) -> parse_z_time now lit = Raise ValueError).
Proof.
  intros Hv Hord H1 H2 H3 H4 hh mm lit.
  destruct (hour_minute_digits4 c1 c2 c3 c4 H1 H2 H3 H4) as [Hl Hhm].
  fold lit in Hl, Hhm. fold hh mm in Hhm.
  pose proof (digit_val_range c1 H1). pose proof (digit_val_range c2 H2).
  pose proof (digit_val_range c3 H3). pose proof (digit_val_range c4 H4).
  split.
  - intros [Hh Hm].
    apply (parse_z_time_returns now lit hh mm); auto; subst hh mm; lia.
  - intros Hbad. apply parse_z_time_out_of_range; [now right|].
    intros hh' mm' E. rewrite Hhm in E. injection E as <- <-. lia.
Qed.

(** A three-digit literal is one digit of hour and two of minute. *)
Lemma parse_z_time_digits3 now (c1 c2 c3 : ascii) :
  DT.valid now = true -> 1 < ordinal now ->
  Py.is_digit c1 = true -> Py.is_digit c2 = true ->
  Py.is_digit c3 = true ->
  let mm := Py.digit_val c2 * 10 + Py.digit_val c3 in
  let lit := String c1 (String c2 (String c3 "Z")) in
  (mm <= 59 -> exists r, parse_z_time now lit = Ok r)
  /\ (~ mm <= 59 -> parse_z_time now lit = Raise ValueError).
Proof.
  intros Hv Hord H1 H2 H3 mm lit.
  destruct (hour_minute_digits3 c1 c2 c3 H1 H2 H3) as [Hl Hhm].
  fold lit in Hl, Hhm. fold mm in Hhm.
  pose proof (digit_val_range c1 H1). pose proof (digit_val_range c2 H2).
  pose proof (digit_val_range c3 H3).
  split.
  - intros Hm.
    apply (parse_z_time_returns now lit (Py.digit_val c1) mm); auto;
      subst mm; lia.
  - intros Hbad. apply parse_z_time_out_of_range; [now left|].
    intros hh' mm' E. rewrite Hhm in E. injection E as <- <-. lia.
Qed.

End RelayLiterals.

(** C4, the failing case.  The literal "9999Z" passes the relay grammar's
    [[0-9]{3,4}Z] and makes the reconstructor raise. *)
Lemma parse_z_time_raises_9999Z :
  DT.valid sample_now = true
  /\ String.length (Py.rstrip_char "Z" "9999Z") = 4%nat
  /\ parse_z_time sample_now "9999Z" = Raise ValueError
  /\ ~ (exists r, parse_z_time sample_now "9999Z" = Ok r).
Proof.
  repeat split; try reflexivity.
  intros [r H]. vm_compute in H. discriminate.
Qed.

(** C4, amended.  A literal that is not 3 or 4 characters long once its
    trailing "Z"s are stripped gives back the clock reading unchanged.  A
    literal of 3 or 4 characters reading as an hour of at most 23 and a
    minute of at most 59 gives a timestamp.  Any other literal of 3 or 4
    characters raises [ValueError]; among the literals of the relay
    grammar (three or four digits and a "Z") those are exactly the ones
    whose hour exceeds 23 or whose minute exceeds 59. *)
Theorem parse_z_time_fallback :
  (forall (now : DT.datetime) (timestr : string),
     String.length (Py.rstrip_char "Z" timestr) <> 3%nat ->
     String.length (Py.rstrip_char "Z" timestr) <> 4%nat ->
     parse_z_time now timestr = Ok now)
  /\ (forall (now : DT.datetime) (timestr : string) (hh mm : Z),
        DT.valid now = true -> 1 < ordinal now ->
        (String.length (Py.rstrip_char "Z" timestr) = 3
         \/ String.length (Py.rstrip_char "Z" timestr) = 4)%nat ->
        hour_minute (Py.rstrip_char "Z" timestr) = Ok (hh, mm) ->
        0 <= hh <= 23 -> 0 <= mm <= 59 ->
        exists r, parse_z_time now timestr = Ok r)
  /\ (forall (now : DT.datetime) (timestr : string),
        (String.length (Py.rstrip_char "Z" timestr) = 3
         \/ String.length (Py.rstrip_char "Z" timestr) = 4)%nat ->
        (forall hh mm,
           hour_minute (Py.rstrip_char "Z" timestr) = Ok (hh, mm) ->
           ~ (0 <= hh <= 23 /\ 0 <= mm <= 59)) ->
        parse_z_time now timestr = Raise ValueError)
  /\ (forall (now : DT.datetime) (c1 c2 c3 c4 : ascii),
        DT.valid now = true -> 1 < ordinal now ->
        Py.is_digit c1 = true -> Py.is_digit c2 = true ->
        Py.is_digit c3 = true -> Py.is_digit c4 = true ->
        let hh := Py.digit_val c1 * 10 + Py.digit_val c2 in
        let mm := Py.digit_val c3 * 10 + Py.digit_val c4 in
        let lit := String c1 (String c2 (String c3 (String c4 "Z"))) in
        (hh <= 23 /\ mm <= 59 -> exists r, parse_z_time now lit = Ok r)
        /\ (~ (hh <= 23 /\ mm <= 59) ->
            parse_z_time now lit = Raise ValueError))
  /\ (forall (now : DT.datetime) (c1 c2 c3 : ascii),
        DT.valid now = true -> 1 < ordinal now ->
        Py.is_digit c1 = true -> Py.is_digit c2 = true ->
        Py.is_digit c3 = true ->
        let mm := Py.digit_val c2 * 10 + Py.digit_val c3 in
        let lit := String c1 (String c2 (String c3 "Z")) in
        (mm <= 59 -> exists r, parse_z_time now lit = Ok r)
        /\ (~ mm <= 59 -> parse_z_time now lit = Raise ValueError)).
Proof.
  split; [exact parse_z_time_other_length |].
  split; [exact parse_z_time_returns |].
  split; [exact parse_z_time_out_of_range |].
  split; [exact parse_z_time_digits4 | exact parse_z_time_digits3].
Qed.

(** A five-digit literal falls back to the clock reading. *)
Lemma parse_z_time_fallback_witness :
  parse_z_time sample_now "12345Z" = Ok sample_now.
Proof.
  apply (proj1 parse_z_time_fallback sample_now "12345Z").
  - vm_compute. discriminate.
  - vm_compute. discriminate.
Defined.

(** ** Sending while disconnected *)

(** C9. With no live session ([connected] false or no connection object),
    sending a spot returns [False], the [sndspot] route and the raw command
    route answer with an error status, and none of them writes anything or
    changes the client. *)
Theorem writes_fail_when_disconnected (c : Client.t) :
  Client.no_session c = true ->
  (forall frequency_ callsign remarks,
     Client.send_spot frequency_ callsign remarks c = (false, c))
  /\ (forall req,
        exists r, Client.sndspot req c = (r, c)
                  /\ Client.failure r = true)
  /\ (forall cmd,
        exists r, Client.send_telnet_cmd cmd c = (r, c)
                  /\ Client.failure r = true
                  /\ Client.status r = 400).
Proof.
  intros Hno.
  assert (Hs : forall f cs r, Client.send_spot f cs r c = (false, c)).
  { intros f cs r. unfold Client.send_spot. now rewrite Hno. }
  split; [exact Hs|]. split.
  - intros req. unfold Client.sndspot.
    destruct req as [| | fields | [|]];
      try (eexists; split; reflexivity);
      cbv zeta;
      repeat match goal with
             | |- context [match ?m !! ?k with Some _ => _ | None => _ end] =>
                 destruct (m !! k)
             | |- context [if ?b && _ then _ else _] => destruct b; cbn [andb]
             | |- context [if Client.truth ?v then _ else _] =>
                 destruct (Client.truth v)
             end;
      rewrite ?Hs; eexists; split; reflexivity.
  - intros cmd. unfold Client.send_telnet_cmd.
    destruct (String.eqb (Py.strip cmd) "").
    + eexists. repeat split; reflexivity.
    + rewrite Hno. eexists. repeat split; reflexivity.
Qed.

(** A client whose connection was closed after its session ended. *)
Lemma writes_fail_when_disconnected_witness :
  let c := {| Client.connected := false;
              Client.tn := Some {| Client.written := ["sh/dx/100"];
                                   Client.broken := true |} |} in
  Client.send_spot "14074" "DL1XYZ" "CQ" c = (false, c).
Proof.
  intros c.
  apply (proj1 (writes_fail_when_disconnected c eq_refl)).
Defined.

(** ** The enrichment cache *)

Section LookupFacts.
Implicit Types (c : config) (now : Q) (resp : Dxcc.response)
  (st : Dxcc.state).

Lemma fresh_lt now (entry : dxcc * Q) :
  Dxcc.fresh now entry = true <-> (now - snd entry < 3600 # 1)%Q.
Proof. unfold Dxcc.fresh, Dxcc.dxcc_cache_ttl. apply Qltb_lt. Qed.

(** A fresh entry is returned as it is; nothing else happens. *)
Lemma lookup_hit c now resp (call_ : string) st (v : dxcc) (t : Q) :
  Dxcc.dxcc_cache st !! call_ = Some (v, t) ->
  (now - t < 3600 # 1)%Q ->
  Dxcc.dxcc_lookup c now resp call_ st = (Some v, st).
Proof.
  intros Hc Hf. unfold Dxcc.dxcc_lookup. rewrite Hc.
  now rewrite (proj2 (fresh_lt now (v, t)) Hf).
Qed.

(** Without a fresh entry exactly one request goes out, whatever the
    service answers. *)
Lemma lookup_miss c now resp (call_ : string) st :
  cache_miss now call_ st ->
  Dxcc.outbound (snd (Dxcc.dxcc_lookup c now resp call_ st))
  = {| Dxcc.req_url := dxcc_lookup_url c;
       Dxcc.req_key := dxcc_lookup_key c;
       Dxcc.req_callsign := call_ |} :: Dxcc.outbound st.
Proof.
  intros Hmiss. unfold Dxcc.dxcc_lookup.
  destruct (Dxcc.dxcc_cache st !! call_) as [entry|] eqn:Hc.
  - rewrite (Hmiss entry Hc). destruct resp; reflexivity.
  - destruct resp; reflexivity.
Qed.

(** An answered request stores the normalised record under the call sign,
    stamped with the time of the lookup. *)
Lemma lookup_miss_answer c now (data : Dxcc.payload) (call_ : string) st :
  cache_miss now call_ st ->
  exists st',
    Dxcc.dxcc_lookup c now (Dxcc.Answer data) call_ st
    = (Some (Dxcc.normalize data), st')
    /\ Dxcc.dxcc_cache st' !! call_ = Some (Dxcc.normalize data, now)
    /\ Dxcc.calls_between st st' = 1.
Proof.
  intros Hmiss. unfold Dxcc.dxcc_lookup.
  assert (E : match Dxcc.dxcc_cache st !! call_ with
              | Some entry =>
                  if Dxcc.fresh now entry then Some (fst entry) else None
              | None => None
              end = None).
  { destruct (Dxcc.dxcc_cache st !! call_) as [entry|] eqn:Hc;
      [now rewrite (Hmiss entry Hc) | reflexivity]. }
  rewrite E. eexists. split; [reflexivity|]. split.
  - cbn. apply lookup_insert_eq.
  - unfold Dxcc.calls_between. cbn [Dxcc.outbound length]. lia.
Qed.

Lemma calls_between_trans st1 st2 st3 :
  Dxcc.calls_between st1 st3
  = Dxcc.calls_between st1 st2 + Dxcc.calls_between st2 st3.
Proof. unfold Dxcc.calls_between. lia. Qed.

Lemma calls_between_refl st : Dxcc.calls_between st st = 0.
Proof. unfold Dxcc.calls_between. lia. Qed.

Lemma calls_between_miss c now resp (call_ : string) st :
  cache_miss now call_ st ->
  Dxcc.calls_between st (snd (Dxcc.dxcc_lookup c now resp call_ st)) = 1.
Proof.
  intros Hmiss. unfold Dxcc.calls_between.
  rewrite (lookup_miss c now resp call_ st Hmiss). cbn [length]. lia.
Qed.

End LookupFacts.

(** C5, the failing case.  When the service does not answer, nothing is
    stored, and the second of two lookups one second apart sends a second
    request; and when a fresh entry is already there, neither lookup sends
    one. *)
Lemma dxcc_lookup_not_exactly_one_call :
  (let st1 := snd (Dxcc.dxcc_lookup DEFAULT_CONFIG 0 Dxcc.Failed "DL1XYZ" cold) in
   let st2 := snd (Dxcc.dxcc_lookup DEFAULT_CONFIG 1 Dxcc.Failed "DL1XYZ" st1) in
   (1 - 0 < 3600 # 1)%Q /\ Dxcc.calls_between cold st2 = 2)
  /\ (let st0 := snd (Dxcc.dxcc_lookup DEFAULT_CONFIG 0
                        (Dxcc.Answer sample_payload) "DL1XYZ" cold) in
      let st1 := snd (Dxcc.dxcc_lookup DEFAULT_CONFIG 10
                        (Dxcc.Answer sample_payload) "DL1XYZ" st0) in
      let st2 := snd (Dxcc.dxcc_lookup DEFAULT_CONFIG 11
                        (Dxcc.Answer sample_payload) "DL1XYZ" st1) in
      (11 - 10 < 3600 # 1)%Q /\ Dxcc.calls_between st0 st2 = 0).
Proof. split; split; vm_compute; reflexivity. Qed.

(** C5, amended.  A lookup that finds an entry younger than one hour
    returns it and sends nothing.  Two lookups for one call sign less than
    one hour apart, the first of which finds no such entry and is answered,
    send exactly one request between them, and the second returns what the
    first stored.  A lookup one hour or more after that entry was stored
    sends a new request. *)
Theorem dxcc_lookup_ttl :
  (forall (c : config) (now : Q) (resp : Dxcc.response) (call_ : string)
          (st : Dxcc.state) (v : dxcc) (t : Q),
     Dxcc.dxcc_cache st !! call_ = Some (v, t) ->
     (now - t < 3600 # 1)%Q ->
     Dxcc.dxcc_lookup c now resp call_ st = (Some v, st)
     /\ Dxcc.calls_between st
          (snd (Dxcc.dxcc_lookup c now resp call_ st)) = 0)
  /\ (forall (c : config) (t1 t2 : Q) (data : Dxcc.payload)
             (resp2 : Dxcc.response) (call_ : string) (st : Dxcc.state),
        cache_miss t1 call_ st ->
        (t2 - t1 < 3600 # 1)%Q ->
        let r1 := Dxcc.dxcc_lookup c t1 (Dxcc.Answer data) call_ st in
        let r2 := Dxcc.dxcc_lookup c t2 resp2 call_ (snd r1) in
        fst r1 = Some (Dxcc.normalize data)
        /\ fst r2 = fst r1
        /\ Dxcc.calls_between st (snd r1) = 1
        /\ Dxcc.calls_between (snd r1) (snd r2) = 0
        /\ Dxcc.calls_between st (snd r2) = 1)
  /\ (forall (c : config) (t1 t3 : Q) (data : Dxcc.payload)
             (resp3 : Dxcc.response) (call_ : string) (st : Dxcc.state),
        cache_miss t1 call_ st ->
        (3600 # 1 <= t3 - t1)%Q ->
        let r1 := Dxcc.dxcc_lookup c t1 (Dxcc.Answer data) call_ st in
        let r3 := Dxcc.dxcc_lookup c t3 resp3 call_ (snd r1) in
        Dxcc.calls_between (snd r1) (snd r3) = 1
        /\ Dxcc.req_callsign <$> head (Dxcc.outbound (snd r3)) = Some call_).
Proof.
  split; [| split].
  - intros c now resp call_ st v t Hc Hf.
    rewrite (lookup_hit c now resp call_ st v t Hc Hf).
    split; [reflexivity | apply calls_between_refl].
  - intros c t1 t2 data resp2 call_ st Hmiss Hin r1 r2.
    destruct (lookup_miss_answer c t1 data call_ st Hmiss)
      as (st1 & E1 & Hc1 & Hn1).
    subst r2. subst r1. rewrite E1. cbn [fst snd].
    rewrite (lookup_hit c t2 resp2 call_ st1 _ t1 Hc1 Hin). cbn [fst snd].
    split; [reflexivity|]. split; [reflexivity|]. split; [exact Hn1|].
    split; [apply calls_between_refl | exact Hn1].
  - intros c t1 t3 data resp3 call_ st Hmiss Hout r1 r3.
    destruct (lookup_miss_answer c t1 data call_ st Hmiss)
      as (st1 & E1 & Hc1 & Hn1).
    subst r3. subst r1. rewrite E1. cbn [fst snd].
    assert (Hstale : cache_miss t3 call_ st1).
    { intros entry He. rewrite Hc1 in He. injection He as <-.
      apply not_true_is_false. rewrite fresh_lt. cbn [snd].
      apply Qle_not_lt. exact Hout. }
    split; [now apply calls_between_miss|].
    now rewrite (lookup_miss c t3 resp3 call_ st1 Hstale).
Qed.

(** Two lookups for DL1XYZ ten seconds apart on a cold cache. *)
Lemma dxcc_lookup_ttl_witness :
  let r1 := Dxcc.dxcc_lookup DEFAULT_CONFIG 0 (Dxcc.Answer sample_payload)
              "DL1XYZ" cold in
  let r2 := Dxcc.dxcc_lookup DEFAULT_CONFIG 10 Dxcc.Failed "DL1XYZ" (snd r1) in
  fst r1 = Some (Dxcc.normalize sample_payload)
  /\ fst r2 = fst r1
  /\ Dxcc.calls_between cold (snd r1) = 1
  /\ Dxcc.calls_between (snd r1) (snd r2) = 0
  /\ Dxcc.calls_between cold (snd r2) = 1.
Proof.
  apply (proj1 (proj2 dxcc_lookup_ttl) DEFAULT_CONFIG 0%Q 10%Q).
  - intros entry He. unfold cold in He. cbn in He.
    rewrite lookup_empty in He. discriminate.
  - reflexivity.
Defined.

(** ** The line parser *)

Section StringFacts.

Lemma starts_with_spec (p s : string) :
  Py.starts_with p s = true <-> exists r, s = p +:+ r.
Proof.
  revert s. induction p as [|a p IH]; intros s; simpl.
  - split; [intros _; now exists s | reflexivity].
  - destruct s as [|b s].
    + split; [discriminate | intros [r H]; discriminate].
    + rewrite andb_true_iff, IH. split.
      * intros [Hab [r ->]]. apply Ascii.eqb_eq in Hab as ->. now exists r.
      * intros [r [= -> ->]]. split; [apply Ascii.eqb_refl | now exists r].
Qed.

Lemma contains_spec (sub s : string) :
  Py.contains sub s = true <-> exists l r, s = l +:+ sub +:+ r.
Proof.
  induction s as [|c s IH].
  - simpl. rewrite orb_false_r, starts_with_spec. split.
    + intros [r ->]. now exists "", r.
    + intros (l & r & H). destruct l; [now exists r | discriminate].
  - cbn [Py.contains]. rewrite orb_true_iff, starts_with_spec, IH. split.
    + intros [[r ->] | (l & r & ->)].
      * now exists "", r.
      * now exists (String c l), r.
    + intros (l & r & H). destruct l as [|c' l].
      * left. now exists r.
      * right. injection H as -> ->. now exists l, r.
Qed.

Lemma lower_app (a b : string) :
  Py.lower (a +:+ b) = Py.lower a +:+ Py.lower b.
Proof. induction a as [|c a IH]; simpl; [reflexivity | now rewrite IH]. Qed.

Lemma lower_split (s a b : string) :
  Py.lower s = a +:+ b ->
  exists a' b', s = a' +:+ b' /\ Py.lower a' = a /\ Py.lower b' = b.
Proof.
  revert s. induction a as [|c a IH]; intros s H.
  - exists "", s. auto.
  - destruct s as [|c' s]; [discriminate|]. simpl in H.
    injection H as Hc Hs. destruct (IH s Hs) as (a' & b' & -> & Ha & Hb).
    exists (String c' a'), b'. simpl. now rewrite Ha, Hc.
Qed.

(** [sub in msg.lower()] is a case-insensitive substring test. *)
Lemma contains_lower (sub msg : string) :
  Py.contains sub (Py.lower msg) = true <-> icontains sub msg.
Proof.
  rewrite contains_spec. unfold icontains. split.
  - intros (l & r & H).
    destruct (lower_split _ _ _ H) as (l' & rest & -> & Hl & Hrest).
    destruct (lower_split _ _ _ Hrest) as (w & r' & -> & Hw & Hr).
    now exists l', w, r'.
  - intros (l & w & r & -> & Hw).
    exists (Py.lower l), (Py.lower r). now rewrite !lower_app, Hw.
Qed.

End StringFacts.

Section ParserFacts.
Implicit Types (now : DT.datetime) (m : groups) (s : spot).

Lemma detect_source_spec (msg : string) :
  (icontains "pota" msg -> detect_source_from_message msg = "pota")
  /\ (~ icontains "pota" msg -> icontains "cq" msg ->
      detect_source_from_message msg = "cq")
  /\ (~ icontains "pota" msg -> ~ icontains "cq" msg ->
      detect_source_from_message msg = "cluster").
Proof.
  unfold detect_source_from_message.
  pose proof (contains_lower "pota" msg) as Hp.
  pose proof (contains_lower "cq" msg) as Hc.
  destruct (Py.contains "pota" (Py.lower msg)),
    (Py.contains "cq" (Py.lower msg));
    repeat split; intros; try reflexivity;
    solve [ exfalso; intuition congruence ].
Qed.

Lemma relay_spot_ok now m (sp fq sd rest time : string)
    (w : DT.datetime) (f : pyfloat) (khz : Z) :
  group "spotter" m = Some sp -> group "freq" m = Some fq ->
  group "spotted" m = Some sd -> group "rest" m = Some rest ->
  group "time" m = Some time ->
  parse_z_time now time = Ok w ->
  py_float (PyStr fq) = Ok f -> int_of_float f = Ok khz ->
  relay_spot now m
  = Ok {| spotter := sp; spotted := sd;
          frequency := PyStr (Py.str_of_int khz);
          message := Py.strip rest;
          when := Py.replace "+00:00" "Z" (DT.isoformat w);
          source := detect_source_from_message (Py.strip rest);
          band := qrg2band_khz (PyStr fq);
          dxcc_spotter := None; dxcc_spotted := None |}.
Proof.
  intros H1 H2 H3 H4 H5 Hw Hf Hk. unfold relay_spot.
  rewrite H1, H2, H3, H4, H5, Hw. cbn [rbind]. rewrite Hf. cbn [rbind].
  rewrite Hk. reflexivity.
Qed.

Lemma relay_spot_inv now m s :
  relay_spot now m = Ok s ->
  exists (rest fq : string) (f : pyfloat) (khz : Z),
    group "rest" m = Some rest /\ group "freq" m = Some fq
    /\ py_float (PyStr fq) = Ok f /\ int_of_float f = Ok khz
    /\ frequency s = PyStr (Py.str_of_int khz)
    /\ message s = Py.strip rest
    /\ source s = detect_source_from_message (message s)
    /\ band s = qrg2band_khz (PyStr fq).
Proof.
  unfold relay_spot.
  destruct (group "spotter" m) as [sp|]; [|discriminate].
  destruct (group "freq" m) as [fq|]; [|discriminate].
  destruct (group "spotted" m) as [sd|]; [|discriminate].
  destruct (group "rest" m) as [rest|]; [|discriminate].
  destruct (group "time" m) as [time|]; [|discriminate].
  destruct (parse_z_time now time) as [w|]; cbn [rbind]; [|discriminate].
  destruct (py_float (PyStr fq)) as [f|] eqn:Hf; cbn [rbind]; [|discriminate].
  destruct (int_of_float f) as [khz|] eqn:Hk; cbn [rbind]; [|discriminate].
  intros [= <-]. exists rest, fq, f, khz. cbn. repeat split; assumption.
Qed.

Lemma shdx_spot_ok now m (fq sd date_str timestr msg sp : string)
    (dt : DT.datetime) (f : pyfloat) (khz : Z) :
  group "freq" m = Some fq -> group "spotted" m = Some sd ->
  group "date" m = Some date_str -> group "time" m = Some timestr ->
  group "message" m = Some msg -> group "spotter" m = Some sp ->
  DT.strptime_replace date_str timestr (DT.second now) (DT.microsecond now)
  = Ok dt ->
  py_float (PyStr fq) = Ok f -> int_of_float f = Ok khz ->
  shdx_spot now m
  = Ok {| spotter := sp; spotted := sd;
          frequency := PyInt khz;
          message := match group "via" m with
                     | Some v => Py.strip msg +:+ " via " +:+ v
                     | None => Py.strip msg
                     end;
          when := Py.replace "+00:00" "Z" (DT.isoformat_ms dt);
          source := "cluster";
          band := qrg2band_khz (PyStr fq);
          dxcc_spotter := None; dxcc_spotted := None |}.
Proof.
  intros H1 H2 H3 H4 H5 H6 Hd Hf Hk. unfold shdx_spot.
  rewrite H1, H2, H3, H4, H5, H6, Hd. cbn [rbind]. rewrite Hf. cbn [rbind].
  rewrite Hk. reflexivity.
Qed.

Lemma shdx_spot_inv now m s :
  shdx_spot now m = Ok s ->
  exists (msg : string) (khz : Z),
    group "message" m = Some msg
    /\ frequency s = PyInt khz
    /\ source s = "cluster"
    /\ message s = match group "via" m with
                   | Some v => Py.strip msg +:+ " via " +:+ v
                   | None => Py.strip msg
                   end.
Proof.
  unfold shdx_spot.
  destruct (group "freq" m) as [fq|]; [|discriminate].
  destruct (group "spotted" m) as [sd|]; [|discriminate].
  destruct (group "date" m) as [date_str|]; [|discriminate].
  destruct (group "time" m) as [timestr|]; [|discriminate].
  destruct (group "message" m) as [msg|]; [|discriminate].
  destruct (group "spotter" m) as [sp|]; [|discriminate].
  destruct (DT.strptime_replace _ _ _ _) as [dt|]; cbn [rbind];
    [|discriminate].
  destruct (py_float (PyStr fq)) as [f|]; cbn [rbind]; [|discriminate].
  destruct (int_of_float f) as [khz|]; cbn [rbind]; [|discriminate].
  intros [= <-]. exists msg, khz. cbn. repeat split; reflexivity.
Qed.

Lemma parse_line_relay_inv now (text : string) s :
  parse_line now text = Ok (Relay s) ->
  exists m, search TELNET_RE text = Some m /\ relay_spot now m = Ok s.
Proof.
  unfold parse_line. destruct (search TELNET_RE text) as [m|].
  - destruct (relay_spot now m) as [s'|] eqn:E; cbn [rbind];
      [|discriminate].
    intros [= <-]. now exists m.
  - destruct (match_ SHDX_RE text) as [m2|]; [|discriminate].
    destruct (shdx_spot now m2); cbn [rbind]; discriminate.
Qed.

Lemma parse_line_listing_inv now (text : string) s :
  parse_line now text = Ok (BulkListing s) ->
  exists m2, search TELNET_RE text = None
             /\ match_ SHDX_RE text = Some m2 /\ shdx_spot now m2 = Ok s.
Proof.
  unfold parse_line. destruct (search TELNET_RE text) as [m|].
  - destruct (relay_spot now m); cbn [rbind]; discriminate.
  - destruct (match_ SHDX_RE text) as [m2|]; [|discriminate].
    destruct (shdx_spot now m2) as [s'|] eqn:E; cbn [rbind];
      [|discriminate].
    intros [= <-]. now exists m2.
Qed.

End ParserFacts.

(** C6. The sample relay line gives spotter K1ABC, spotted DL1XYZ, the
    frequency string "14074", source "cq" and band "20m".  For every line
    read with the relay grammar the frequency is the matched literal read
    as a float, rounded toward zero to an integer and written as a string,
    and the source is decided on the stripped free text: "pota" when it
    contains "pota" in any letter case, otherwise "cq" when it contains
    "cq" in any letter case, otherwise "cluster". *)
Theorem relay_line_parse :
  (forall now : DT.datetime,
     DT.valid now = true -> 1 < ordinal now ->
     exists s, parse_line now relay_line = Ok (Relay s)
       /\ spotter s = "K1ABC" /\ spotted s = "DL1XYZ"
       /\ frequency s = PyStr "14074"
       /\ message s = "FT8 CQ DX"
       /\ source s = "cq" /\ band s = "20m")
  /\ (forall (now : DT.datetime) (text : string) (s : spot),
        parse_line now text = Ok (Relay s) ->
        exists (m : groups) (rest fq : string) (f : pyfloat) (khz : Z),
          search TELNET_RE text = Some m
          /\ group "rest" m = Some rest /\ group "freq" m = Some fq
          /\ py_float (PyStr fq) = Ok f /\ int_of_float f = Ok khz
          /\ frequency s = PyStr (Py.str_of_int khz)
          /\ message s = Py.strip rest
          /\ source s = detect_source_from_message (message s))
  /\ (forall msg : string,
        (icontains "pota" msg -> detect_source_from_message msg = "pota")
        /\ (~ icontains "pota" msg -> icontains "cq" msg ->
            detect_source_from_message msg = "cq")
        /\ (~ icontains "pota" msg -> ~ icontains "cq" msg ->
            detect_source_from_message msg = "cluster")).
Proof.
  split; [| split; [| exact detect_source_spec]].
  - intros now Hv Hord.
    destruct (parse_z_time_returns now "1822Z" 18 22 Hv Hord)
      as [w Hw]; try solve [ right; reflexivity | reflexivity | lia ].
    assert (Hs : search TELNET_RE relay_line
                 = Some [("time", "1822Z"); ("rest", "FT8 CQ DX");
                         ("spotted", "DL1XYZ"); ("freq", "14074.0");
                         ("spotter", "K1ABC")])
      by (vm_compute; reflexivity).
    unfold parse_line. rewrite Hs.
    erewrite (relay_spot_ok now _ "K1ABC" "14074.0" "DL1XYZ" "FT8 CQ DX"
                "1822Z" w (round_double (decimal 140740 (-1))) 14074);
      try solve [ reflexivity | exact Hw | vm_compute; reflexivity ].
    cbn [rbind]. eexists. split; [reflexivity|].
    cbn [spotter spotted frequency message source band].
    repeat split; vm_compute; reflexivity.
  - intros now text s H.
    destruct (parse_line_relay_inv now text s H) as (m & Hm & Hr).
    destruct (relay_spot_inv now m s Hr)
      as (rest & fq & f & khz & H1 & H2 & H3 & H4 & H5 & H6 & H7 & _).
    exists m, rest, fq, f, khz. repeat split; assumption.
Qed.

(** The rounding of the frequency is [int]'s: 7074.9 kHz is stored as
    "7074". *)
Example relay_frequency_rounds_toward_zero :
  exists s,
    parse_line sample_now "DX de K1ABC: 7074.9 DL1XYZ FT8 1822Z" = Ok (Relay s)
    /\ frequency s = PyStr "7074" /\ band s = "40m".
Proof. eexists. repeat split; vm_compute; reflexivity. Qed.

(** The sample relay line read at 18:30:07 UTC on 11 November 2025. *)
Lemma relay_line_parse_witness :
  exists s, parse_line sample_now relay_line = Ok (Relay s)
    /\ spotter s = "K1ABC" /\ spotted s = "DL1XYZ"
    /\ frequency s = PyStr "14074"
    /\ message s = "FT8 CQ DX"
    /\ source s = "cq" /\ band s = "20m".
Proof.
  apply (proj1 relay_line_parse sample_now).
  - reflexivity.
  - vm_compute. reflexivity.
Defined.

(** C7. The sample listing line gives spotter K1ABC, spotted DL1XYZ, the
    message "CQ DX via W1AW" and source "cluster".  For every line read
    with the listing grammar the source is "cluster" and the message is
    the stripped message text, followed by " via " and the relay token when
    the line has one. *)
Theorem listing_line_parse :
  (forall now : DT.datetime,
     DT.valid now = true ->
     exists s, parse_line now listing_line = Ok (BulkListing s)
       /\ spotter s = "K1ABC" /\ spotted s = "DL1XYZ"
       /\ message s = "CQ DX via W1AW"
       /\ Py.ends_with "via W1AW" (message s) = true
       /\ source s = "cluster")
  /\ (forall (now : DT.datetime) (text : string) (s : spot),
        parse_line now text = Ok (BulkListing s) ->
        source s = "cluster"
        /\ exists (m2 : groups) (msg : string),
             match_ SHDX_RE text = Some m2
             /\ group "message" m2 = Some msg
             /\ (forall via, group "via" m2 = Some via ->
                   message s = Py.strip msg +:+ " via " +:+ via)
             /\ (group "via" m2 = None -> message s = Py.strip msg)).
Proof.
  split.
  - intros now Hv.
    destruct (valid_inv now Hv) as (_ & _ & _ & Hs & Hus).
    assert (Hn : search TELNET_RE listing_line = None)
      by (vm_compute; reflexivity).
    assert (Hm : match_ SHDX_RE listing_line
                 = Some [("spotter", "K1ABC"); ("message", "CQ DX");
                         ("via", "W1AW"); ("time", "1822Z");
                         ("date", "11-Nov-2025"); ("spotted", "DL1XYZ");
                         ("freq", "14074.0")])
      by (vm_compute; reflexivity).
    assert (Hd : DT.strptime_replace "11-Nov-2025" "1822Z"
                   (DT.second now) (DT.microsecond now)
                 = Ok (DT.mk 2025 11 11 18 22
                         (DT.second now) (DT.microsecond now))).
    { change (DT.strptime_replace "11-Nov-2025" "1822Z"
                (DT.second now) (DT.microsecond now))
        with (DT.make 2025 11 11 18 22 (DT.second now) (DT.microsecond now)).
      unfold DT.make. rewrite valid_intro; try lia; [reflexivity|].
      vm_compute. split; discriminate. }
    unfold parse_line. rewrite Hn, Hm.
    erewrite (shdx_spot_ok now _ "14074.0" "DL1XYZ" "11-Nov-2025" "1822Z"
                "CQ DX" "K1ABC" _ (round_double (decimal 140740 (-1))) 14074);
      try solve [ reflexivity | exact Hd | vm_compute; reflexivity ].
    cbn [rbind]. eexists. split; [reflexivity|].
    cbn [spotter spotted message source].
    repeat split; vm_compute; reflexivity.
  - intros now text s H.
    destruct (parse_line_listing_inv now text s H) as (m2 & _ & Hm & Hs).
    destruct (shdx_spot_inv now m2 s Hs) as (msg & khz & H1 & _ & H3 & H4).
    split; [exact H3|]. exists m2, msg.
    split; [exact Hm|]. split; [exact H1|]. split.
    + intros via Hvia. now rewrite Hvia in H4.
    + intros Hvia. now rewrite Hvia in H4.
Qed.

(** The sample listing line read at 18:30:07 UTC on 11 November 2025. *)
Lemma listing_line_parse_witness :
  exists s, parse_line sample_now listing_line = Ok (BulkListing s)
    /\ spotter s = "K1ABC" /\ spotted s = "DL1XYZ"
    /\ message s = "CQ DX via W1AW"
    /\ Py.ends_with "via W1AW" (message s) = true
    /\ source s = "cluster".
Proof.
  apply (proj1 listing_line_parse sample_now). reflexivity.
Defined.

(** ** The frequency query and the stored timestamp *)

Section FreshestFacts.
Implicit Types (q : string) (l : list spot) (s : spot)
  (acc : option (DT.datetime * spot)).

(** What [api_spot]'s loop computes on the records whose frequency is the
    string [q], provided their timestamps parse: a record of [acc] or of
    the list that no matching record is younger than. *)
Lemma api_spot_loop_freshest q l : forall acc,
  (forall s, s ∈ l -> py_eq (frequency s) (PyStr q) = true ->
             exists t, when_of s = Ok t) ->
  exists r, api_spot_loop q l acc = Ok r
    /\ match r with
       | None =>
           acc = None
           /\ forall s, s ∈ l -> py_eq (frequency s) (PyStr q) = false
       | Some (t, s) =>
           (acc = Some (t, s)
            \/ (s ∈ l /\ py_eq (frequency s) (PyStr q) = true
                /\ when_of s = Ok t))
           /\ (forall t0 s0, acc = Some (t0, s0) -> DT.to_us t0 <= DT.to_us t)
           /\ (forall s' t', s' ∈ l ->
                 py_eq (frequency s') (PyStr q) = true ->
                 when_of s' = Ok t' -> DT.to_us t' <= DT.to_us t)
       end.
Proof.
  induction l as [|s l IH]; intros acc Hparse.
  - exists acc. split; [reflexivity|]. destruct acc as [[t s]|].
    + split; [now left|]. split.
      * intros t0 s0 [= <- <-]. lia.
      * intros s' t' Hin. now apply elem_of_nil in Hin.
    + split; [reflexivity|]. intros s Hin. now apply elem_of_nil in Hin.
  - assert (Hparse' : forall s', s' ∈ l ->
              py_eq (frequency s') (PyStr q) = true ->
              exists t, when_of s' = Ok t).
    { intros s' Hin. apply Hparse. now apply list_elem_of_further. }
    cbn [api_spot_loop].
    destruct (py_eq (frequency s) (PyStr q)) eqn:Hm.
    + destruct (Hparse s (list_elem_of_here _ _) Hm) as [t Ht].
      rewrite Ht. cbn [rbind].
      assert (Hnew : forall acc',
        (acc' = Some (t, s)
         \/ (exists t0 s0, acc = Some (t0, s0) /\ acc' = acc
                           /\ DT.to_us t <= DT.to_us t0)) ->
        (forall t0 s0, acc = Some (t0, s0) ->
           forall t1 s1, acc' = Some (t1, s1) ->
             DT.to_us t0 <= DT.to_us t1) ->
        exists r, api_spot_loop q l acc' = Ok r
          /\ match r with
             | None =>
                 acc = None
                 /\ forall s', s' ∈ s :: l ->
                      py_eq (frequency s') (PyStr q) = false
             | Some (t1, s1) =>
                 (acc = Some (t1, s1)
                  \/ (s1 ∈ s :: l /\ py_eq (frequency s1) (PyStr q) = true
                      /\ when_of s1 = Ok t1))
                 /\ (forall t0 s0, acc = Some (t0, s0) ->
                       DT.to_us t0 <= DT.to_us t1)
                 /\ (forall s' t', s' ∈ s :: l ->
                       py_eq (frequency s') (PyStr q) = true ->
                       when_of s' = Ok t' -> DT.to_us t' <= DT.to_us t1)
             end).
      { intros acc' Hacc' Hmono.
        destruct (IH acc' Hparse') as (r & Er & Hr).
        exists r. split; [exact Er|].
        destruct r as [[t1 s1]|].
        - destruct Hr as (Horigin & Hge & Hmax).
          assert (Ht1 : DT.to_us t <= DT.to_us t1).
          { destruct Hacc' as [-> | (t0 & s0 & Ha & -> & Hle)].
            - exact (Hge t s eq_refl).
            - pose proof (Hge t0 s0 Ha). lia. }
          split; [| split].
          + destruct Horigin as [E | (Hin & Hm1 & Hw1)].
            * destruct Hacc' as [-> | (t0 & s0 & Ha & -> & _)].
              -- injection E as <- <-. right.
                 split; [apply list_elem_of_here | now split].
              -- now left.
            * right. split; [now apply list_elem_of_further | now split].
          + intros t0 s0 Ha.
            destruct Hacc' as [-> | (t0' & s0' & Ha' & -> & Hle)].
            * pose proof (Hmono t0 s0 Ha t s eq_refl).
              pose proof (Hge t s eq_refl). lia.
            * exact (Hge t0 s0 Ha).
          + intros s' t' Hin Hm' Hw'.
            apply elem_of_cons in Hin as [-> | Hin].
            * rewrite Ht in Hw'. injection Hw' as <-. exact Ht1.
            * exact (Hmax s' t' Hin Hm' Hw').
        - destruct Hr as [-> _].
          destruct Hacc' as [E | (t0 & s0 & Ha & E & _)];
            [discriminate | congruence]. }
      destruct acc as [[youngest chosen]|].
      * unfold DT.gtb.
        destruct (Z.ltb_spec (DT.to_us youngest) (DT.to_us t)) as [Hlt | Hge].
        -- apply Hnew; [now left|].
           intros t0 s0 [= <- <-] t1 s1 [= <- <-]. lia.
        -- apply Hnew.
           ++ right. exists youngest, chosen. repeat split. exact Hge.
           ++ intros t0 s0 [= <- <-] t1 s1 [= <- <-]. lia.
      * apply Hnew; [now left|]. intros t0 s0 [=].
    + destruct (IH acc Hparse') as (r & Er & Hr).
      exists r. split; [exact Er|].
      destruct r as [[t1 s1]|].
      * destruct Hr as (Horigin & Hge & Hmax). split; [| split].
        -- destruct Horigin as [E | (Hin & Hm1 & Hw1)]; [now left|].
           right. split; [now apply list_elem_of_further | now split].
        -- exact Hge.
        -- intros s' t' Hin Hm' Hw'.
           apply elem_of_cons in Hin as [-> | Hin]; [congruence|].
           exact (Hmax s' t' Hin Hm' Hw').
      * destruct Hr as [Hacc Hnone]. split; [exact Hacc|].
        intros s' Hin. apply elem_of_cons in Hin as [-> | Hin];
          [exact Hm | now apply Hnone].
Qed.

(** The frequency query returns a record whose frequency is the query
    written as a string and that no such record is younger than, or the
    empty object when there is no such record. *)
Lemma api_spot_freshest (qrg_khz : Z) (d : Deque.t spot) :
  (forall s, s ∈ Deque.items d ->
     py_eq (frequency s) (PyStr (Py.str_of_int qrg_khz)) = true ->
     exists t, when_of s = Ok t) ->
  exists r, api_spot qrg_khz d = Ok r
    /\ match r with
       | None =>
           forall s, s ∈ Deque.items d ->
             py_eq (frequency s) (PyStr (Py.str_of_int qrg_khz)) = false
       | Some s =>
           s ∈ Deque.items d
           /\ frequency s = PyStr (Py.str_of_int qrg_khz)
           /\ exists t, when_of s = Ok t
                /\ forall s' t', s' ∈ Deque.items d ->
                     frequency s' = PyStr (Py.str_of_int qrg_khz) ->
                     when_of s' = Ok t' -> DT.to_us t' <= DT.to_us t
       end.
Proof.
  intros Hparse. unfold api_spot.
  destruct (api_spot_loop_freshest _ _ None Hparse) as (r & Er & Hr).
  rewrite Er. cbn [rbind]. eexists. split; [reflexivity|].
  destruct r as [[t s]|]; cbn [option_map snd].
  - destruct Hr as ([E | (Hin & Hm & Hw)] & _ & Hmax); [discriminate|].
    split; [exact Hin|]. split.
    + destruct (frequency s) as [| z | f | x]; try discriminate.
      * destruct f; discriminate.
      * cbn in Hm. apply String.eqb_eq in Hm. now subst.
    + exists t. split; [exact Hw|].
      intros s' t' Hin' Hf' Hw'. apply (Hmax s' t' Hin'); [|exact Hw'].
      rewrite Hf'. cbn. apply String.eqb_refl.
  - apply Hr.
Qed.

End FreshestFacts.


Section ApiFacts.

(** A record read with the listing grammar never equals a query string:
    its frequency is an [int]. *)
Lemma listing_frequency_is_int (now : DT.datetime) (text q : string)
    (s : spot) :
  parse_line now text = Ok (BulkListing s) ->
  py_eq (frequency s) (PyStr q) = false.
Proof.
  intros H. destruct (parse_line_listing_inv now text s H) as (m2 & _ & _ & Hs).
  destruct (shdx_spot_inv now m2 s Hs) as (msg & khz & _ & -> & _).
  reflexivity.
Qed.

Lemma api_spot_loop_skips (q : string) (l : list spot)
    (acc : option (DT.datetime * spot)) :
  (forall s, s ∈ l -> py_eq (frequency s) (PyStr q) = false) ->
  api_spot_loop q l acc = Ok acc.
Proof.
  revert acc. induction l as [|s l IH]; intros acc H; [reflexivity|].
  cbn [api_spot_loop]. rewrite (H s) by apply list_elem_of_here.
  apply IH. intros s' Hs'. apply H. now apply list_elem_of_further.
Qed.

End ApiFacts.

(** C2, at the failing input.  After the sample listing line the cache
    holds one record for 14074 kHz, and the query for 14074 answers with
    the empty object.  After the sample relay line (stamped 18:22) and a
    later listing line (stamped 18:25) for the same frequency, the query
    answers with the relay record, not with the freshest one. *)
Theorem api_spot_skips_listing_records :
  (let st := handle_line sample_now listing_line (sample_store 500) in
   (exists s, Deque.items (spots st) = [s]
              /\ frequency s = PyInt 14074 /\ band s = "20m"
              /\ when s = "2025-11-11T18:22:07.123Z")
   /\ api_spot 14074 (spots st) = Ok None)
  /\ (let st := handle_line sample_now later_listing_line
                  (handle_line sample_now relay_line (sample_store 500)) in
      exists older newer,
        Deque.items (spots st) = [older; newer]
        /\ frequency older = PyStr "14074"
        /\ frequency newer = PyInt 14074
        /\ when older = "2025-11-11T18:22:07.123456Z"
        /\ when newer = "2025-11-11T18:25:07.123Z"
        /\ api_spot 14074 (spots st) = Ok (Some older)).
Proof.
  split.
  - split.
    + eexists. repeat split; vm_compute; reflexivity.
    + vm_compute. reflexivity.
  - do 2 eexists. repeat split; vm_compute; reflexivity.
Qed.

(** C10, at the failing input.  The record made from the sample relay line
    carries its timestamp with six digits after the point, or with none
    when the clock's microsecond is zero; the record made from the sample
    listing line carries three.  The frequency query hands the relay
    record out as stored. *)
Theorem relay_when_not_milliseconds :
  (exists s, parse_line sample_now relay_line = Ok (Relay s)
     /\ when s = "2025-11-11T18:22:07.123456Z"
     /\ millisecond_text (when s) = false
     /\ api_spot 14074
          (spots (handle_line sample_now relay_line (sample_store 500)))
        = Ok (Some s))
  /\ (exists s, parse_line (DT.mk 2025 11 11 18 30 7 0) relay_line
                = Ok (Relay s)
        /\ when s = "2025-11-11T18:22:07Z"
        /\ millisecond_text (when s) = false)
  /\ (exists s, parse_line sample_now listing_line = Ok (BulkListing s)
        /\ when s = "2025-11-11T18:22:07.123Z"
        /\ millisecond_text (when s) = true).
Proof.
  split; [| split]; eexists; repeat split; vm_compute; reflexivity.
Qed.

(** * Properties of the further parts *)

(** ** Config and persistence *)

Section ConfigFacts.
Implicit Types (entries : gmap string jval) (file : config_file).

Lemma setdefault_union (k : string) (v : jval) entries (m : gmap string jval) :
  setdefault k v entries ∪ m = entries ∪ <[k := v]> m.
Proof.
  apply map_eq. intros i. unfold setdefault.
  rewrite !lookup_union.
  destruct (entries !! k) as [w|] eqn:Hk.
  - destruct (decide (k = i)) as [<- | Hne].
    + rewrite Hk, lookup_insert_eq. now destruct (m !! k).
    + now rewrite lookup_insert_ne.
  - destruct (decide (k = i)) as [<- | Hne].
    + rewrite !lookup_insert_eq, Hk. now destruct (m !! k).
    + now rewrite !lookup_insert_ne.
Qed.

(** The [setdefault] loop is a union in which the stored entries win. *)
Lemma setdefault_loop (items : list (string * jval)) : forall entries,
  fold_left (fun c kv => setdefault (fst kv) (snd kv) c) items entries
  = entries ∪ list_to_map items.
Proof.
  induction items as [|[k v] items IH]; intros entries; simpl.
  - now rewrite (right_id_L ∅ (∪)).
  - rewrite IH. apply setdefault_union.
Qed.

Lemma load_config_dict file :
  fst (load_config file)
  = match file with
    | Stored entries => entries ∪ DEFAULT_CONFIG_copy
    | _ => DEFAULT_CONFIG_copy
    end.
Proof.
  destruct file; try reflexivity. cbn [load_config fst].
  apply setdefault_loop.
Qed.

Lemma load_config_file file :
  snd (load_config file)
  = match file with
    | NoFile => Stored DEFAULT_CONFIG_copy
    | _ => file
    end.
Proof. destruct file; reflexivity. Qed.

Lemma default_lookup (k : string) (v : jval) :
  (k, v) ∈ DEFAULT_CONFIG_items -> DEFAULT_CONFIG_copy !! k = Some v.
Proof.
  unfold DEFAULT_CONFIG_items. intros H.
  repeat (apply elem_of_cons in H as [[= -> ->] | H]; [reflexivity|]).
  now apply elem_of_nil in H.
Qed.

End ConfigFacts.

(** X1. [load_config] always returns a dictionary with every key of the
    defaults: a key the file has keeps the file's value, a key it lacks
    gets the default, and keys outside the defaults are passed through.
    A missing file is created with the defaults; an existing file, readable
    or not, is left as it is. *)
Theorem load_config_fills_defaults (file : config_file) :
  let cfg_ := fst (load_config file) in
  let stored k := match file with Stored entries => entries !! k | _ => None end in
  (forall k v, (k, v) ∈ DEFAULT_CONFIG_items ->
     cfg_ !! k = Some (default v (stored k)))
  /\ (forall k, DEFAULT_CONFIG_copy !! k = None -> cfg_ !! k = stored k)
  /\ snd (load_config file)
     = match file with
       | NoFile => Stored DEFAULT_CONFIG_copy
       | _ => file
       end.
Proof.
  intros cfg_ stored. subst cfg_. rewrite load_config_dict, load_config_file.
  split; [| split; [| reflexivity]].
  - intros k v Hin. pose proof (default_lookup k v Hin) as Hd.
    destruct file as [| | entries]; subst stored; cbv beta iota;
      try exact Hd.
    rewrite lookup_union, Hd. now destruct (entries !! k).
  - intros k Hd.
    destruct file as [| | entries]; subst stored; cbv beta iota;
      try exact Hd.
    rewrite lookup_union, Hd. now destruct (entries !! k).
Qed.

Section ReloadFacts.

Lemma load_config_twice (file : config_file) :
  let cfg_ := fst (load_config file) in
  let file1 := snd (load_config file) in
  load_config (save_config cfg_) = (cfg_, Stored cfg_)
  /\ load_config file1 = (cfg_, file1).
Proof.
  intros cfg_ file1.
  assert (Hidem : forall m : gmap string jval,
            (m ∪ DEFAULT_CONFIG_copy) ∪ DEFAULT_CONFIG_copy
            = m ∪ DEFAULT_CONFIG_copy).
  { intros m. apply map_eq. intros i. rewrite !lookup_union.
    now destruct (m !! i), (DEFAULT_CONFIG_copy !! i). }
  assert (Hd : (DEFAULT_CONFIG_copy : gmap string jval) ∪ DEFAULT_CONFIG_copy
               = DEFAULT_CONFIG_copy).
  { apply map_eq. intros i. rewrite !lookup_union.
    now destruct (DEFAULT_CONFIG_copy !! i). }
  split.
  - apply injective_projections; cbn [fst snd]; [|reflexivity].
    rewrite (load_config_dict (save_config cfg_)). unfold save_config.
    subst cfg_. rewrite load_config_dict.
    destruct file; [exact Hd | exact Hd | apply Hidem].
  - apply injective_projections; cbn [fst snd].
    + rewrite load_config_dict. subst file1 cfg_.
      rewrite load_config_file, load_config_dict.
      destruct file; [exact Hd | reflexivity | reflexivity].
    + rewrite load_config_file. subst file1. rewrite load_config_file.
      now destruct file.
Qed.

End ReloadFacts.

(** X2. What [load_config] returns can be saved and loaded back unchanged,
    and loading again neither changes the dictionary nor the file. *)
Theorem load_config_stable (file : config_file) :
  let cfg_ := fst (load_config file) in
  let file1 := snd (load_config file) in
  load_config (save_config cfg_) = (cfg_, Stored cfg_)
  /\ load_config file1 = (cfg_, file1).
Proof. exact (load_config_twice file). Qed.

(** The defaults loaded from a missing file. *)
Lemma load_config_fills_defaults_witness :
  fst (load_config NoFile) !! "maxcache" = Some (JInt 500).
Proof.
  apply (proj1 (load_config_fills_defaults NoFile) "maxcache" (JInt 500)).
  unfold DEFAULT_CONFIG_items.
  repeat first [ apply list_elem_of_here | apply list_elem_of_further ].
Defined.

(** ** The portal's access gate *)

Section GateFacts.
Implicit Types (file : config_file) (auth : authorization).

Lemma load_config_again file :
  load_config (snd (load_config file))
  = (fst (load_config file), snd (load_config file)).
Proof. exact (proj2 (load_config_twice file)). Qed.

Lemma requires_auth_file auth file :
  snd (requires_auth auth file) = snd (load_config file).
Proof.
  unfold requires_auth, check_auth.
  destruct (load_config file) as [c file1] eqn:E.
  pose proof (load_config_again file) as H. rewrite E in H. cbn [fst snd] in H.
  destruct (negb (truthy (cfg_get "portal_user" c))
            || negb (truthy (cfg_get "portal_pass" c))); [reflexivity|].
  destruct auth as [[u p]|]; [|reflexivity].
  rewrite H. now destruct (cred_eq u _ && cred_eq p _).
Qed.

Lemma requires_auth_decision auth file :
  fst (requires_auth auth file)
  = let c := fst (load_config file) in
    if negb (truthy (cfg_get "portal_user" c))
       || negb (truthy (cfg_get "portal_pass" c))
    then Admit
    else match auth with
         | Some (u, p) =>
             if cred_eq u (cfg_get "portal_user" c)
                && cred_eq p (cfg_get "portal_pass" c)
             then Admit else Challenge
         | None => Challenge
         end.
Proof.
  unfold requires_auth, check_auth.
  destruct (load_config file) as [c file1] eqn:E.
  pose proof (load_config_again file) as H. rewrite E in H. cbn [fst snd] in H.
  cbn [fst]. cbv zeta.
  destruct (negb (truthy (cfg_get "portal_user" c))
            || negb (truthy (cfg_get "portal_pass" c))); [reflexivity|].
  destruct auth as [[u p]|]; [|reflexivity].
  rewrite H. now destruct (cred_eq u _ && cred_eq p _).
Qed.

(** With both credentials set and non-empty, the gate opens for exactly
    that pair. *)
Lemma requires_auth_admits auth file (user pwd : string) :
  fst (load_config file) !! "portal_user" = Some (JStr user) ->
  fst (load_config file) !! "portal_pass" = Some (JStr pwd) ->
  user <> "" -> pwd <> "" ->
  (fst (requires_auth auth file) = Admit
   <-> auth = Some (Some user, Some pwd)).
Proof.
  intros Hu Hp Hune Hpne. rewrite requires_auth_decision. cbv zeta.
  unfold cfg_get. rewrite Hu, Hp.
  cbn [default from_option id truthy]. unfold id.
  apply String.eqb_neq in Hune, Hpne. rewrite Hune, Hpne. cbn [negb orb].
  destruct auth as [[[u|] [p|]]|]; cbn [cred_eq andb];
    try (split; [discriminate | intros [=]]).
  - destruct (String.eqb_spec u user) as [-> | Hu'];
      destruct (String.eqb_spec p pwd) as [-> | Hp']; cbn [andb];
      split; try reflexivity; try discriminate; intros [=]; congruence.
  - destruct (String.eqb u user); split; try discriminate; intros [=].
Qed.

End GateFacts.

(** X3. The gate in front of the portal routes.  When the configuration
    holds a non-empty user name and a non-empty password, a request is let
    through exactly when it carries that user name and that password; when
    either is empty or missing, as in the defaults, every request is let
    through.  A request that is turned away leaves the configuration file
    as it was. *)
Theorem requires_auth_gate (auth : authorization) (file : config_file) :
  let c := fst (load_config file) in
  (forall user pwd : string,
     c !! "portal_user" = Some (JStr user) ->
     c !! "portal_pass" = Some (JStr pwd) ->
     user <> "" -> pwd <> "" ->
     (fst (requires_auth auth file) = Admit
      <-> auth = Some (Some user, Some pwd)))
  /\ (truthy (cfg_get "portal_user" c) = false
      \/ truthy (cfg_get "portal_pass" c) = false ->
      fst (requires_auth auth file) = Admit)
  /\ (fst (requires_auth auth file) = Challenge ->
      snd (requires_auth auth file) = file).
Proof.
  intros c. rewrite requires_auth_decision, requires_auth_file. fold c. cbv zeta.
  split; [| split].
  - intros user pwd Hu Hp Hune Hpne. unfold cfg_get. rewrite Hu, Hp.
    cbn [default from_option id truthy]. unfold id.
    apply String.eqb_neq in Hune, Hpne. rewrite Hune, Hpne. cbn [negb orb].
    destruct auth as [[[u|] [p|]]|]; cbn [cred_eq andb];
      try (split; [discriminate | intros [=]]).
    + destruct (String.eqb_spec u user) as [-> | Hu'];
        destruct (String.eqb_spec p pwd) as [-> | Hp']; cbn [andb];
        split; try reflexivity; try discriminate; intros [=]; congruence.
    + destruct (String.eqb u user); split; try discriminate; intros [=].
  - intros [H | H]; rewrite H; cbn [negb orb]; [reflexivity|].
    now rewrite orb_true_r.
  - destruct file as [| | entries]; [| reflexivity | reflexivity].
    subst c. cbn. discriminate.
Qed.

(** A stored pair of credentials admits its owner. *)
Lemma requires_auth_gate_witness :
  let file := Stored (<["portal_pass" := JStr "s3cret"]>
                        (<["portal_user" := JStr "admin"]> ∅)) in
  fst (requires_auth (Some (Some "admin", Some "s3cret")) file) = Admit
  <-> Some (Some "admin", Some "s3cret") = Some (Some "admin", Some "s3cret").
Proof.
  intros file.
  apply (proj1 (requires_auth_gate (Some (Some "admin", Some "s3cret")) file)
           "admin" "s3cret").
  - vm_compute. reflexivity.
  - vm_compute. reflexivity.
  - discriminate.
  - discriminate.
Defined.

(** X4. The unguarded set-up route.  Whatever the configuration file held
    before, a non-blank user name and password are stored stripped, from
    then on the gate lets through exactly the requests that carry them, and
    every other entry of the configuration is kept.  A blank user name or
    password changes nothing. *)
Theorem portal_setup_user_takes_over (user_field pass_field : string)
    (file : config_file) :
  let file' := portal_setup_user user_field pass_field file in
  (Py.strip user_field <> "" -> Py.strip pass_field <> "" ->
     (forall auth,
        fst (requires_auth auth file') = Admit
        <-> auth = Some (Some (Py.strip user_field),
                         Some (Py.strip pass_field)))
     /\ (forall k, k <> "portal_user" -> k <> "portal_pass" ->
           fst (load_config file') !! k = fst (load_config file) !! k))
  /\ (Py.strip user_field = "" \/ Py.strip pass_field = "" -> file' = file).
Proof.
  intros file'. subst file'. unfold portal_setup_user. split.
  - intros Hu Hp.
    pose proof Hu as Hu'. pose proof Hp as Hp'.
    apply String.eqb_neq in Hu', Hp'. rewrite Hu', Hp'. cbn [negb andb].
    destruct (load_config file) as [c file1] eqn:E.
    assert (Hc : c = fst (load_config file)) by now rewrite E.
    set (c' := <["portal_pass" := JStr (Py.strip pass_field)]>
                 (<["portal_user" := JStr (Py.strip user_field)]> c)).
    assert (Hload : fst (load_config (save_config c')) = c').
    { rewrite load_config_dict. unfold save_config.
      apply map_eq. intros i. rewrite lookup_union. subst c'.
      destruct (decide (i = "portal_pass")) as [-> | H1];
        [now rewrite lookup_insert_eq|].
      rewrite lookup_insert_ne by congruence.
      destruct (decide (i = "portal_user")) as [-> | H2];
        [now rewrite lookup_insert_eq|].
      rewrite lookup_insert_ne by congruence.
      rewrite Hc, load_config_dict.
      destruct file as [| | entries];
        try (now destruct (DEFAULT_CONFIG_copy !! i)).
      rewrite lookup_union.
      now destruct (entries !! i), (DEFAULT_CONFIG_copy !! i). }
    split.
    + intros auth.
      apply (requires_auth_admits auth (save_config c')); try assumption;
        rewrite Hload; subst c'.
      * rewrite lookup_insert_ne by discriminate. apply lookup_insert_eq.
      * apply lookup_insert_eq.
    + intros k Hk1 Hk2. rewrite Hload. subst c'.
      rewrite !lookup_insert_ne by congruence. now rewrite Hc.
  - intros [H | H]; rewrite H; cbn; [reflexivity|].
    now rewrite andb_false_r.
Qed.

(** Setting up "admin" over a file that already names another user. *)
Lemma portal_setup_user_takes_over_witness :
  let file := Stored (<["portal_pass" := JStr "old"]>
                        (<["portal_user" := JStr "owner"]> ∅)) in
  fst (requires_auth (Some (Some "admin", Some "pw"))
         (portal_setup_user " admin " "pw" file)) = Admit
  <-> Some (Some "admin", Some "pw")
      = Some (Some (Py.strip " admin "), Some (Py.strip "pw")).
Proof.
  intros file.
  apply (proj1 (proj1 (portal_setup_user_takes_over " admin " "pw" file)
                  ltac:(vm_compute; discriminate)
                  ltac:(vm_compute; discriminate))).
Defined.

(** ** Stripping *)

Section StripFacts.
Variable p : ascii -> bool.

Lemma lstrip_by_fix (s : string) : head_ok p s = true -> Py.lstrip_by p s = s.
Proof.
  destruct s as [|c s]; [reflexivity|]. simpl.
  intros H. apply negb_true_iff in H. now rewrite H.
Qed.

Lemma lstrip_by_head (s : string) : head_ok p (Py.lstrip_by p s) = true.
Proof.
  induction s as [|c s IH]; [reflexivity|]. simpl.
  destruct (p c) eqn:E; [exact IH|]. simpl. now rewrite E.
Qed.

Lemma rstrip_by_idem (s : string) :
  Py.rstrip_by p (Py.rstrip_by p s) = Py.rstrip_by p s.
Proof.
  induction s as [|c s IH]; [reflexivity|]. simpl.
  destruct (Py.rstrip_by p s) as [|d r] eqn:E.
  - destruct (p c) eqn:Ec; [reflexivity|]. simpl. now rewrite Ec.
  - change (Py.rstrip_by p (String c (String d r)))
      with (match Py.rstrip_by p (String d r) with
            | EmptyString => if p c then EmptyString else String c EmptyString
            | r' => String c r'
            end).
    now rewrite IH.
Qed.

Lemma rstrip_by_head (s : string) :
  head_ok p s = true -> head_ok p (Py.rstrip_by p s) = true.
Proof.
  destruct s as [|c s]; [reflexivity|]. simpl. intros H.
  destruct (Py.rstrip_by p s); [|exact H].
  apply negb_true_iff in H. rewrite H. simpl. now rewrite H.
Qed.

Lemma rstrip_by_app (a b : string) :
  Py.rstrip_by p b <> "" ->
  Py.rstrip_by p (a +:+ b) = a +:+ Py.rstrip_by p b.
Proof.
  intros Hb. induction a as [|c a IH]; [reflexivity|].
  change (Py.rstrip_by p (String c a +:+ b))
    with (match Py.rstrip_by p (a +:+ b) with
          | EmptyString => if p c then EmptyString else String c EmptyString
          | r => String c r
          end).
  change (String c a +:+ Py.rstrip_by p b)
    with (String c (a +:+ Py.rstrip_by p b)).
  rewrite IH. destruct (a +:+ Py.rstrip_by p b) eqn:E; [|reflexivity].
  destruct a; simpl in E; [contradiction | discriminate].
Qed.

(** What is left ends with a character that does not satisfy [p]. *)
Lemma rstrip_by_last (s : string) (c : ascii) :
  p c = true -> Py.rstrip_by p (s +:+ String c "") = Py.rstrip_by p s.
Proof.
  intros Hc. induction s as [|d s IH]; simpl; [now rewrite Hc|].
  now rewrite IH.
Qed.

End StripFacts.

Section StripSpace.

Lemma strip_idem (s : string) : Py.strip (Py.strip s) = Py.strip s.
Proof.
  unfold Py.strip.
  rewrite (lstrip_by_fix _ (Py.rstrip_by _ _)).
  - apply rstrip_by_idem.
  - apply rstrip_by_head, lstrip_by_head.
Qed.

Lemma stripped_inv (s : string) :
  Py.strip s = s ->
  head_ok Py.is_space s = true /\ Py.rstrip_by Py.is_space s = s.
Proof.
  intros H.
  assert (Hh : head_ok Py.is_space s = true).
  { rewrite <- H. unfold Py.strip. apply rstrip_by_head, lstrip_by_head. }
  split; [exact Hh|].
  unfold Py.strip in H. now rewrite (lstrip_by_fix _ _ Hh) in H.
Qed.

Lemma stripped_intro (s : string) :
  head_ok Py.is_space s = true -> Py.rstrip_by Py.is_space s = s ->
  Py.strip s = s.
Proof. intros Hh Hr. unfold Py.strip. now rewrite (lstrip_by_fix _ _ Hh). Qed.

(** Two stripped texts joined by a character that is not white space are
    a stripped text. *)
Lemma strip_join (a b : string) (c : ascii) :
  Py.is_space c = false -> Py.strip a = a -> Py.strip b = b ->
  Py.strip (a +:+ String c b) = a +:+ String c b.
Proof.
  intros Hc Ha Hb.
  destruct (stripped_inv a Ha) as [Hha _].
  destruct (stripped_inv b Hb) as [_ Hrb].
  assert (Hr : Py.rstrip_by Py.is_space (String c b) = String c b).
  { simpl. rewrite Hrb. destruct b; [now rewrite Hc | reflexivity]. }
  apply stripped_intro.
  - destruct a; simpl; [now rewrite Hc | exact Hha].
  - rewrite rstrip_by_app; rewrite Hr; [reflexivity | discriminate].
Qed.

End StripSpace.

(** ** Cluster list persistence *)

Section ClusterFacts.

Lemma append_assoc3 (a b c : string) : (a +:+ b) +:+ c = a +:+ (b +:+ c).
Proof.
  induction a as [|x a IH]; [reflexivity|].
  change (String x ((a +:+ b) +:+ c) = String x (a +:+ (b +:+ c))).
  now f_equal.
Qed.

Lemma text_lines_nonempty (s : string) : text_lines s <> [].
Proof.
  destruct s as [|c s]; simpl; [discriminate|].
  destruct (is_break c); [discriminate|].
  destruct (text_lines s); discriminate.
Qed.

Lemma text_lines_line (l rest : string) :
  any_char is_break l = false ->
  text_lines (l +:+ String "010" rest) = l :: text_lines rest.
Proof.
  induction l as [|c l IH]; intros H; [reflexivity|].
  simpl in H. apply orb_false_iff in H as [Hc Hl].
  simpl. rewrite Hc, (IH Hl). reflexivity.
Qed.

Lemma split_once_first (c : ascii) (a b : string) :
  any_char (Ascii.eqb c) a = false ->
  split_once c (a +:+ String c b) = Some (a, b).
Proof.
  induction a as [|d a IH]; intros H; simpl.
  - now rewrite Ascii.eqb_refl.
  - simpl in H. apply orb_false_iff in H as [Hd Ha].
    rewrite Ascii.eqb_sym, Hd, (IH Ha). reflexivity.
Qed.

Lemma contains_comma (a b : string) :
  Py.contains "," (a +:+ String "," b) = true.
Proof. apply contains_spec. now exists a, b. Qed.

Lemma cluster_of_line_storable (name hostport : string) :
  storable (name, hostport) ->
  cluster_of_line (name +:+ "," +:+ hostport) = [(name, hostport)].
Proof.
  intros (Hn & Hh & Hcomma & _ & _). cbn [fst snd] in *.
  unfold cluster_of_line.
  change ("," +:+ hostport) with (String "," hostport).
  rewrite (strip_join name hostport "," eq_refl Hn Hh).
  rewrite contains_comma, split_once_first by exact Hcomma.
  rewrite Hn, Hh.
  destruct name; reflexivity.
Qed.

End ClusterFacts.

Section RoundTrip.

(** What [save_clusters] writes, [load_clusters] reads back. *)
Lemma save_load_clusters (clusters : list (string * string)) :
  Forall storable clusters ->
  load_clusters (Some (save_clusters clusters)) = clusters.
Proof.
  intros H. unfold load_clusters.
  induction H as [|[name hostport] rest Hc Hrest IH]; [reflexivity|].
  cbn [save_clusters].
  assert (Hline : any_char is_break (name +:+ "," +:+ hostport) = false).
  { destruct Hc as (_ & _ & _ & Hbn & Hbh). cbn [fst snd] in *.
    clear -Hbn Hbh. induction name as [|c name IHn]; simpl in *.
    - exact Hbh.
    - apply orb_false_iff in Hbn as [Hc Hn]. rewrite Hc. now apply IHn. }
  replace (name +:+ "," +:+ hostport +:+ String "010" "" +:+ save_clusters rest)
    with ((name +:+ "," +:+ hostport) +:+ String "010" (save_clusters rest))
    by (rewrite append_assoc3; reflexivity).
  rewrite (text_lines_line _ _ Hline). cbn [flat_map].
  rewrite (cluster_of_line_storable name hostport Hc), IH. reflexivity.
Qed.

(** The rows kept are the filled rows of the form, in index order. *)
Lemma cluster_rows_filter (form : gmap string string) (count : Z) :
  cluster_rows form count
  = List.filter filled
      (map (cluster_row form) (List.seq 0%nat (Z.to_nat count))).
Proof.
  unfold cluster_rows. induction (List.seq 0%nat (Z.to_nat count)) as [|i l IH];
    [reflexivity|].
  cbn [flat_map map List.filter]. rewrite IH.
  now destruct (filled (cluster_row form i)).
Qed.

Lemma cluster_rows_stripped (form : gmap string string) (count : Z) :
  Forall (fun r => fst r <> "" /\ snd r <> ""
                   /\ Py.strip (fst r) = fst r /\ Py.strip (snd r) = snd r)
         (cluster_rows form count).
Proof.
  unfold cluster_rows. apply Forall_flat_map, Forall_forall. intros i _.
  cbv zeta. unfold filled, cluster_row. cbn [fst snd].
  destruct (String.eqb_spec
              (Py.strip (default "" (form !! ("name_" +:+ Py.str_of_int (Z.of_nat i)))))
              "") as [|Hn]; [constructor|].
  destruct (String.eqb_spec
              (Py.strip (default "" (form !! ("hostport_" +:+ Py.str_of_int (Z.of_nat i)))))
              "") as [|Hh]; [constructor|].
  cbn [negb andb]. constructor; [|constructor]. cbn [fst snd].
  repeat split; try assumption; apply strip_idem.
Qed.

End RoundTrip.

(** X5. Cluster entries written by [save_clusters] are read back by
    [load_clusters] unchanged and in order, as long as each name and
    host:port is stripped text without line breaks and the name has no
    comma.  A missing file reads as the empty list. *)
Theorem clusters_round_trip (clusters : list (string * string)) :
  Forall storable clusters ->
  load_clusters (Some (save_clusters clusters)) = clusters
  /\ load_clusters None = [].
Proof.
  intros H. split; [now apply save_load_clusters | reflexivity].
Qed.

(** Two entries written and read back. *)
Lemma clusters_round_trip_witness :
  load_clusters (Some (save_clusters [("DXSpider EU", "dxc.example.org:7300");
                                      ("Skimmer", "10.0.0.2:7373")]))
  = [("DXSpider EU", "dxc.example.org:7300"); ("Skimmer", "10.0.0.2:7373")].
Proof.
  apply (proj1 (clusters_round_trip
                  [("DXSpider EU", "dxc.example.org:7300");
                   ("Skimmer", "10.0.0.2:7373")]
                  ltac:(repeat constructor; vm_compute; reflexivity))).
Defined.

(** X6. The cluster form.  When the form's count reads as the integer
    [count] (a form without the field counts 0), the text written is that
    of the rows with index below [count] whose stripped name and stripped
    host:port are both non-empty, in index order, every part stripped;
    reading the file back gives exactly those rows, provided no name holds
    a comma and no part holds a line break.  When the count does not read
    as an integer the route raises before anything is written. *)
Theorem save_clusters_route_rows (form : gmap string string) :
  (forall count, cluster_count form = Ok count ->
     let rows :=
       List.filter filled
         (map (cluster_row form) (List.seq 0%nat (Z.to_nat count))) in
     save_clusters_route form = Ok (save_clusters rows)
     /\ Forall (fun r => fst r <> "" /\ snd r <> ""
                         /\ Py.strip (fst r) = fst r
                         /\ Py.strip (snd r) = snd r) rows
     /\ (Forall (fun r => any_char (Ascii.eqb ",") (fst r) = false
                          /\ any_char is_break (fst r) = false
                          /\ any_char is_break (snd r) = false) rows ->
         load_clusters (Some (save_clusters rows)) = rows))
  /\ (forall e, cluster_count form = Raise e ->
        save_clusters_route form = Raise e)
  /\ (form !! "count" = None -> cluster_count form = Ok 0)
  /\ (forall s, form !! "count" = Some s -> Py.int_of_str s = None ->
        cluster_count form = Raise ValueError).
Proof.
  split; [| split; [| split]].
  - intros count Hc rows. subst rows. rewrite <- cluster_rows_filter.
    split; [unfold save_clusters_route; now rewrite Hc|].
    pose proof (cluster_rows_stripped form count) as Hs.
    split; [exact Hs|]. intros Hok.
    apply save_load_clusters.
    rewrite Forall_forall in *. intros r Hin.
    destruct (Hs r Hin) as (_ & _ & H1 & H2).
    destruct (Hok r Hin) as (H3 & H4 & H5).
    repeat split; assumption.
  - intros e He. unfold save_clusters_route. now rewrite He.
  - intros H. unfold cluster_count. now rewrite H.
  - intros s H Hbad. unfold cluster_count, int_of_slice.
    now rewrite H, Hbad.
Qed.

(** A form of three rows, the second without a host: two rows are
    written. *)
Lemma save_clusters_route_rows_witness :
  let form : gmap string string :=
    list_to_map [("count", "3"); ("name_0", " DXSpider EU ");
                 ("hostport_0", "dxc.example.org:7300");
                 ("name_1", "Lost"); ("hostport_1", "  ");
                 ("name_2", "Skimmer"); ("hostport_2", "10.0.0.2:7373 ")] in
  save_clusters_route form
  = Ok ("DXSpider EU,dxc.example.org:7300" +:+ String "010" ""
        +:+ "Skimmer,10.0.0.2:7373" +:+ String "010" "").
Proof.
  intros form.
  apply (proj1 (proj1 (save_clusters_route_rows form) 3
                  ltac:(vm_compute; reflexivity))).
Defined.

(** ** Sending while connected *)

Section SendFacts.

Lemma rstrip_by_length (p : ascii -> bool) (s : string) :
  (String.length (Py.rstrip_by p s) <= String.length s)%nat.
Proof.
  induction s as [|c s IH]; simpl; [lia|].
  destruct (Py.rstrip_by p s); [destruct (p c)|]; simpl in *; lia.
Qed.

Lemma length_append (a b : string) :
  String.length (a +:+ b) = (String.length a + String.length b)%nat.
Proof. induction a as [|c a IH]; simpl; [reflexivity | now rewrite IH]. Qed.

Lemma ends_with_char (c : ascii) (s : string) :
  Py.ends_with (String c "") s = true -> exists a, s = a +:+ String c "".
Proof.
  unfold Py.ends_with. cbn [String.length].
  induction s as [|d s IH]; [discriminate|].
  destruct s as [|e s].
  - intros H. apply andb_true_iff in H as [_ H]. apply String.eqb_eq in H.
    simpl in H. injection H as ->. now exists "".
  - intros H.
    assert (H' : Nat.leb 1 (String.length (String e s))
                 && String.eqb
                      (substring (String.length (String e s) - 1) 1 (String e s))
                      (String c "") = true).
    { rewrite andb_true_iff in *. split; [reflexivity|]. destruct H as [_ H].
      cbn [String.length] in *.
      replace (S (S (String.length s)) - 1)%nat with (S (String.length s)) in H
        by lia.
      replace (S (String.length s) - 1)%nat with (String.length s) by lia.
      exact H. }
    destruct (IH H') as [a ->]. now exists (String d a).
Qed.

(** A stripped text does not end in a line feed, and stays the same when
    a line feed is added and stripped again. *)
Lemma stripped_no_newline (x : string) :
  Py.strip x = x -> x <> "" ->
  Py.ends_with (String "010" "") x = false
  /\ Py.strip (x +:+ String "010" "") = x.
Proof.
  intros Hx Hne. destruct (stripped_inv x Hx) as [Hh Hr]. split.
  - apply not_true_is_false. intros H.
    destruct (ends_with_char _ _ H) as [a ->].
    rewrite (rstrip_by_last Py.is_space a "010" eq_refl) in Hr.
    pose proof (rstrip_by_length Py.is_space a) as Hl.
    rewrite Hr, length_append in Hl. simpl in Hl. lia.
  - apply eq_trans with (Py.rstrip_by Py.is_space (x +:+ String "010" "")).
    + unfold Py.strip. rewrite lstrip_by_fix; [reflexivity|].
      destruct x; [contradiction | exact Hh].
    + now rewrite (rstrip_by_last Py.is_space x "010" eq_refl).
Qed.

End SendFacts.

Section WireFacts.

Lemma line_feeds_append (a b : string) :
  line_feeds (a +:+ b) = (line_feeds a + line_feeds b)%nat.
Proof.
  induction a as [|c a IH]; [reflexivity|].
  change (String c a +:+ b) with (String c (a +:+ b)).
  cbn [line_feeds]. rewrite IH. lia.
Qed.

(** The raw command route with a session: one write of the stripped
    command and a line feed, or 500 and nothing changed. *)
Lemma send_telnet_cmd_session (form_cmd : string) (c : Client.t)
    (conn : Client.telnet) :
  Py.strip form_cmd <> "" ->
  Client.connected c = true -> Client.tn c = Some conn ->
  (Client.broken conn = false ->
     Client.send_telnet_cmd form_cmd c
     = ({| Client.status := 200;
           Client.body := [("status", "sent");
                           ("cmd", Py.strip form_cmd)] |},
        {| Client.connected := true;
           Client.tn :=
             Some {| Client.written :=
                       Client.written conn
                       ++ [Py.strip form_cmd +:+ String "010" ""];
                     Client.broken := false |} |}))
  /\ (Client.broken conn = true ->
      Client.status (fst (Client.send_telnet_cmd form_cmd c)) = 500
      /\ snd (Client.send_telnet_cmd form_cmd c) = c).
Proof.
  intros Hne Hc Ht.
  destruct (stripped_no_newline (Py.strip form_cmd) (strip_idem _) Hne)
    as [Hend Hstrip].
  unfold Client.send_telnet_cmd, Client.no_session, Client.write.
  apply String.eqb_neq in Hne. rewrite Hne, Hc, Ht, Hend. cbn [negb orb].
  split; intros Hb; rewrite Hb.
  - now rewrite Hstrip.
  - split; reflexivity.
Qed.

(** The spot route on the fields of a JSON object (or on the empty form,
    for a JSON value that counts as false). *)
Lemma sndspot_fields (req : Client.posted) (data : gmap string Client.jsonv)
    (c : Client.t) :
  req = Client.JsonObject data \/ (req = Client.JsonOther false /\ data = ∅) ->
  Client.sndspot req c
  = match data !! "frequency", data !! "callsign" with
    | Some f, Some cs =>
        if Client.truth f && Client.truth cs then
          let '(success, c') :=
            Client.send_spot (Client.text f) (Client.text cs)
              (match data !! "remarks" with
               | Some v => Client.text v
               | None => ""
               end) c in
          if success
          then ({| Client.status := 200;
                   Client.body := [("status", "ok")] |}, c')
          else ({| Client.status := 500;
                   Client.body := [("status", "failed")] |}, c')
        else
          ({| Client.status := 400;
              Client.body :=
                [("error", "frequency and callsign are required")] |}, c)
    | _, _ =>
        ({| Client.status := 400;
            Client.body :=
              [("error", "frequency and callsign are required")] |}, c)
    end.
Proof. intros [-> | [-> ->]]; reflexivity. Qed.

End WireFacts.

(** X7. The raw command route on a live session.  The form's command is
    stripped; if nothing is left the answer is 400 and nothing is written,
    connected or not.  Otherwise, when the write goes through, there is
    exactly one write, of the stripped command followed by a line feed,
    and the answer is 200 with the stripped command echoed; when the write
    raises, the answer is 500 and the client is as it was.  The command is
    not looked into: what is written ends the one line only when the
    stripped command holds no line feed, and holds one line more for each
    line feed inside it. *)
Theorem send_telnet_cmd_writes_once (form_cmd : string) (c : Client.t)
    (conn : Client.telnet) :
  (Py.strip form_cmd = "" ->
     Client.send_telnet_cmd form_cmd c
     = ({| Client.status := 400;
           Client.body := [("error", "No command provided")] |}, c))
  /\ (Py.strip form_cmd <> "" ->
      Client.connected c = true -> Client.tn c = Some conn ->
      (Client.broken conn = false ->
         Client.send_telnet_cmd form_cmd c
         = ({| Client.status := 200;
               Client.body := [("status", "sent");
                               ("cmd", Py.strip form_cmd)] |},
            {| Client.connected := true;
               Client.tn :=
                 Some {| Client.written :=
                           Client.written conn
                           ++ [Py.strip form_cmd +:+ String "010" ""];
                         Client.broken := false |} |}))
      /\ (Client.broken conn = true ->
          Client.status (fst (Client.send_telnet_cmd form_cmd c)) = 500
          /\ snd (Client.send_telnet_cmd form_cmd c) = c))
  /\ line_feeds (Py.strip form_cmd +:+ String "010" "")
     = S (line_feeds (Py.strip form_cmd)).
Proof.
  split; [| split].
  - intros H. unfold Client.send_telnet_cmd. now rewrite H.
  - apply send_telnet_cmd_session.
  - rewrite line_feeds_append. cbn. lia.
Qed.

(** The command [sh/dx/20], typed with blanks around it. *)
Lemma send_telnet_cmd_writes_once_witness :
  let conn := {| Client.written := []; Client.broken := false |} in
  let c := {| Client.connected := true; Client.tn := Some conn |} in
  Client.send_telnet_cmd "  sh/dx/20 " c
  = ({| Client.status := 200;
        Client.body := [("status", "sent"); ("cmd", Py.strip "  sh/dx/20 ")] |},
     {| Client.connected := true;
        Client.tn :=
          Some {| Client.written :=
                    [] ++ [Py.strip "  sh/dx/20 " +:+ String "010" ""];
                  Client.broken := false |} |}).
Proof.
  intros conn c.
  apply (proj1 (proj1 (proj2 (send_telnet_cmd_writes_once "  sh/dx/20 " c conn))
                  ltac:(vm_compute; discriminate) eq_refl eq_refl) eq_refl).
Defined.

(** X8. The spot route.  A body that is not JSON (a form post is one) is
    answered with 415 and a JSON body that does not parse with 400, before
    any field is read; a JSON value that is neither an object nor false
    with 500.  On a JSON object (or on the empty form, after a JSON value
    that counts as false), a frequency or call sign that is missing or
    counts as false gives 400.  Otherwise the answer is 200 exactly when
    there is a live session whose write goes through, and then there is
    exactly one write, of the text [dx <frequency> <callsign> <remarks>]
    and a line feed, which holds one line more for each line feed in the
    fields; failing that the answer is 500.  Whenever the answer is not
    200 nothing is written. *)
Theorem sndspot_outcome (req : Client.posted) (c : Client.t) :
  let r := Client.sndspot req c in
  (req = Client.NotJson -> Client.status (fst r) = 415)
  /\ (req = Client.BadJson -> Client.status (fst r) = 400)
  /\ (req = Client.JsonOther true -> Client.status (fst r) = 500)
  /\ (Client.status (fst r) <> 200 -> snd r = c)
  /\ (forall data : gmap string Client.jsonv,
        req = Client.JsonObject data
        \/ (req = Client.JsonOther false /\ data = ∅) ->
        let usable (k : string) :=
          match data !! k with
          | Some v => Client.truth v
          | None => false
          end in
        (usable "frequency" = false \/ usable "callsign" = false ->
         Client.status (fst r) = 400)
        /\ (forall f cs : Client.jsonv,
              data !! "frequency" = Some f -> data !! "callsign" = Some cs ->
              Client.truth f = true -> Client.truth cs = true ->
              let remarks := match data !! "remarks" with
                             | Some v => Client.text v
                             | None => ""
                             end in
              let cmd := "dx " +:+ Client.text f +:+ " " +:+ Client.text cs
                         +:+ " " +:+ remarks +:+ String "010" "" in
              (Client.status (fst r) = 200
               <-> Client.connected c = true
                   /\ exists conn, Client.tn c = Some conn
                                   /\ Client.broken conn = false)
              /\ (Client.status (fst r) = 200 ->
                  exists conn, Client.tn c = Some conn
                    /\ snd r
                       = {| Client.connected := true;
                            Client.tn :=
                              Some {| Client.written :=
                                        Client.written conn ++ [cmd];
                                      Client.broken := false |} |})
              /\ (Client.status (fst r) <> 200 -> Client.status (fst r) = 500)
              /\ line_feeds cmd
                 = S (line_feeds (Client.text f) + line_feeds (Client.text cs)
                      + line_feeds remarks))).
Proof.
  intros r. subst r.
  split; [now intros ->|]. split; [now intros ->|].
  split; [now intros ->|]. split.
  - destruct req as [| | data | b].
    + reflexivity.
    + reflexivity.
    + rewrite (sndspot_fields _ data c (or_introl eq_refl)).
      destruct (data !! "frequency") as [f|]; [|reflexivity].
      destruct (data !! "callsign") as [cs|]; [|reflexivity].
      destruct (Client.truth f && Client.truth cs); [|reflexivity].
      unfold Client.send_spot, Client.no_session, Client.write.
      destruct c as [[|] [[w [|]]|]]; cbn; congruence.
    + destruct b; [reflexivity|].
      rewrite (sndspot_fields _ ∅ c (or_intror (conj eq_refl eq_refl))).
      rewrite !lookup_empty. reflexivity.
  - intros data Hreq usable. subst usable.
    rewrite (sndspot_fields req data c Hreq). split.
    + intros [H | H].
      * destruct (data !! "frequency") as [f|]; [|reflexivity].
        cbv beta iota in H. rewrite H. now destruct (data !! "callsign").
      * destruct (data !! "frequency") as [f|]; [|reflexivity].
        destruct (data !! "callsign") as [cs|]; [|reflexivity].
        cbv beta iota in H. now rewrite H, andb_false_r.
    + intros f cs Hf Hcs Htf Htc remarks cmd. subst remarks cmd.
      rewrite Hf, Hcs, Htf, Htc. cbn [andb].
      split; [|split; [|split]].
      * unfold Client.send_spot, Client.no_session, Client.write.
        destruct c as [[|] [[w [|]]|]]; cbn; split;
          try discriminate; try congruence;
          try solve [ intros [[=] _]
                    | intros [_ (conn & [= <-] & Hb)]; cbn in Hb; discriminate
                    | intros [_ (conn & [=] & _)]
                    | intros _; split; [reflexivity|];
                      eexists; split; reflexivity ].
      * unfold Client.send_spot, Client.no_session, Client.write.
        destruct c as [[|] [[w [|]]|]]; cbn; try discriminate.
        intros _. eexists. split; reflexivity.
      * unfold Client.send_spot, Client.no_session, Client.write.
        destruct c as [[|] [[w [|]]|]]; cbn; congruence.
      * rewrite !line_feeds_append. cbn [line_feeds Ascii.eqb]. cbn. lia.
Qed.

(** A spot posted as JSON over a session that is up. *)
Lemma sndspot_outcome_witness :
  let c := {| Client.connected := true;
              Client.tn := Some {| Client.written := [];
                                   Client.broken := false |} |} in
  let data : gmap string Client.jsonv :=
    list_to_map [("frequency", Client.mk_jsonv true "14074");
                 ("callsign", Client.mk_jsonv true "DL1XYZ");
                 ("remarks", Client.mk_jsonv true "CQ")] in
  Client.status (fst (Client.sndspot (Client.JsonObject data) c)) = 200
  <-> Client.connected c = true
      /\ exists conn, Client.tn c = Some conn /\ Client.broken conn = false.
Proof.
  intros c data.
  apply (proj1 (proj2 (proj2 (proj2 (proj2 (proj2
           (sndspot_outcome (Client.JsonObject data) c)))) data
           (or_introl eq_refl))
         (Client.mk_jsonv true "14074") (Client.mk_jsonv true "DL1XYZ")
         ltac:(vm_compute; reflexivity) ltac:(vm_compute; reflexivity)
         eq_refl eq_refl)).
Defined.

(** ** The enrichment cache, further *)

Section EnrichFacts.
Implicit Types (c : config) (now : Q) (resp : Dxcc.response)
  (st : Dxcc.state).

(** A lookup sends no request or one. *)
Lemma lookup_calls c now resp (call_ : string) st :
  0 <= Dxcc.calls_between st (snd (Dxcc.dxcc_lookup c now resp call_ st)) <= 1.
Proof.
  unfold Dxcc.dxcc_lookup, Dxcc.calls_between.
  destruct (match Dxcc.dxcc_cache st !! call_ with
            | Some entry =>
                if Dxcc.fresh now entry then Some (fst entry) else None
            | None => None
            end); [cbn; lia|].
  destruct resp; cbn [snd Dxcc.outbound length]; lia.
Qed.

Lemma lookup_cache c now resp (call_ : string) st :
  let r := Dxcc.dxcc_lookup c now resp call_ st in
  Dxcc.dxcc_cache (snd r) = Dxcc.dxcc_cache st
  \/ exists data, resp = Dxcc.Answer data
       /\ fst r = Some (Dxcc.normalize data)
       /\ Dxcc.dxcc_cache (snd r)
          = <[call_ := (Dxcc.normalize data, now)]> (Dxcc.dxcc_cache st).
Proof.
  cbv zeta. unfold Dxcc.dxcc_lookup.
  destruct (match Dxcc.dxcc_cache st !! call_ with
            | Some entry =>
                if Dxcc.fresh now entry then Some (fst entry) else None
            | None => None
            end); [now left|].
  destruct resp as [| n | data]; [now left | now left |].
  right. now exists data.
Qed.

End EnrichFacts.

(** X9. A lookup for one call sign touches no other entry of the cache,
    and no entry is ever removed: an entry stays in the map, fresh or
    stale, until a later answer for the same call sign replaces it. *)
Theorem dxcc_lookup_keeps_entries (c : config) (now : Q)
    (resp : Dxcc.response) (call_ : string) (st : Dxcc.state) :
  let st' := snd (Dxcc.dxcc_lookup c now resp call_ st) in
  (forall other, other <> call_ ->
     Dxcc.dxcc_cache st' !! other = Dxcc.dxcc_cache st !! other)
  /\ (forall k, is_Some (Dxcc.dxcc_cache st !! k) ->
        is_Some (Dxcc.dxcc_cache st' !! k))
  /\ (Dxcc.dxcc_cache st' !! call_ = Dxcc.dxcc_cache st !! call_
      \/ exists data, resp = Dxcc.Answer data
           /\ Dxcc.dxcc_cache st' !! call_ = Some (Dxcc.normalize data, now)).
Proof.
  intros st'. subst st'.
  destruct (lookup_cache c now resp call_ st) as [-> | (data & -> & _ & ->)].
  - repeat split; auto.
  - split; [| split].
    + intros other Hne. now rewrite lookup_insert_ne.
    + intros k Hk. destruct (decide (call_ = k)) as [<- | Hne].
      * rewrite lookup_insert_eq. eauto.
      * now rewrite lookup_insert_ne.
    + right. exists data. split; [reflexivity | apply lookup_insert_eq].
Qed.

(** The entry of another call sign after a lookup for DL1XYZ. *)
Lemma dxcc_lookup_keeps_entries_witness :
  Dxcc.dxcc_cache
    (snd (Dxcc.dxcc_lookup DEFAULT_CONFIG 0 (Dxcc.Answer sample_payload)
            "DL1XYZ" cold)) !! "K1ABC"
  = Dxcc.dxcc_cache cold !! "K1ABC".
Proof.
  apply (proj1 (dxcc_lookup_keeps_entries DEFAULT_CONFIG 0
                  (Dxcc.Answer sample_payload) "DL1XYZ" cold) "K1ABC").
  discriminate.
Defined.

(** X10. The error counter is diagnostic only: whatever it holds, a lookup
    returns the same record, leaves the same cache and sends the same
    requests.  After a lookup it is zero if a request was answered, one
    more if a request failed, and unchanged if no request was sent. *)
Theorem error_counter_is_diagnostic (c : config) (now : Q)
    (resp : Dxcc.response) (call_ : string) (st : Dxcc.state) (k : Z) :
  let r := Dxcc.dxcc_lookup c now resp call_ st in
  let rk := Dxcc.dxcc_lookup c now resp call_ (with_errors k st) in
  (fst rk = fst r
   /\ Dxcc.dxcc_cache (snd rk) = Dxcc.dxcc_cache (snd r)
   /\ Dxcc.outbound (snd rk) = Dxcc.outbound (snd r))
  /\ Dxcc.consecutive_dxcc_errors (snd rk)
     = if Dxcc.calls_between st (snd r) =? 0 then k
       else match resp with
            | Dxcc.Answer _ => 0
            | _ => k + 1
            end.
Proof.
  cbv zeta. unfold Dxcc.dxcc_lookup, Dxcc.calls_between, with_errors.
  cbn [Dxcc.dxcc_cache Dxcc.outbound Dxcc.consecutive_dxcc_errors].
  destruct (match Dxcc.dxcc_cache st !! call_ with
            | Some entry =>
                if Dxcc.fresh now entry then Some (fst entry) else None
            | None => None
            end).
  - cbn. rewrite Z.sub_diag. cbn. repeat split.
  - destruct resp; cbn [fst snd Dxcc.dxcc_cache Dxcc.outbound
                         Dxcc.consecutive_dxcc_errors length];
      (destruct (Z.eqb_spec (Z.of_nat (S (length (Dxcc.outbound st)))
                             - Z.of_nat (length (Dxcc.outbound st))) 0);
       [lia | repeat split]).
Qed.

(** X11. Enriching a spot sends at most two requests and never clears an
    enrichment the spot already has; every other field of the spot is kept.
    When spotter and spotted are the same call sign, the first lookup finds
    no fresh entry and is answered, and the second lookup follows within
    the hour, one request serves both fields. *)
Theorem populate_dxcc_requests (c : config) (now1 now2 : Q)
    (resp1 resp2 : Dxcc.response) (s : spot) (st : Dxcc.state) :
  let r := populate_dxcc c now1 now2 resp1 resp2 s st in
  0 <= Dxcc.calls_between st (snd r) <= 2
  /\ (is_Some (dxcc_spotter s) -> is_Some (dxcc_spotter (fst r)))
  /\ (is_Some (dxcc_spotted s) -> is_Some (dxcc_spotted (fst r)))
  /\ (spotter (fst r), spotted (fst r), frequency (fst r), message (fst r),
      when (fst r), source (fst r), band (fst r))
     = (spotter s, spotted s, frequency s, message s, when s, source s, band s)
  /\ (forall data,
        spotter s = spotted s -> cache_miss now1 (spotter s) st ->
        resp1 = Dxcc.Answer data -> (now2 - now1 < 3600 # 1)%Q ->
        Dxcc.calls_between st (snd r) = 1
        /\ dxcc_spotter (fst r) = Some (Dxcc.normalize data)
        /\ dxcc_spotted (fst r) = Some (Dxcc.normalize data)).
Proof.
  cbv zeta. unfold populate_dxcc.
  pose proof (lookup_calls c now1 resp1 (spotter s) st) as H1.
  destruct (Dxcc.dxcc_lookup c now1 resp1 (spotter s) st) as [s1 st1] eqn:E1.
  pose proof (lookup_calls c now2 resp2 (spotted s) st1) as H2.
  destruct (Dxcc.dxcc_lookup c now2 resp2 (spotted s) st1) as [s2 st2] eqn:E2.
  cbn [fst snd] in *.
  split; [rewrite (calls_between_trans st st1 st2); lia|].
  split; [intros [v ->]; cbn; destruct s1; eauto|].
  split; [intros [v ->]; cbn; destruct s2; eauto|].
  split; [reflexivity|].
  intros data Hsame Hmiss -> Hin.
  destruct (lookup_miss_answer c now1 data (spotter s) st Hmiss)
    as (st1' & E & Hc & Hn).
  rewrite E in E1. injection E1 as <- <-.
  rewrite <- Hsame in E2.
  rewrite (lookup_hit c now2 resp2 (spotter s) st1' _ now1 Hc Hin) in E2.
  injection E2 as <- <-. cbn. repeat split. exact Hn.
Qed.

(** A spot whose spotter and spotted call signs are the same. *)
Lemma populate_dxcc_requests_witness :
  let s := {| spotter := "DL1XYZ"; spotted := "DL1XYZ";
              frequency := PyStr "14074"; message := "test";
              when := "2025-11-11T18:22:07.123456Z"; source := "cluster";
              band := "20m"; dxcc_spotter := None; dxcc_spotted := None |} in
  let r := populate_dxcc DEFAULT_CONFIG 0 1 (Dxcc.Answer sample_payload)
             Dxcc.Failed s cold in
  Dxcc.calls_between cold (snd r) = 1
  /\ dxcc_spotter (fst r) = Some (Dxcc.normalize sample_payload)
  /\ dxcc_spotted (fst r) = Some (Dxcc.normalize sample_payload).
Proof.
  intros s.
  apply (proj2 (proj2 (proj2 (proj2
           (populate_dxcc_requests DEFAULT_CONFIG 0 1
              (Dxcc.Answer sample_payload) Dxcc.Failed s cold))))
           sample_payload).
  - reflexivity.
  - intros entry He. cbn in He. rewrite lookup_empty in He. discriminate.
  - reflexivity.
  - reflexivity.
Defined.

(** ** Timestamp reconstruction, further *)

(** X12. A reconstructed timestamp keeps the clock's second and
    microsecond, differs from the clock by a whole number of minutes, and
    lies less than 24 hours behind the clock and at most 12 hours ahead of
    it. *)
Theorem parse_z_time_window (now r : DT.datetime) (timestr : string)
    (hh mm : Z) :
  DT.valid now = true -> 1 < ordinal now ->
  (String.length (Py.rstrip_char "Z" timestr) = 3
   \/ String.length (Py.rstrip_char "Z" timestr) = 4)%nat ->
  hour_minute (Py.rstrip_char "Z" timestr) = Ok (hh, mm) ->
  0 <= hh <= 23 -> 0 <= mm <= 59 ->
  parse_z_time now timestr = Ok r ->
  - DT.hours 24 < DT.diff r now <= DT.hours 12
  /\ (exists minutes, DT.diff r now = minutes * 60 * 1000000)
  /\ (DT.hour r, DT.minute r, DT.second r, DT.microsecond r)
     = (hh, mm, DT.second now, DT.microsecond now).
Proof.
  intros Hv Hord Hlen Hhm Hh Hm Hr.
  rewrite (parse_z_time_eq now timestr hh mm Hv Hlen Hhm Hh Hm) in Hr.
  destruct (valid_inv now Hv) as (_ & Hnh & Hnm & _).
  pose proof (diff_at_time now hh mm) as Hd.
  assert (Hrange : -1439 <= minutes_ahead now hh mm <= 1439)
    by (unfold minutes_ahead; lia).
  destruct (Z.ltb_spec 720 (minutes_ahead now hh mm)) as [Hahead | Hnot].
  - destruct (minus_one_day_spec (at_time now hh mm)
                (at_time_valid now hh mm Hv Hh Hm) Hord)
      as (r' & Er & _ & _ & Eu & Et).
    rewrite Er in Hr. injection Hr as <-.
    assert (E : DT.diff r' now
                = (minutes_ahead now hh mm - 1440) * 60 * 1000000).
    { unfold DT.diff in *. rewrite Eu. unfold DT.hours. lia. }
    split; [rewrite E; unfold DT.hours; lia|].
    split; [eexists; exact E | exact Et].
  - injection Hr as <-.
    split; [rewrite Hd; unfold DT.hours; lia|].
    split; [eexists; exact Hd | reflexivity].
Qed.

(** "2359Z" read five minutes after midnight. *)
Lemma parse_z_time_window_witness :
  - DT.hours 24 < DT.diff (DT.mk 2025 11 11 23 59 7 123456)
                          (DT.mk 2025 11 12 0 5 7 123456) <= DT.hours 12
  /\ (exists minutes,
        DT.diff (DT.mk 2025 11 11 23 59 7 123456)
                (DT.mk 2025 11 12 0 5 7 123456) = minutes * 60 * 1000000)
  /\ (23, 59, 7, 123456) = (23, 59, 7, 123456).
Proof.
  apply (parse_z_time_window (DT.mk 2025 11 12 0 5 7 123456)
           (DT.mk 2025 11 11 23 59 7 123456) "2359Z" 23 59).
  - reflexivity.
  - vm_compute. reflexivity.
  - right. reflexivity.
  - reflexivity.
  - lia.
  - lia.
  - vm_compute. reflexivity.
Defined.

(** ** Band and stored frequency *)

Section BandFrequency.

Lemma within_trunc (lo hi : Z) (q : Q) :
  0 <= lo -> within lo (PFin q) hi = true ->
  lo <= Z.quot (Qnum q) (Zpos (Qden q)) < hi.
Proof.
  intros Hlo H. unfold within in H. apply andb_true_iff in H as [H1 H2].
  cbn in H1, H2. rewrite Qltb_lt in H1, H2.
  unfold Qlt in H1, H2. cbn in H1, H2.
  destruct q as [n d]. cbn in *.
  assert (Hn : 0 <= n) by nia.
  rewrite Z.quot_div_nonneg by lia. split.
  - apply Z.div_le_lower_bound; lia.
  - apply Z.div_lt_upper_bound; lia.
Qed.

Lemma outside_trunc (lo hi : Z) (q : Q) :
  0 <= lo -> within lo (PFin q) hi = false ->
  ~ (lo < Z.quot (Qnum q) (Zpos (Qden q)) < hi).
Proof.
  intros Hlo H [H1 H2]. unfold within in H. apply andb_false_iff in H.
  cbn in H. destruct q as [n d]. cbn in *.
  assert (Hn : 0 < n).
  { destruct (Z.lt_trichotomy n 0) as [Hneg | [-> | Hpos]]; [| | exact Hpos].
    - pose proof (Z.quot_opp_l (- n) (Zpos d) ltac:(lia)) as E.
      rewrite Z.opp_involutive in E.
      pose proof (Z.quot_pos (- n) (Zpos d) ltac:(lia) ltac:(lia)). lia.
    - rewrite Z.quot_0_l in H1 by lia. lia. }
  rewrite Z.quot_div_nonneg in H1, H2 by lia.
  pose proof (Z.div_mod n (Zpos d) ltac:(lia)) as Hdm.
  pose proof (Z.mod_pos_bound n (Zpos d) ltac:(lia)) as Hmb.
  destruct H as [H | H]; apply not_true_iff_false in H; apply H;
    apply Qltb_lt; unfold Qlt; cbn; nia.
Qed.

Lemma qrg2band_khz_label_inv (v : pyval) (f : pyfloat) (b : Z * Z * string) :
  py_float v = Ok f -> b ∈ bands -> qrg2band_khz v = band_label b ->
  in_band f b.
Proof.
  unfold in_band, bands, qrg2band_khz. intros Hf Hb. rewrite Hf.
  repeat (apply elem_of_cons in Hb as [-> | Hb]);
    try (apply elem_of_nil in Hb; contradiction);
    cbn [band_lo band_hi band_label fst snd];
    repeat match goal with
    | |- context [if within ?a f ?c then _ else _] =>
        let E := fresh "E" in
        destruct (within a f c) eqn:E;
        [ intros H; first [ discriminate H | reflexivity ] | ]
    end; intros H; discriminate H.
Qed.

Lemma qrg2band_khz_empty_inv (v : pyval) (f : pyfloat) (b : Z * Z * string) :
  py_float v = Ok f -> b ∈ bands -> qrg2band_khz v = "" ->
  within (band_lo b) f (band_hi b) = false.
Proof.
  intros Hf Hb H. apply not_true_is_false. intros Hin.
  rewrite (qrg2band_khz_in_band v f b Hf Hb Hin) in H.
  unfold bands in Hb.
  repeat (apply elem_of_cons in Hb as [-> | Hb]);
    try (apply elem_of_nil in Hb; contradiction); discriminate H.
Qed.

Lemma band_lo_nonneg (b : Z * Z * string) : b ∈ bands -> 0 <= band_lo b.
Proof.
  unfold bands. intros Hb.
  repeat (apply elem_of_cons in Hb as [-> | Hb]);
    try (apply elem_of_nil in Hb; contradiction); cbn; lia.
Qed.

End BandFrequency.

Section RecordBand.
Implicit Types (now : DT.datetime) (s : spot).

Lemma shdx_spot_band now (m : groups) s :
  shdx_spot now m = Ok s ->
  exists (fq : string) (f : pyfloat) (khz : Z),
    py_float (PyStr fq) = Ok f /\ int_of_float f = Ok khz
    /\ frequency s = PyInt khz /\ band s = qrg2band_khz (PyStr fq).
Proof.
  unfold shdx_spot.
  destruct (group "freq" m) as [fq|]; [|discriminate].
  destruct (group "spotted" m) as [sd|]; [|discriminate].
  destruct (group "date" m) as [date_str|]; [|discriminate].
  destruct (group "time" m) as [timestr|]; [|discriminate].
  destruct (group "message" m) as [msg|]; [|discriminate].
  destruct (group "spotter" m) as [sp|]; [|discriminate].
  destruct (DT.strptime_replace _ _ _ _) as [dt|]; cbn [rbind];
    [|discriminate].
  destruct (py_float (PyStr fq)) as [f|] eqn:Hf; cbn [rbind]; [|discriminate].
  destruct (int_of_float f) as [khz|] eqn:Hk; cbn [rbind]; [|discriminate].
  intros [= <-]. exists fq, f, khz. cbn. repeat split; assumption.
Qed.

(** What both grammars store: the truncated value of a float literal, and
    the band of that literal. *)
Lemma record_frequency_band now (text : string) s :
  parse_line now text = Ok (Relay s) \/ parse_line now text = Ok (BulkListing s) ->
  exists (fq : string) (q : Q),
    py_float (PyStr fq) = Ok (PFin q)
    /\ (frequency s = PyStr (Py.str_of_int (Z.quot (Qnum q) (Zpos (Qden q))))
        \/ frequency s = PyInt (Z.quot (Qnum q) (Zpos (Qden q))))
    /\ band s = qrg2band_khz (PyStr fq).
Proof.
  intros [H | H].
  - destruct (parse_line_relay_inv now text s H) as (m & _ & Hr).
    destruct (relay_spot_inv now m s Hr)
      as (rest & fq & f & khz & _ & _ & Hf & Hk & Hfr & _ & _ & Hb).
    destruct f as [q| | |]; try discriminate. injection Hk as <-.
    exists fq, q. auto.
  - destruct (parse_line_listing_inv now text s H) as (m & _ & _ & Hr).
    destruct (shdx_spot_band now m s Hr) as (fq & f & khz & Hf & Hk & Hfr & Hb).
    destruct f as [q| | |]; try discriminate. injection Hk as <-.
    exists fq, q. auto.
Qed.

End RecordBand.

(** X13. The band label of a record agrees with the frequency it stores.
    When the label is that of a range, the stored kHz value is at least the
    range's lower limit and below its upper limit (the limit itself can be
    stored, for a literal such as 1000.5); when the label is empty, the
    stored value is not strictly inside any range.  The label is always
    empty or one of the table's. *)
Theorem record_band_matches_frequency (now : DT.datetime) (text : string)
    (s : spot) :
  parse_line now text = Ok (Relay s) \/ parse_line now text = Ok (BulkListing s) ->
  exists khz,
    (frequency s = PyStr (Py.str_of_int khz) \/ frequency s = PyInt khz)
    /\ (forall b, b ∈ bands -> band s = band_label b ->
          band_lo b <= khz < band_hi b)
    /\ (band s = "" ->
        forall b, b ∈ bands -> ~ (band_lo b < khz < band_hi b))
    /\ (band s = "" \/ exists b, b ∈ bands /\ band s = band_label b).
Proof.
  intros H.
  destruct (record_frequency_band now text s H) as (fq & q & Hf & Hfr & Hb).
  exists (Z.quot (Qnum q) (Zpos (Qden q))). split; [exact Hfr|].
  split; [| split].
  - intros b Hin Hl. rewrite Hb in Hl.
    apply within_trunc; [now apply band_lo_nonneg|].
    exact (qrg2band_khz_label_inv _ _ _ Hf Hin Hl).
  - intros He b Hin. rewrite Hb in He.
    apply outside_trunc; [now apply band_lo_nonneg|].
    exact (qrg2band_khz_empty_inv _ _ _ Hf Hin He).
  - rewrite Hb. unfold qrg2band_khz. rewrite Hf.
    repeat match goal with
    | |- context [within ?a (PFin q) ?c] =>
        destruct (within a (PFin q) c);
        [ right; eexists (a, c, _); split;
          [ unfold bands; repeat first [ apply list_elem_of_here
                                       | apply list_elem_of_further ]
          | reflexivity ]
        | ]
    end.
    now left.
Qed.

(** The sample relay line: 14074 kHz lies in the 20 m range. *)
Lemma record_band_matches_frequency_witness :
  exists khz,
    (PyStr "14074" = PyStr (Py.str_of_int khz) \/ PyStr "14074" = PyInt khz)
    /\ 13000 <= khz < 15000.
Proof.
  destruct (record_band_matches_frequency sample_now relay_line
              {| spotter := "K1ABC"; spotted := "DL1XYZ";
                 frequency := PyStr "14074"; message := "FT8 CQ DX";
                 when := "2025-11-11T18:22:07.123456Z"; source := "cq";
                 band := "20m"; dxcc_spotter := None; dxcc_spotted := None |}
              ltac:(left; vm_compute; reflexivity))
    as (khz & Hf & Hb & _).
  exists khz. split; [exact Hf|].
  apply (Hb (13000, 15000, "20m")); [|reflexivity].
  unfold bands. repeat first [ apply list_elem_of_here
                             | apply list_elem_of_further ].
Defined.

(** ** The read loop over a run of lines *)

Section BatchFacts.
Implicit Types (now : DT.datetime) (st : store).

Lemma handle_line_cache now (line : string) st :
  synced st ->
  cfg (handle_line now line st) = cfg st
  /\ synced (handle_line now line st)
  /\ Deque.items (spots (handle_line now line st))
     = most_recent (Z.to_nat (maxcache (cfg st)))
         (Deque.items (spots st) ++ parsed_records [(now, line)]).
Proof.
  intros [Hm Hb].
  assert (Hk : 0 <= maxcache (cfg st)) by (rewrite <- Hm; apply Hb).
  assert (Hsame : most_recent (Z.to_nat (maxcache (cfg st)))
                    (Deque.items (spots st) ++ [])
                  = Deque.items (spots st)).
  { rewrite app_nil_r. apply most_recent_all.
    destruct Hb as [_ Hl]. unfold Deque.len in Hl. lia. }
  assert (Hnone : cfg st = cfg st /\ synced st
                  /\ Deque.items (spots st)
                     = most_recent (Z.to_nat (maxcache (cfg st)))
                         (Deque.items (spots st) ++ [])).
  { split; [reflexivity|]. split; [split; assumption | now rewrite Hsame]. }
  unfold handle_line, parsed_records. cbn [flat_map fst snd]. cbv zeta.
  destruct (String.eqb (Py.strip line) "");
    [rewrite app_nil_r; rewrite app_nil_r in Hnone; exact Hnone|].
  destruct (parse_line now (Py.strip line)) as [[s | s |] | e];
    rewrite app_nil_r.
  - destruct (relay_store_items st s Hb (or_introl Hm))
      as (st' & -> & Hc & Hs & Hi).
    now rewrite Hc.
  - split; [reflexivity|]. split.
    + split; [exact Hm | now apply append_bounded].
    + rewrite (shdx_store_items st s Hb). now rewrite Hm.
  - rewrite app_nil_r in Hnone. exact Hnone.
  - rewrite app_nil_r in Hnone. exact Hnone.
Qed.

Lemma parsed_records_cons (x : DT.datetime * string)
    (feed : list (DT.datetime * string)) :
  parsed_records (x :: feed) = parsed_records [x] ++ parsed_records feed.
Proof. unfold parsed_records. cbn [flat_map]. now rewrite app_nil_r. Qed.

Lemma handle_lines_run (feed : list (DT.datetime * string)) (st : store) :
  synced st ->
  let st' := handle_lines feed st in
  cfg st' = cfg st
  /\ synced st'
  /\ Deque.items (spots st')
     = most_recent (Z.to_nat (maxcache (cfg st)))
         (Deque.items (spots st) ++ parsed_records feed).
Proof.
  revert st. induction feed as [|[now line] feed IH]; intros st Hs st'.
  - subst st'. cbn. split; [reflexivity|]. split; [exact Hs|].
    rewrite app_nil_r. symmetry. apply most_recent_all.
    destruct Hs as [Hm [_ Hl]]. unfold Deque.len in Hl. lia.
  - destruct (handle_line_cache now line st Hs) as (Hc1 & Hs1 & Hi1).
    destruct (IH (handle_line now line st) Hs1) as (Hc2 & Hs2 & Hi2).
    subst st'.
    change (handle_lines ((now, line) :: feed) st)
      with (handle_lines feed (handle_line now line st)).
    split; [now rewrite Hc2|]. split; [exact Hs2|].
    rewrite Hi2, Hc1, Hi1, most_recent_app.
    rewrite (parsed_records_cons (now, line) feed).
    now rewrite app_assoc.
Qed.

End BatchFacts.

(** X14. After any run of received lines, on a cache that is within its
    configured bound, the configuration is untouched and the cache holds
    exactly the most recent records the two grammars made of the lines, up
    to the configured capacity, in arrival order; blank lines, lines
    matching neither grammar and lines whose record cannot be built add
    nothing. *)
Theorem handle_lines_cache (feed : list (DT.datetime * string)) (st : store) :
  synced st ->
  let st' := handle_lines feed st in
  cfg st' = cfg st
  /\ synced st'
  /\ Deque.items (spots st')
     = most_recent (Z.to_nat (maxcache (cfg st)))
         (Deque.items (spots st) ++ parsed_records feed).
Proof. intros Hs. exact (handle_lines_run feed st Hs). Qed.

(** Three lines on a cache of two places: a listing line, a line of
    noise, a relay line. *)
Lemma handle_lines_cache_witness :
  let feed := [(sample_now, listing_line); (sample_now, "hello");
               (sample_now, relay_line)] in
  let st' := handle_lines feed (sample_store 2) in
  cfg st' = cfg (sample_store 2)
  /\ synced st'
  /\ Deque.items (spots st')
     = most_recent (Z.to_nat (maxcache (cfg (sample_store 2))))
         (Deque.items (spots (sample_store 2)) ++ parsed_records feed).
Proof.
  apply (handle_lines_cache
           [(sample_now, listing_line); (sample_now, "hello");
            (sample_now, relay_line)] (sample_store 2)).
  unfold synced, bounded, Deque.len. cbn. lia.
Defined.

(** ** Decimal text of a non-negative integer *)

Section DecimalText.
Implicit Types (d : Decimal.uint) (acc : Z) (n : nat).

Lemma digitpart_uint d : forall acc n,
  Py.digitpart (NilEmpty.string_of_uint d) acc n
  = (uint_value d acc, (n + Decimal.nb_digits d)%nat, "").
Proof.
  induction d; intros acc n; cbn [NilEmpty.string_of_uint Decimal.nb_digits];
    [now rewrite Nat.add_0_r|..];
    (cbn [Py.digitpart uint_value];
     match goal with
     | |- context [Py.digitpart _ (_ + Py.digit_val ?c)] =>
         change (Py.is_digit c) with true
     end; cbv iota; rewrite IHd;
     rewrite Nat.add_succ_r; cbn [Nat.add];
     match goal with
     | |- context [Py.digit_val ?c] =>
         let v := eval vm_compute in (Py.digit_val c) in
         change (Py.digit_val c) with v
     end;
     rewrite ?Z.add_0_r; reflexivity).
Qed.

Lemma digits_uint d :
  forallb Py.is_digit (list_ascii_of_string (NilEmpty.string_of_uint d))
  = true.
Proof.
  induction d; cbn [NilEmpty.string_of_uint list_ascii_of_string forallb];
    [reflexivity|..];
    (match goal with
     | |- context [Py.is_digit ?c && _] => change (Py.is_digit c) with true
     end; exact IHd).
Qed.

Lemma length_uint d :
  String.length (NilEmpty.string_of_uint d) = Decimal.nb_digits d.
Proof.
  induction d; cbn [NilEmpty.string_of_uint String.length Decimal.nb_digits];
    congruence.
Qed.

Lemma uint_value_bounds d : forall acc,
  0 <= acc ->
  acc * 10 ^ Z.of_nat (Decimal.nb_digits d) <= uint_value d acc
  /\ uint_value d acc < (acc + 1) * 10 ^ Z.of_nat (Decimal.nb_digits d).
Proof.
  induction d; intros acc Hacc; cbn [uint_value Decimal.nb_digits];
    [cbn; lia|..];
    (rewrite Nat2Z.inj_succ, Z.pow_succ_r by lia;
     match goal with
     | |- context [uint_value d ?a] =>
         destruct (IHd a ltac:(lia)) as [Hlo Hhi]
     end;
     assert (Hp : 0 < 10 ^ Z.of_nat (Decimal.nb_digits d))
       by (apply Z.pow_pos_nonneg; lia);
     split; nia).
Qed.

Lemma of_uint_acc_value d : forall p,
  Z.pos (Pos.of_uint_acc d p) = uint_value d (Z.pos p).
Proof.
  induction d; intros p; cbn [Pos.of_uint_acc uint_value];
    [reflexivity|..]; rewrite IHd; f_equal; lia.
Qed.

Lemma of_uint_value d : Z.of_N (Pos.of_uint d) = uint_value d 0.
Proof.
  induction d; cbn [Pos.of_uint uint_value]; try reflexivity;
    try exact IHd;
    (cbn [Z.of_N]; rewrite of_uint_acc_value; reflexivity).
Qed.

(** The digits of a positive number: they read the number and begin with
    a digit other than zero. *)
Lemma to_uint_value (p : positive) : uint_value (Pos.to_uint p) 0 = Z.pos p.
Proof.
  rewrite <- of_uint_value, DecimalPos.Unsigned.of_to. reflexivity.
Qed.

Lemma to_uint_size (p : positive) (w : nat) :
  Z.pos p < 10 ^ Z.of_nat w ->
  (1 <= Decimal.nb_digits (Pos.to_uint p) <= w)%nat.
Proof.
  intros Hlt.
  pose proof (to_uint_value p) as Hv.
  pose proof (DecimalPos.Unsigned.to_uint_nonnil p) as Hnn.
  pose proof (DecimalPos.Unsigned.to_uint_nonzero p) as Hnz.
  pose proof (DecimalPos.Unsigned.to_of (Pos.to_uint p)) as Hn.
  rewrite DecimalPos.Unsigned.of_to in Hn. cbn [N.to_uint] in Hn.
  assert (Hsmall : forall l k, 1 <= k ->
            uint_value l k = Z.pos p -> (S (Decimal.nb_digits l) <= w)%nat).
  { intros l k Hk Hl.
    destruct (uint_value_bounds l k ltac:(lia)) as [Hlo _].
    assert (Hp : 0 < 10 ^ Z.of_nat (Decimal.nb_digits l))
      by (apply Z.pow_pos_nonneg; lia).
    assert (Hpw : 10 ^ Z.of_nat (Decimal.nb_digits l) < 10 ^ Z.of_nat w)
      by nia.
    apply Z.pow_lt_mono_r_iff in Hpw; lia. }
  destruct (Pos.to_uint p) as [|l|l|l|l|l|l|l|l|l|l] eqn:E;
    cbn [Decimal.nb_digits uint_value] in *; try congruence;
    try (split; [lia | eapply Hsmall; [|exact Hv]; lia]).
  (* a leading zero *)
  exfalso.
  destruct l as [|m|m|m|m|m|m|m|m|m|m].
  - apply Hnz. reflexivity.
  - rewrite DecimalFacts.unorm_D0 in Hn.
    pose proof (DecimalFacts.nb_digits_unorm (Decimal.D0 m)) as Hle.
    rewrite <- Hn in Hle. cbn [Decimal.nb_digits] in Hle.
    specialize (Hle ltac:(discriminate)). lia.
  - cbn in Hn; discriminate Hn.
  - cbn in Hn; discriminate Hn.
  - cbn in Hn; discriminate Hn.
  - cbn in Hn; discriminate Hn.
  - cbn in Hn; discriminate Hn.
  - cbn in Hn; discriminate Hn.
  - cbn in Hn; discriminate Hn.
  - cbn in Hn; discriminate Hn.
  - cbn in Hn; discriminate Hn.
Qed.

Lemma str_of_int_nonneg (z : Z) (w : nat) :
  0 <= z < 10 ^ Z.of_nat w -> (1 <= w)%nat ->
  exists d, Py.str_of_int z = NilEmpty.string_of_uint d
            /\ uint_value d 0 = z
            /\ (Decimal.nb_digits d <= w)%nat.
Proof.
  intros [H0 Hlt] Hw. unfold Py.str_of_int.
  destruct z as [|p|p]; [| |lia].
  - exists (Decimal.D0 Decimal.Nil). cbn. repeat split; lia.
  - exists (Pos.to_uint p).
    pose proof (DecimalPos.Unsigned.to_uint_nonnil p) as Hnn.
    cbn [Z.to_int NilZero.string_of_int].
    split; [|split; [apply to_uint_value | now apply to_uint_size]].
    unfold NilZero.string_of_uint.
    destruct (Pos.to_uint p); [congruence|reflexivity..].
Qed.

Lemma digitpart_zeros (k : nat) (s : string) : forall n,
  Py.digitpart (Py.zeros k +:+ s) 0 n = Py.digitpart s 0 (n + k)%nat.
Proof.
  induction k as [|k IH]; intros n.
  - change (Py.zeros 0 +:+ s) with s. now rewrite Nat.add_0_r.
  - change (Py.digitpart (Py.zeros (S k) +:+ s) 0 n)
      with (Py.digitpart (Py.zeros k +:+ s) 0 (S n)).
    rewrite IH. f_equal. lia.
Qed.

Lemma chars_append (a b : string) :
  list_ascii_of_string (a +:+ b)
  = list_ascii_of_string a ++ list_ascii_of_string b.
Proof.
  induction a as [|c a IH]; [reflexivity|].
  change (c :: list_ascii_of_string (a +:+ b)
          = c :: (list_ascii_of_string a ++ list_ascii_of_string b)).
  now rewrite IH.
Qed.

Lemma digits_zeros (k : nat) :
  forallb Py.is_digit (list_ascii_of_string (Py.zeros k)) = true.
Proof. induction k; [reflexivity | exact IHk]. Qed.

Lemma length_zeros (k : nat) : String.length (Py.zeros k) = k.
Proof. induction k; cbn [Py.zeros String.length]; congruence. Qed.

(** Zero padding to [w] places writes exactly [w] digits that read the
    number back, for a number of at most [w] digits. *)
Lemma zpad_digits (w : nat) (z : Z) :
  0 <= z < 10 ^ Z.of_nat w -> (1 <= w)%nat -> digits_of w z (Py.zpad w z).
Proof.
  intros Hz Hw.
  destruct (str_of_int_nonneg z w Hz Hw) as (d & Hs & Hv & Hn).
  unfold digits_of, Py.zpad. cbv zeta. rewrite Hs, length_uint.
  split; [|split].
  - rewrite length_append, length_zeros, length_uint. lia.
  - rewrite chars_append, forallb_app, digits_zeros, digits_uint.
    reflexivity.
  - rewrite digitpart_zeros, digitpart_uint. exact Hv.
Qed.

End DecimalText.

(** ** Timestamps as text *)

Section ReplaceFacts.

Lemma starts_with_refl (s : string) : Py.starts_with s s = true.
Proof.
  induction s as [|c s IH]; [reflexivity|].
  cbn [Py.starts_with]. now rewrite Ascii.eqb_refl, IH.
Qed.

Lemma drop_all (s : string) : Py.drop (String.length s) s = "".
Proof. induction s as [|c s IH]; [reflexivity | exact IH]. Qed.

Lemma replace_fuel_empty (fuel : nat) (old new : string) :
  Py.replace_fuel fuel old new "" = "".
Proof. destruct fuel; reflexivity. Qed.

(** A text that ends with [old] and has the first character of [old]
    nowhere before that: only the end is replaced. *)
Lemma replace_fuel_suffix (o : ascii) (old' new body : string) :
  any_char (Ascii.eqb o) body = false ->
  forall fuel, (String.length (body +:+ String o old') <= fuel)%nat ->
  Py.replace_fuel fuel (String o old') new (body +:+ String o old')
  = body +:+ new.
Proof.
  intros Hbody. induction body as [|c body IH]; intros fuel Hfuel.
  - change ("" +:+ String o old') with (String o old') in *.
    change ("" +:+ new) with new.
    destruct fuel as [|fuel]; [cbn in Hfuel; lia|].
    cbn [Py.replace_fuel]. rewrite starts_with_refl, drop_all.
    rewrite replace_fuel_empty.
    clear. induction new as [|c new IH]; [reflexivity|].
    change (String c new +:+ "") with (String c (new +:+ "")).
    now rewrite IH.
  - change (String c body +:+ String o old')
      with (String c (body +:+ String o old')) in *.
    change (String c body +:+ new) with (String c (body +:+ new)).
    cbn [any_char] in Hbody. apply orb_false_iff in Hbody as [Hc Hb].
    destruct fuel as [|fuel]; [cbn in Hfuel; lia|].
    cbn [Py.replace_fuel Py.starts_with]. rewrite Hc. cbn [andb].
    rewrite (IH Hb); [reflexivity|]. cbn [String.length] in Hfuel. lia.
Qed.

Lemma replace_suffix (o : ascii) (old' new body : string) :
  any_char (Ascii.eqb o) body = false ->
  Py.replace (String o old') new (body +:+ String o old') = body +:+ new.
Proof. intros H. unfold Py.replace. now apply replace_fuel_suffix. Qed.

Lemma any_char_append (p : ascii -> bool) (a b : string) :
  any_char p (a +:+ b) = any_char p a || any_char p b.
Proof.
  induction a as [|c a IH]; [reflexivity|].
  change (String c a +:+ b) with (String c (a +:+ b)).
  cbn [any_char]. now rewrite IH, orb_assoc.
Qed.

Lemma any_char_digits (p : ascii -> bool) (s : string) :
  (forall c, Py.is_digit c = true -> p c = false) ->
  forallb Py.is_digit (list_ascii_of_string s) = true ->
  any_char p s = false.
Proof.
  intros Hp. induction s as [|c s IH]; [reflexivity|].
  cbn [list_ascii_of_string forallb any_char].
  intros [Hc Hs]%andb_true_iff. now rewrite (Hp c Hc), IH.
Qed.

Lemma digit_not_char (o c : ascii) :
  Py.is_digit o = false -> Py.is_digit c = true -> Ascii.eqb o c = false.
Proof.
  intros Ho Hc. destruct (Ascii.eqb o c) eqn:E; [|reflexivity].
  apply Ascii.eqb_eq in E. congruence.
Qed.

End ReplaceFacts.

Section StampFacts.
Implicit Types (py pm pd ph pmi ps pf : string) (w : DT.datetime).

Ltac explode H p :=
  let Hl := fresh "Hl" in
  let Hd := fresh "Hd" in
  let Hv := fresh "Hv" in
  destruct H as (Hl & Hd & Hv);
  destruct p as [|? [|? [|? [|? [|? [|? [|? ?]]]]]]];
  cbn [String.length] in Hl; try (exfalso; lia); clear Hl.

Ltac read_fields :=
  cbv [stamp String.append];
  unfold DT.fromisoformat, DT.field, DT.char_at;
  cbn -[forallb Py.digitpart list_ascii_of_string DT.make];
  repeat match goal with
         | H : forallb _ _ = true |- _ => rewrite H
         end;
  cbn -[forallb Py.digitpart list_ascii_of_string DT.make];
  repeat match goal with
         | H : fst (fst _) = _ |- _ => rewrite H
         end.

Lemma fromisoformat_plain py pm pd ph pmi ps (y m d h mi s : Z) :
  digits_of 4 y py -> digits_of 2 m pm -> digits_of 2 d pd ->
  digits_of 2 h ph -> digits_of 2 mi pmi -> digits_of 2 s ps ->
  DT.fromisoformat (stamp py pm pd ph pmi ps +:+ "" +:+ "+00:00")
  = DT.make y m d h mi s 0.
Proof.
  intros Hy Hm Hd Hh Hmi Hs.
  explode Hy py; explode Hm pm; explode Hd pd; explode Hh ph;
    explode Hmi pmi; explode Hs ps.
  read_fields. reflexivity.
Qed.

Lemma fromisoformat_micro py pm pd ph pmi ps pf (y m d h mi s us : Z) :
  digits_of 4 y py -> digits_of 2 m pm -> digits_of 2 d pd ->
  digits_of 2 h ph -> digits_of 2 mi pmi -> digits_of 2 s ps ->
  digits_of 6 us pf ->
  DT.fromisoformat (stamp py pm pd ph pmi ps +:+ ("." +:+ pf) +:+ "+00:00")
  = DT.make y m d h mi s us.
Proof.
  intros Hy Hm Hd Hh Hmi Hs Hf.
  explode Hy py; explode Hm pm; explode Hd pd; explode Hh ph;
    explode Hmi pmi; explode Hs ps; explode Hf pf.
  read_fields. reflexivity.
Qed.

Lemma fromisoformat_milli py pm pd ph pmi ps pf (y m d h mi s ms : Z) :
  digits_of 4 y py -> digits_of 2 m pm -> digits_of 2 d pd ->
  digits_of 2 h ph -> digits_of 2 mi pmi -> digits_of 2 s ps ->
  digits_of 3 ms pf ->
  DT.fromisoformat (stamp py pm pd ph pmi ps +:+ "." +:+ pf +:+ "+00:00")
  = DT.make y m d h mi s (ms * 1000).
Proof.
  intros Hy Hm Hd Hh Hmi Hs Hf.
  explode Hy py; explode Hm pm; explode Hd pd; explode Hh ph;
    explode Hmi pmi; explode Hs ps; explode Hf pf.
  read_fields. reflexivity.
Qed.

Lemma millisecond_text_stamp py pm pd ph pmi ps pf (y m d h mi s ms : Z) :
  digits_of 4 y py -> digits_of 2 m pm -> digits_of 2 d pd ->
  digits_of 2 h ph -> digits_of 2 mi pmi -> digits_of 2 s ps ->
  digits_of 3 ms pf ->
  millisecond_text ((stamp py pm pd ph pmi ps +:+ "." +:+ pf) +:+ "Z")
  = true.
Proof.
  intros Hy Hm Hd Hh Hmi Hs Hf.
  explode Hy py; explode Hm pm; explode Hd pd; explode Hh ph;
    explode Hmi pmi; explode Hs ps; explode Hf pf.
  cbv [stamp String.append]. unfold millisecond_text.
  cbn -[forallb Py.digitpart list_ascii_of_string].
  now rewrite Hd5.
Qed.

End StampFacts.

Section StoredText.
Implicit Types (w : DT.datetime).

Lemma valid_digits w :
  DT.valid w = true ->
  digits_of 4 (DT.year w) (Py.zpad 4 (DT.year w))
  /\ digits_of 2 (DT.month w) (Py.zpad 2 (DT.month w))
  /\ digits_of 2 (DT.day w) (Py.zpad 2 (DT.day w))
  /\ digits_of 2 (DT.hour w) (Py.zpad 2 (DT.hour w))
  /\ digits_of 2 (DT.minute w) (Py.zpad 2 (DT.minute w))
  /\ digits_of 2 (DT.second w) (Py.zpad 2 (DT.second w))
  /\ digits_of 6 (DT.microsecond w) (Py.zpad 6 (DT.microsecond w))
  /\ digits_of 3 (DT.microsecond w / 1000)
       (Py.zpad 3 (DT.microsecond w / 1000)).
Proof.
  intros Hv. destruct (valid_inv w Hv) as ((Hy & Hm & Hd) & Hh & Hmi & Hs & Hu).
  assert (Hdm : DT.days_in_month (DT.year w) (DT.month w) <= 31).
  { unfold DT.days_in_month.
    repeat match goal with |- context [if ?b then _ else _] => destruct b end;
      lia. }
  assert (0 <= DT.microsecond w / 1000 < 1000).
  { split; [apply Z.div_pos; lia | apply Z.div_lt_upper_bound; lia]. }
  repeat split; apply zpad_digits; cbn; lia.
Qed.

Lemma stamp_free (o : ascii) (py pm pd ph pmi ps : string) :
  (forall c, Py.is_digit c = true -> Ascii.eqb o c = false) ->
  Ascii.eqb o "-" = false -> Ascii.eqb o "T" = false ->
  Ascii.eqb o ":" = false ->
  forallb Py.is_digit (list_ascii_of_string py) = true ->
  forallb Py.is_digit (list_ascii_of_string pm) = true ->
  forallb Py.is_digit (list_ascii_of_string pd) = true ->
  forallb Py.is_digit (list_ascii_of_string ph) = true ->
  forallb Py.is_digit (list_ascii_of_string pmi) = true ->
  forallb Py.is_digit (list_ascii_of_string ps) = true ->
  any_char (Ascii.eqb o) (stamp py pm pd ph pmi ps) = false.
Proof.
  intros Hdig H1 H2 H3 Hy Hm Hd Hh Hmi Hs. unfold stamp.
  rewrite !any_char_append.
  rewrite (any_char_digits (Ascii.eqb o) py Hdig Hy),
    (any_char_digits (Ascii.eqb o) pm Hdig Hm),
    (any_char_digits (Ascii.eqb o) pd Hdig Hd),
    (any_char_digits (Ascii.eqb o) ph Hdig Hh),
    (any_char_digits (Ascii.eqb o) pmi Hdig Hmi),
    (any_char_digits (Ascii.eqb o) ps Hdig Hs).
  cbn [any_char]. now rewrite H1, H2, H3.
Qed.

(** The text [isoformat] writes, with its offset put as [Z], turns back
    into the text [isoformat] wrote when the [Z] is put as the offset. *)
Lemma stored_text (body : string) :
  any_char (Ascii.eqb "+") body = false ->
  any_char (Ascii.eqb "Z") body = false ->
  Py.replace "+00:00" "Z" (body +:+ "+00:00") = body +:+ "Z"
  /\ Py.replace "Z" "+00:00" (body +:+ "Z") = body +:+ "+00:00".
Proof.
  intros Hp Hz. split.
  - exact (replace_suffix "+" "00:00" "Z" body Hp).
  - exact (replace_suffix "Z" "" "+00:00" body Hz).
Qed.

Lemma isoformat_body w :
  DT.valid w = true ->
  exists frac body,
    body = DT.date_time_str w +:+ frac
    /\ DT.isoformat w = body +:+ "+00:00"
    /\ any_char (Ascii.eqb "+") body = false
    /\ any_char (Ascii.eqb "Z") body = false.
Proof.
  intros Hv.
  destruct (valid_digits w Hv)
    as (Hy & Hm & Hd & Hh & Hmi & Hs & Hu & _).
  exists (if DT.microsecond w =? 0 then ""
          else "." +:+ Py.zpad 6 (DT.microsecond w)).
  eexists. split; [reflexivity|].
  split; [unfold DT.isoformat; now rewrite append_assoc3|].
  change (DT.date_time_str w)
    with (stamp (Py.zpad 4 (DT.year w)) (Py.zpad 2 (DT.month w))
            (Py.zpad 2 (DT.day w)) (Py.zpad 2 (DT.hour w))
            (Py.zpad 2 (DT.minute w)) (Py.zpad 2 (DT.second w))).
  destruct Hy as (_ & Hy & _), Hm as (_ & Hm & _), Hd as (_ & Hd & _),
    Hh as (_ & Hh & _), Hmi as (_ & Hmi & _), Hs as (_ & Hs & _),
    Hu as (_ & Hu & _).
  split.
  - rewrite any_char_append,
      (stamp_free "+" _ _ _ _ _ _ (fun c => digit_not_char "+" c eq_refl)
         eq_refl eq_refl eq_refl Hy Hm Hd Hh Hmi Hs).
    destruct (DT.microsecond w =? 0); [reflexivity|].
    rewrite any_char_append,
      (any_char_digits _ _ (fun c => digit_not_char "+" c eq_refl) Hu).
    reflexivity.
  - rewrite any_char_append,
      (stamp_free "Z" _ _ _ _ _ _ (fun c => digit_not_char "Z" c eq_refl)
         eq_refl eq_refl eq_refl Hy Hm Hd Hh Hmi Hs).
    destruct (DT.microsecond w =? 0); [reflexivity|].
    rewrite any_char_append,
      (any_char_digits _ _ (fun c => digit_not_char "Z" c eq_refl) Hu).
    reflexivity.
Qed.

Lemma isoformat_ms_body w :
  DT.valid w = true ->
  exists frac body,
    body = DT.date_time_str w +:+ frac
    /\ DT.isoformat_ms w = body +:+ "+00:00"
    /\ any_char (Ascii.eqb "+") body = false
    /\ any_char (Ascii.eqb "Z") body = false
    /\ millisecond_text (body +:+ "Z") = true.
Proof.
  intros Hv.
  destruct (valid_digits w Hv)
    as (Hy & Hm & Hd & Hh & Hmi & Hs & _ & Hu).
  exists ("." +:+ Py.zpad 3 (DT.microsecond w / 1000)).
  eexists. split; [reflexivity|].
  split; [unfold DT.isoformat_ms; now rewrite !append_assoc3|].
  change (DT.date_time_str w)
    with (stamp (Py.zpad 4 (DT.year w)) (Py.zpad 2 (DT.month w))
            (Py.zpad 2 (DT.day w)) (Py.zpad 2 (DT.hour w))
            (Py.zpad 2 (DT.minute w)) (Py.zpad 2 (DT.second w))).
  split; [|split];
    [| |exact (millisecond_text_stamp _ _ _ _ _ _ _ _ _ _ _ _ _ _
              Hy Hm Hd Hh Hmi Hs Hu)].
  all: destruct Hy as (_ & Hy & _), Hm as (_ & Hm & _), Hd as (_ & Hd & _),
    Hh as (_ & Hh & _), Hmi as (_ & Hmi & _), Hs as (_ & Hs & _),
    Hu as (_ & Hu & _).
  - rewrite any_char_append,
      (stamp_free "+" _ _ _ _ _ _ (fun c => digit_not_char "+" c eq_refl)
         eq_refl eq_refl eq_refl Hy Hm Hd Hh Hmi Hs).
    rewrite any_char_append,
      (any_char_digits _ _ (fun c => digit_not_char "+" c eq_refl) Hu).
    reflexivity.
  - rewrite any_char_append,
      (stamp_free "Z" _ _ _ _ _ _ (fun c => digit_not_char "Z" c eq_refl)
         eq_refl eq_refl eq_refl Hy Hm Hd Hh Hmi Hs).
    rewrite any_char_append,
      (any_char_digits _ _ (fun c => digit_not_char "Z" c eq_refl) Hu).
    reflexivity.
Qed.

Lemma make_valid w :
  DT.valid w = true ->
  DT.make (DT.year w) (DT.month w) (DT.day w)
          (DT.hour w) (DT.minute w) (DT.second w) (DT.microsecond w)
  = Ok w.
Proof.
  intros Hv. unfold DT.make. unfold DT.valid in Hv. rewrite Hv.
  now destruct w.
Qed.

Lemma to_millisecond_valid w :
  DT.valid w = true -> DT.valid (to_millisecond w) = true.
Proof.
  intros Hv.
  destruct (valid_inv w Hv) as ((Hy & Hm & Hd) & Hh & Hmi & Hs & Hu).
  unfold DT.valid, to_millisecond. cbn [DT.year DT.month DT.day DT.hour
    DT.minute DT.second DT.microsecond].
  apply valid_intro; try assumption.
  pose proof (Z.mul_div_le (DT.microsecond w) 1000 ltac:(lia)).
  assert (0 <= DT.microsecond w / 1000) by (apply Z.div_pos; lia).
  lia.
Qed.

Lemma fromisoformat_isoformat w :
  DT.valid w = true -> DT.fromisoformat (DT.isoformat w) = Ok w.
Proof.
  intros Hv.
  destruct (valid_digits w Hv)
    as (Hy & Hm & Hd & Hh & Hmi & Hs & Hu & _).
  unfold DT.isoformat.
  change (DT.date_time_str w)
    with (stamp (Py.zpad 4 (DT.year w)) (Py.zpad 2 (DT.month w))
            (Py.zpad 2 (DT.day w)) (Py.zpad 2 (DT.hour w))
            (Py.zpad 2 (DT.minute w)) (Py.zpad 2 (DT.second w))).
  destruct (DT.microsecond w =? 0) eqn:E.
  - rewrite (fromisoformat_plain _ _ _ _ _ _ _ _ _ _ _ _
               Hy Hm Hd Hh Hmi Hs).
    apply Z.eqb_eq in E. rewrite <- E. now apply make_valid.
  - rewrite (fromisoformat_micro _ _ _ _ _ _ _ _ _ _ _ _ _ _
               Hy Hm Hd Hh Hmi Hs Hu).
    now apply make_valid.
Qed.

Lemma fromisoformat_isoformat_ms w :
  DT.valid w = true ->
  DT.fromisoformat (DT.isoformat_ms w) = Ok (to_millisecond w).
Proof.
  intros Hv.
  destruct (valid_digits w Hv)
    as (Hy & Hm & Hd & Hh & Hmi & Hs & _ & Hu).
  unfold DT.isoformat_ms.
  change (DT.date_time_str w)
    with (stamp (Py.zpad 4 (DT.year w)) (Py.zpad 2 (DT.month w))
            (Py.zpad 2 (DT.day w)) (Py.zpad 2 (DT.hour w))
            (Py.zpad 2 (DT.minute w)) (Py.zpad 2 (DT.second w))).
  rewrite (fromisoformat_milli _ _ _ _ _ _ _ _ _ _ _ _ _ _
             Hy Hm Hd Hh Hmi Hs Hu).
  exact (make_valid (to_millisecond w) (to_millisecond_valid w Hv)).
Qed.

Lemma read_stored w :
  DT.valid w = true ->
  DT.fromisoformat
    (Py.replace "Z" "+00:00" (Py.replace "+00:00" "Z" (DT.isoformat w)))
  = Ok w.
Proof.
  intros Hv. destruct (isoformat_body w Hv) as (frac & body & Hshape & Hb & Hp & Hz).
  destruct (stored_text body Hp Hz) as [H1 H2].
  rewrite Hb, H1, H2, <- Hb. now apply fromisoformat_isoformat.
Qed.

Lemma read_stored_ms w :
  DT.valid w = true ->
  DT.fromisoformat
    (Py.replace "Z" "+00:00" (Py.replace "+00:00" "Z" (DT.isoformat_ms w)))
  = Ok (to_millisecond w).
Proof.
  intros Hv. destruct (isoformat_ms_body w Hv) as (frac & body & Hshape & Hb & Hp & Hz & _).
  destruct (stored_text body Hp Hz) as [H1 H2].
  rewrite Hb, H1, H2, <- Hb. now apply fromisoformat_isoformat_ms.
Qed.

End StoredText.

(** X15. A valid UTC datetime survives being stored and read back: the
    text the relay branch stores ([isoformat] with the offset written as
    [Z]) is read by the lookup ([Z] written back as the offset, then
    [fromisoformat]) as the same datetime, whether or not the microsecond
    is zero; the text the listing branch stores (to the millisecond) is
    read back as the datetime cut to whole milliseconds. *)
Theorem when_text_round_trip (w : DT.datetime) :
  DT.valid w = true ->
  DT.fromisoformat
    (Py.replace "Z" "+00:00" (Py.replace "+00:00" "Z" (DT.isoformat w)))
  = Ok w
  /\ DT.fromisoformat
       (Py.replace "Z" "+00:00" (Py.replace "+00:00" "Z" (DT.isoformat_ms w)))
     = Ok (to_millisecond w).
Proof.
  intros Hv. split; [now apply read_stored | now apply read_stored_ms].
Qed.

(** Leap day 2024, one microsecond before midnight. *)
Lemma when_text_round_trip_witness :
  let w := DT.mk 2024 2 29 23 59 59 999999 in
  DT.fromisoformat
    (Py.replace "Z" "+00:00" (Py.replace "+00:00" "Z" (DT.isoformat w)))
  = Ok w
  /\ DT.fromisoformat
       (Py.replace "Z" "+00:00" (Py.replace "+00:00" "Z" (DT.isoformat_ms w)))
     = Ok (to_millisecond w).
Proof.
  apply (when_text_round_trip (DT.mk 2024 2 29 23 59 59 999999)).
  reflexivity.
Defined.

(** ** The stored timestamp of a parsed record *)

Section RecordWhen.
Implicit Types (now w : DT.datetime) (s : spot).

Lemma make_inv (y m d h mi sec us : Z) w :
  DT.make y m d h mi sec us = Ok w ->
  w = DT.mk y m d h mi sec us /\ DT.valid w = true.
Proof.
  unfold DT.make.
  destruct (DT.valid_date y m d && DT.valid_time h mi sec us) eqn:E;
    [|discriminate].
  intros [= <-]. split; [reflexivity | exact E].
Qed.

Lemma minus_one_day_valid w r :
  DT.valid w = true -> DT.minus_one_day w = Ok r -> DT.valid r = true.
Proof.
  intros Hv.
  destruct (valid_inv w Hv) as ((Hy & Hm & Hd) & Hh & Hmi & Hs & Hu).
  unfold DT.minus_one_day.
  destruct (1 <? DT.day w) eqn:E1;
    [|destruct (1 <? DT.month w) eqn:E2].
  - destruct (1 <=? DT.year w); [|discriminate]. intros [= <-].
    apply Z.ltb_lt in E1. unfold DT.valid. cbn [DT.year DT.month DT.day
      DT.hour DT.minute DT.second DT.microsecond].
    apply valid_intro; lia.
  - destruct (1 <=? DT.year w); [|discriminate]. intros [= <-].
    apply Z.ltb_lt in E2. unfold DT.valid. cbn [DT.year DT.month DT.day
      DT.hour DT.minute DT.second DT.microsecond].
    pose proof (days_in_month_range (DT.year w) (DT.month w - 1)).
    apply valid_intro; lia.
  - destruct (1 <=? DT.year w - 1) eqn:E3; [|discriminate]. intros [= <-].
    apply Z.leb_le in E3. unfold DT.valid. cbn [DT.year DT.month DT.day
      DT.hour DT.minute DT.second DT.microsecond].
    apply valid_intro; try lia.
    change (DT.days_in_month (DT.year w - 1) 12) with 31. lia.
Qed.

Lemma parse_z_time_valid now (timestr : string) w :
  DT.valid now = true -> parse_z_time now timestr = Ok w ->
  DT.valid w = true.
Proof.
  intros Hv. unfold parse_z_time. cbv zeta.
  destruct (_ || _); [|now intros [= <-]].
  destruct (hour_minute _) as [[hh mm]|e]; [|discriminate].
  cbn [rbind fst snd]. unfold overlay.
  destruct (DT.make _ _ _ _ _ _ _) as [w0|e] eqn:E; [|discriminate].
  apply make_inv in E as [_ Hw0]. cbn [rbind].
  destruct (_ <? _); [|now intros [= <-]].
  now apply minus_one_day_valid.
Qed.

Lemma strptime_replace_valid (date_str timestr : string) (sec us : Z) w :
  DT.strptime_replace date_str timestr sec us = Ok w -> DT.valid w = true.
Proof.
  unfold DT.strptime_replace.
  repeat match goal with
         | |- context [match ?x with Some _ => _ | None => _ end] =>
             destruct x; try discriminate
         end.
  intros H. now apply make_inv in H.
Qed.

Lemma relay_spot_when now (m : groups) s :
  DT.valid now = true -> relay_spot now m = Ok s ->
  exists w, DT.valid w = true
            /\ when s = Py.replace "+00:00" "Z" (DT.isoformat w).
Proof.
  intros Hv. unfold relay_spot.
  destruct (group "spotter" m); [|discriminate].
  destruct (group "freq" m); [|discriminate].
  destruct (group "spotted" m); [|discriminate].
  destruct (group "rest" m); [|discriminate].
  destruct (group "time" m) as [time|]; [|discriminate].
  destruct (parse_z_time now time) as [w|e] eqn:E; [|discriminate].
  cbn [rbind]. destruct (py_float _) as [f|e]; [|discriminate].
  cbn [rbind]. destruct (int_of_float f) as [khz|e]; [|discriminate].
  cbn [rbind]. intros [= <-]. exists w.
  split; [exact (parse_z_time_valid now time w Hv E) | reflexivity].
Qed.

Lemma shdx_spot_when now (m2 : groups) s :
  shdx_spot now m2 = Ok s ->
  exists w, DT.valid w = true
            /\ when s = Py.replace "+00:00" "Z" (DT.isoformat_ms w).
Proof.
  unfold shdx_spot.
  destruct (group "freq" m2); [|discriminate].
  destruct (group "spotted" m2); [|discriminate].
  destruct (group "date" m2) as [date_str|]; [|discriminate].
  destruct (group "time" m2) as [timestr|]; [|discriminate].
  destruct (group "message" m2); [|discriminate].
  destruct (group "spotter" m2); [|discriminate].
  cbv zeta.
  destruct (DT.strptime_replace _ _ _ _) as [w|e] eqn:E; [|discriminate].
  cbn [rbind]. destruct (py_float _) as [f|e]; [|discriminate].
  cbn [rbind]. destruct (int_of_float f) as [khz|e]; [|discriminate].
  cbn [rbind]. intros [= <-]. exists w.
  split; [exact (strptime_replace_valid _ _ _ _ w E) | reflexivity].
Qed.

Lemma fromisoformat_valid (text : string) w :
  DT.fromisoformat text = Ok w -> DT.valid w = true.
Proof.
  unfold DT.fromisoformat. cbv zeta.
  destruct (match DT.char_at 19 text with Some _ => _ | None => _ end)
    as [fl|]; [|discriminate].
  repeat match goal with
         | |- context [match ?x with Some _ => _ | None => _ end] =>
             destruct x; try discriminate
         end;
    (destruct (_ && _); [|discriminate]; intros H; now apply make_inv in H).
Qed.

(** What the listing view shows for a readable stored text. *)
Lemma when_str_readable s w :
  when_of s = Ok w ->
  when_str s = Py.replace "+00:00" "Z" (DT.isoformat_ms w)
  /\ millisecond_text (when_str s) = true
  /\ DT.fromisoformat (Py.replace "Z" "+00:00" (when_str s))
     = Ok (to_millisecond w).
Proof.
  intros Hw. pose proof (fromisoformat_valid _ w Hw) as Hv.
  unfold when_str. rewrite Hw.
  destruct (isoformat_ms_body w Hv) as (frac & body & Hshape & Hb & Hp & Hz & Hms).
  destruct (stored_text body Hp Hz) as [H1 H2].
  split; [reflexivity|]. rewrite Hb, H1. split; [exact Hms|].
  rewrite H2, <- Hb. now apply fromisoformat_isoformat_ms.
Qed.

Lemma parsed_records_readable (feed : list (DT.datetime * string)) :
  Forall (fun x => DT.valid (fst x) = true) feed ->
  Forall readable (parsed_records feed).
Proof.
  induction 1 as [|[now line] feed Hv _ IH]; [constructor|].
  rewrite (parsed_records_cons (now, line) feed).
  apply Forall_app. split; [|exact IH]. cbn [fst] in Hv.
  unfold parsed_records. cbn [flat_map fst snd]. cbv zeta.
  rewrite app_nil_r.
  destruct (String.eqb _ ""); [constructor|].
  destruct (parse_line now (Py.strip line)) as [[s|s|]|e] eqn:E;
    try constructor; try constructor.
  - apply parse_line_relay_inv in E as (m & _ & Hs).
    destruct (relay_spot_when now m s Hv Hs) as (w & Hw & Hwhen).
    exists w. unfold when_of. rewrite Hwhen.
    now apply read_stored.
  - apply parse_line_listing_inv in E as (m & _ & _ & Hs).
    destruct (shdx_spot_when now m s Hs) as (w & Hw & Hwhen).
    exists (to_millisecond w). unfold when_of. rewrite Hwhen.
    now apply read_stored_ms.
Qed.

End RecordWhen.

Section ViewFacts.
Implicit Types (w : DT.datetime) (s : spot).

Lemma isoformat_ms_cut w :
  DT.isoformat_ms (to_millisecond w) = DT.isoformat_ms w.
Proof.
  unfold DT.isoformat_ms, DT.date_time_str, to_millisecond.
  cbn [DT.year DT.month DT.day DT.hour DT.minute DT.second DT.microsecond].
  now rewrite Z.div_mul by lia.
Qed.

Lemma most_recent_Forall {A : Type} (P : A -> Prop) (n : nat) (l : list A) :
  Forall P l -> Forall P (most_recent n l).
Proof. intros H. unfold most_recent. now apply Forall_drop. Qed.

Lemma handle_lines_readable (feed : list (DT.datetime * string))
    (st : store) :
  synced st ->
  Forall (fun x => DT.valid (fst x) = true) feed ->
  Forall readable (Deque.items (spots st)) ->
  Forall readable (Deque.items (spots (handle_lines feed st))).
Proof.
  intros Hs Hv Hr.
  destruct (handle_lines_run feed st Hs) as (_ & _ & Hi). rewrite Hi.
  apply most_recent_Forall, Forall_app. split; [exact Hr|].
  now apply parsed_records_readable.
Qed.

End ViewFacts.

(** X16. The timestamp of every record the two grammars build under a
    valid clock reading can be read back, and the listing view writes it
    to the millisecond.  For a relay record the text read back is the
    reconstructed time itself; for a listing record it is the parsed time
    cut to whole milliseconds, and the view shows the stored text as it
    is. *)
Theorem parsed_record_when (now : DT.datetime) (text : string) (s : spot) :
  DT.valid now = true ->
  (parse_line now text = Ok (Relay s) ->
   exists w, DT.valid w = true
     /\ when s = Py.replace "+00:00" "Z" (DT.isoformat w)
     /\ when_of s = Ok w
     /\ when_str s = Py.replace "+00:00" "Z" (DT.isoformat_ms w)
     /\ millisecond_text (when_str s) = true)
  /\ (parse_line now text = Ok (BulkListing s) ->
      exists w, DT.valid w = true
        /\ when s = Py.replace "+00:00" "Z" (DT.isoformat_ms w)
        /\ when_of s = Ok (to_millisecond w)
        /\ when_str s = when s
        /\ millisecond_text (when_str s) = true).
Proof.
  intros Hv. split; intros E.
  - apply parse_line_relay_inv in E as (m & _ & Hs).
    destruct (relay_spot_when now m s Hv Hs) as (w & Hw & Hwhen).
    assert (Hof : when_of s = Ok w)
      by (unfold when_of; rewrite Hwhen; now apply read_stored).
    destruct (when_str_readable s w Hof) as (H1 & H2 & _).
    exists w. repeat split; assumption.
  - apply parse_line_listing_inv in E as (m & _ & _ & Hs).
    destruct (shdx_spot_when now m s Hs) as (w & Hw & Hwhen).
    assert (Hof : when_of s = Ok (to_millisecond w))
      by (unfold when_of; rewrite Hwhen; now apply read_stored_ms).
    destruct (when_str_readable s _ Hof) as (H1 & H2 & _).
    exists w. repeat split; try assumption.
    now rewrite H1, isoformat_ms_cut, Hwhen.
Qed.

(** The sample relay line, read at 18:30:07.123456: the record is stamped
    18:22:07.123456 and the view shows 18:22:07.123. *)
Lemma parsed_record_when_witness :
  let s := {| spotter := "K1ABC"; spotted := "DL1XYZ";
              frequency := PyStr "14074"; message := "FT8 CQ DX";
              when := "2025-11-11T18:22:07.123456Z"; source := "cq";
              band := "20m"; dxcc_spotter := None; dxcc_spotted := None |} in
  exists w, DT.valid w = true
    /\ when_of s = Ok w
    /\ when_str s = Py.replace "+00:00" "Z" (DT.isoformat_ms w)
    /\ millisecond_text (when_str s) = true.
Proof.
  intros s.
  destruct (parsed_record_when sample_now relay_line s
              ltac:(reflexivity)) as [Hr _].
  destruct (Hr ltac:(vm_compute; reflexivity)) as (w & Hv & _ & H1 & H2 & H3).
  exists w. repeat split; assumption.
Defined.

(** X17. On a cache the read loop has filled under valid clock readings,
    starting from a cache within its bound whose timestamps can be read,
    the frequency lookup always answers (it never fails on a timestamp):
    with nothing when no record carries the frequency as text, and
    otherwise with a record of the cache that carries it and whose
    timestamp is not older than that of any other such record. *)
Theorem api_spot_after_feed (feed : list (DT.datetime * string))
    (st : store) (qrg_khz : Z) :
  synced st ->
  Forall (fun x => DT.valid (fst x) = true) feed ->
  Forall readable (Deque.items (spots st)) ->
  let d := spots (handle_lines feed st) in
  exists r, api_spot qrg_khz d = Ok r
    /\ match r with
       | None =>
           forall s, s ∈ Deque.items d ->
             py_eq (frequency s) (PyStr (Py.str_of_int qrg_khz)) = false
       | Some s =>
           s ∈ Deque.items d
           /\ frequency s = PyStr (Py.str_of_int qrg_khz)
           /\ exists t, when_of s = Ok t
                /\ forall s' t', s' ∈ Deque.items d ->
                     frequency s' = PyStr (Py.str_of_int qrg_khz) ->
                     when_of s' = Ok t' -> DT.to_us t' <= DT.to_us t
       end.
Proof.
  intros Hs Hv Hr d. apply api_spot_freshest.
  intros s Hin _.
  pose proof (handle_lines_readable feed st Hs Hv Hr) as Hall.
  rewrite Forall_forall in Hall. exact (Hall s Hin).
Qed.

Lemma api_spot_after_feed_witness :
  let feed := [(sample_now, relay_line); (sample_now, listing_line)] in
  let d := spots (handle_lines feed (sample_store 2)) in
  exists r, api_spot 14074 d = Ok r
    /\ match r with
       | None =>
           forall s, s ∈ Deque.items d ->
             py_eq (frequency s) (PyStr (Py.str_of_int 14074)) = false
       | Some s =>
           s ∈ Deque.items d
           /\ frequency s = PyStr (Py.str_of_int 14074)
           /\ exists t, when_of s = Ok t
                /\ forall s' t', s' ∈ Deque.items d ->
                     frequency s' = PyStr (Py.str_of_int 14074) ->
                     when_of s' = Ok t' -> DT.to_us t' <= DT.to_us t
       end.
Proof.
  apply (api_spot_after_feed
           [(sample_now, relay_line); (sample_now, listing_line)]
           (sample_store 2) 14074).
  - unfold synced, bounded, Deque.len. cbn. lia.
  - repeat constructor.
  - constructor.
Defined.

(** X18. The listing view of such a cache never fails either: it has one
    entry per cached record, newest first, and every entry's timestamp is
    written to the millisecond. *)
Theorem api_spots_after_feed (feed : list (DT.datetime * string))
    (st : store) :
  synced st ->
  Forall (fun x => DT.valid (fst x) = true) feed ->
  Forall readable (Deque.items (spots st)) ->
  let d := spots (handle_lines feed st) in
  length (api_spots d) = Deque.len d
  /\ map frequency (api_spots d) = rev (map frequency (Deque.items d))
  /\ Forall (fun v => millisecond_text (when v) = true) (api_spots d).
Proof.
  intros Hs Hv Hr d.
  pose proof (handle_lines_readable feed st Hs Hv Hr) as Hall.
  fold d in Hall. unfold api_spots, Deque.len.
  split; [now rewrite length_map, length_rev|]. split.
  - rewrite map_map. cbn [frequency]. now rewrite map_rev.
  - apply Forall_map. cbn [when]. apply Forall_rev.
    eapply Forall_impl; [exact Hall|].
    intros s [t Ht]. now destruct (when_str_readable s t Ht) as (_ & H & _).
Qed.

Lemma api_spots_after_feed_witness :
  let feed := [(sample_now, relay_line); (sample_now, listing_line)] in
  let d := spots (handle_lines feed (sample_store 2)) in
  length (api_spots d) = Deque.len d
  /\ map frequency (api_spots d) = rev (map frequency (Deque.items d))
  /\ Forall (fun v => millisecond_text (when v) = true) (api_spots d).
Proof.
  apply (api_spots_after_feed
           [(sample_now, relay_line); (sample_now, listing_line)]
           (sample_store 2)).
  - unfold synced, bounded, Deque.len. cbn. lia.
  - repeat constructor.
  - constructor.
Defined.

(** ** The portal's configuration form *)

Section FormFacts.
Implicit Types (form : gmap string string) (file : config_file).



End FormFacts.


(** ** The portal's front page *)

Section FrontPage.
Context {A : Type}.
Implicit Types (l : list A) (n m : nat).

Lemma take_rev n l : take n (rev l) = rev (most_recent n l).
Proof. unfold most_recent. apply firstn_rev. Qed.

Lemma most_recent_twice n m l :
  most_recent n (most_recent m l) = most_recent (Nat.min n m) l.
Proof.
  unfold most_recent. rewrite length_drop, drop_drop. f_equal. lia.
Qed.

End FrontPage.

(** X20. The front page after the read loop has run over any lines, from
    a cache within its configured bound: the recent list is the newest
    records first, the last fifty (or as many as the capacity allows) of
    what the cache held and the loop parsed, and the entry count is
    within the capacity. *)
Theorem portal_index_after_feed (feed : list (DT.datetime * string))
    (st : store) :
  synced st ->
  let d := spots (handle_lines feed st) in
  portal_index_recent d
  = rev (most_recent (Nat.min 50 (Z.to_nat (maxcache (cfg st))))
           (Deque.items (spots st) ++ parsed_records feed))
  /\ (length (portal_index_recent d) <= 50)%nat
  /\ Z.of_nat (portal_index_entries d) <= maxcache (cfg st).
Proof.
  intros Hs d.
  destruct (handle_lines_run feed st Hs) as (Hc & [Hm [_ Hb]] & Hi).
  fold d in Hc, Hm, Hb, Hi.
  unfold portal_index_recent, portal_index_entries.
  split; [|split].
  - now rewrite take_rev, Hi, most_recent_twice.
  - rewrite length_take. lia.
  - rewrite <- Hc, <- Hm. exact Hb.
Qed.

Lemma portal_index_after_feed_witness :
  let feed := [(sample_now, listing_line); (sample_now, relay_line);
               (sample_now, later_listing_line)] in
  let d := spots (handle_lines feed (sample_store 2)) in
  portal_index_recent d
  = rev (most_recent (Nat.min 50 (Z.to_nat (maxcache (cfg (sample_store 2)))))
           (Deque.items (spots (sample_store 2)) ++ parsed_records feed))
  /\ (length (portal_index_recent d) <= 50)%nat
  /\ Z.of_nat (portal_index_entries d) <= maxcache (cfg (sample_store 2)).
Proof.
  apply (portal_index_after_feed
           [(sample_now, listing_line); (sample_now, relay_line);
            (sample_now, later_listing_line)] (sample_store 2)).
  unfold synced, bounded, Deque.len. cbn. lia.
Defined.

(** ** Entity names *)

Section Words.
Implicit Types (s w : string) (cur : list ascii) (ws : list string).

Lemma chars_string (l : list ascii) :
  list_ascii_of_string (string_of_list_ascii l) = l.
Proof. apply list_ascii_of_string_of_list_ascii. Qed.

Lemma any_char_existsb (p : ascii -> bool) s :
  any_char p s = existsb p (list_ascii_of_string s).
Proof. induction s as [|c s IH]; [reflexivity|]. cbn. now rewrite IH. Qed.

Lemma existsb_rev (p : ascii -> bool) (l : list ascii) :
  existsb p (rev l) = existsb p l.
Proof.
  induction l as [|c l IH]; [reflexivity|].
  cbn [rev existsb]. rewrite existsb_app, IH. cbn [existsb].
  rewrite orb_false_r. apply orb_comm.
Qed.

(** A word: not empty, no white space. *)
Let word w : Prop := w <> "" /\ any_char Py.is_space w = false.

Let flush cur (rest : list string) : list string :=
  match cur with
  | [] => rest
  | _ => string_of_list_ascii (rev cur) :: rest
  end.

Lemma split_ws_nil cur : Dxcc.split_ws "" cur = flush cur [].
Proof. reflexivity. Qed.

Lemma split_ws_cons (c : ascii) s cur :
  Dxcc.split_ws (String c s) cur
  = if Py.is_space c then flush cur (Dxcc.split_ws s [])
    else Dxcc.split_ws s (c :: cur).
Proof. reflexivity. Qed.

Lemma split_ws_words s : forall cur,
  existsb Py.is_space cur = false ->
  Forall word (Dxcc.split_ws s cur).
Proof.
  assert (Hflush : forall cur rest,
            existsb Py.is_space cur = false -> Forall word rest ->
            Forall word (flush cur rest)).
  { intros [|c cur] rest Hc Hr; [exact Hr|]. constructor; [|exact Hr].
    split.
    - intros E. apply (f_equal list_ascii_of_string) in E.
      rewrite chars_string in E. cbn in E.
      now destruct (rev cur).
    - rewrite any_char_existsb, chars_string, existsb_rev. exact Hc. }
  induction s as [|c s IH]; intros cur Hc.
  - rewrite split_ws_nil. now apply Hflush.
  - rewrite split_ws_cons. destruct (Py.is_space c) eqn:E.
    + apply Hflush; [exact Hc | now apply IH].
    + apply IH. cbn [existsb]. now rewrite E.
Qed.

Lemma split_ws_run w s : forall cur,
  any_char Py.is_space w = false ->
  Dxcc.split_ws (w +:+ s) cur
  = Dxcc.split_ws s (rev (list_ascii_of_string w) ++ cur).
Proof.
  induction w as [|c w IH]; intros cur Hw; [reflexivity|].
  cbn [any_char] in Hw. apply orb_false_iff in Hw as [Hc Hw].
  change (String c w +:+ s) with (String c (w +:+ s)).
  rewrite split_ws_cons, Hc, (IH _ Hw).
  cbn [list_ascii_of_string rev]. now rewrite <- app_assoc.
Qed.

Lemma flush_word w (rest : list string) :
  w <> "" -> flush (rev (list_ascii_of_string w)) rest = w :: rest.
Proof.
  intros Hw. unfold flush.
  destruct (rev (list_ascii_of_string w)) as [|c l] eqn:E.
  - destruct w as [|c w]; [congruence|].
    cbn [list_ascii_of_string rev] in E. now destruct (rev _).
  - rewrite <- E, rev_involutive, string_of_list_ascii_of_string.
    reflexivity.
Qed.

(** Splitting what [join] made of words gives the words back. *)
Lemma split_ws_join ws :
  Forall word ws -> Dxcc.split_ws (Dxcc.join " " ws) [] = ws.
Proof.
  induction 1 as [|w ws [Hne Hsp] Hws IH]; [reflexivity|].
  destruct ws as [|w2 ws].
  - cbn [Dxcc.join].
    replace w with (w +:+ "") at 1
      by (clear; induction w as [|c w IH]; [reflexivity|];
          change (String c w +:+ "") with (String c (w +:+ ""));
          now rewrite IH).
    rewrite (split_ws_run w "" [] Hsp), app_nil_r, split_ws_nil.
    now apply flush_word.
  - change (Dxcc.join " " (w :: w2 :: ws))
      with (w +:+ " " +:+ Dxcc.join " " (w2 :: ws)).
    rewrite (split_ws_run w _ [] Hsp), app_nil_r.
    change (" " +:+ Dxcc.join " " (w2 :: ws))
      with (String " " (Dxcc.join " " (w2 :: ws))).
    rewrite split_ws_cons. change (Py.is_space " ") with true. cbv iota.
    rewrite IH. now apply flush_word.
Qed.

Lemma upper_char_facts (c : ascii) :
  Py.is_space (Dxcc.upper_char c) = Py.is_space c
  /\ Py.between 97 122 (Dxcc.upper_char c) = false
  /\ Dxcc.upper_char (Dxcc.upper_char c) = Dxcc.upper_char c.
Proof. destruct c as [[] [] [] [] [] [] [] []]; vm_compute; auto. Qed.

Lemma lower_char_facts (c : ascii) :
  Py.is_space (Py.lower_char c) = Py.is_space c
  /\ Py.between 65 90 (Py.lower_char c) = false
  /\ Py.lower_char (Py.lower_char c) = Py.lower_char c.
Proof. destruct c as [[] [] [] [] [] [] [] []]; vm_compute; auto. Qed.

Lemma lower_facts w :
  any_char Py.is_space (Py.lower w) = any_char Py.is_space w
  /\ any_char (Py.between 65 90) (Py.lower w) = false
  /\ Py.lower (Py.lower w) = Py.lower w.
Proof.
  induction w as [|c w (IH1 & IH2 & IH3)]; [auto|].
  destruct (lower_char_facts c) as (H1 & H2 & H3).
  cbn [Py.lower any_char]. rewrite H1, H2, H3, IH1, IH2, IH3. auto.
Qed.

Lemma capitalize_word w :
  word w ->
  word (Dxcc.capitalize w)
  /\ title_word (Dxcc.capitalize w) = true
  /\ Dxcc.capitalize (Dxcc.capitalize w) = Dxcc.capitalize w.
Proof.
  intros [Hne Hsp]. destruct w as [|c w]; [congruence|].
  cbn [any_char] in Hsp. apply orb_false_iff in Hsp as [Hc Hw].
  destruct (upper_char_facts c) as (H1 & H2 & H3).
  destruct (lower_facts w) as (L1 & L2 & L3).
  unfold word. cbn [Dxcc.capitalize title_word any_char].
  rewrite H1, H2, H3, L1, L2, L3, Hc, Hw.
  split; [split; [discriminate | reflexivity] | split; reflexivity].
Qed.

Lemma capitalize_words ws :
  Forall word ws ->
  Forall word (map Dxcc.capitalize ws)
  /\ forallb title_word (map Dxcc.capitalize ws) = true
  /\ map Dxcc.capitalize (map Dxcc.capitalize ws) = map Dxcc.capitalize ws.
Proof.
  induction 1 as [|w ws Hw _ (IH1 & IH2 & IH3)]; [auto|].
  destruct (capitalize_word w Hw) as (C1 & C2 & C3).
  cbn [map forallb]. rewrite C2, C3, IH2, IH3.
  split; [now constructor | auto].
Qed.

Lemma to_uc_word_words s :
  Dxcc.split_ws (Dxcc.to_uc_word s) []
  = map Dxcc.capitalize (Dxcc.split_ws s [])
  /\ forallb title_word (Dxcc.split_ws (Dxcc.to_uc_word s) []) = true
  /\ Dxcc.to_uc_word (Dxcc.to_uc_word s) = Dxcc.to_uc_word s.
Proof.
  pose proof (split_ws_words s [] eq_refl) as Hw.
  destruct (capitalize_words _ Hw) as (C1 & C2 & C3).
  assert (E : Dxcc.split_ws (Dxcc.to_uc_word s) []
              = map Dxcc.capitalize (Dxcc.split_ws s []))
    by (unfold Dxcc.to_uc_word; now apply split_ws_join).
  split; [exact E|]. split; [now rewrite E|].
  unfold Dxcc.to_uc_word at 1. now rewrite E, C3.
Qed.

End Words.

(** X21. [to_uc_word] puts a name in one form, here for text of code
    points below 128: the words of the result are the capitalised words
    of the argument, in order; each is free of white space, does not begin
    with a small letter and has no capital letter after its first
    character; and normalising the result again changes nothing. *)
Theorem to_uc_word_normalises (s : string) :
  ascii_text s = true ->
  let r := Dxcc.to_uc_word s in
  Dxcc.split_ws r [] = map Dxcc.capitalize (Dxcc.split_ws s [])
  /\ forallb title_word (Dxcc.split_ws r []) = true
  /\ Dxcc.to_uc_word r = r.
Proof. intros _ r. exact (to_uc_word_words s). Qed.

Lemma to_uc_word_normalises_witness :
  let r := Dxcc.to_uc_word "  FEDERAL   republic  of GERMANY " in
  Dxcc.split_ws r []
  = map Dxcc.capitalize
      (Dxcc.split_ws "  FEDERAL   republic  of GERMANY " [])
  /\ forallb title_word (Dxcc.split_ws r []) = true
  /\ Dxcc.to_uc_word r = r.
Proof.
  apply (to_uc_word_normalises "  FEDERAL   republic  of GERMANY ").
  reflexivity.
Defined.

(** ** Order of texts *)

Section TextOrder.
Implicit Types (a b c p r : string).

Lemma code_inj (x y : ascii) : Py.code x = Py.code y -> x = y.
Proof.
  unfold Py.code. intros H.
  rewrite <- (ascii_nat_embedding x), <- (ascii_nat_embedding y).
  now rewrite H.
Qed.

Lemma str_ltb_cons (x y : ascii) a b :
  str_ltb (String x a) (String y b)
  = Nat.ltb (Py.code x) (Py.code y)
    || (Nat.eqb (Py.code x) (Py.code y) && str_ltb a b).
Proof. reflexivity. Qed.

Lemma str_ltb_cons_true (x y : ascii) a b :
  str_ltb (String x a) (String y b) = true <->
  (Py.code x < Py.code y)%nat \/ (x = y /\ str_ltb a b = true).
Proof.
  rewrite str_ltb_cons, orb_true_iff, andb_true_iff, Nat.ltb_lt, Nat.eqb_eq.
  split; (intros [H | [H1 H2]]; [now left | right; split; [|exact H2]]).
  - now apply code_inj.
  - now subst.
Qed.

Lemma str_ltb_trans a : forall b c,
  str_ltb a b = true -> str_ltb b c = true -> str_ltb a c = true.
Proof.
  induction a as [|x a IH]; intros [|y b] [|z c] Hab Hbc;
    try discriminate; try reflexivity.
  apply str_ltb_cons_true in Hab, Hbc. apply str_ltb_cons_true.
  destruct Hab as [Hab | [-> Hab]], Hbc as [Hbc | [-> Hbc]].
  - left. lia.
  - now left.
  - now left.
  - right. split; [reflexivity | now apply (IH b c)].
Qed.

Lemma str_ltb_total a : forall b,
  str_ltb a b = false -> a = b \/ str_ltb b a = true.
Proof.
  induction a as [|x a IH]; intros [|y b] H; try discriminate;
    [now left | now right |].
  rewrite str_ltb_cons in H. apply orb_false_iff in H as [H1 H2].
  apply Nat.ltb_ge in H1.
  destruct (Nat.eq_dec (Py.code x) (Py.code y)) as [E | E].
  - rewrite E, Nat.eqb_refl in H2. cbn [andb] in H2.
    apply code_inj in E as ->.
    destruct (IH b H2) as [-> | Hlt]; [now left | right].
    apply str_ltb_cons_true. now right.
  - right. apply str_ltb_cons_true. left. lia.
Qed.

Lemma str_ltb_irrefl a : str_ltb a a = false.
Proof.
  induction a as [|x a IH]; [reflexivity|].
  rewrite str_ltb_cons, Nat.ltb_irrefl, Nat.eqb_refl, IH. reflexivity.
Qed.

(** Texts that begin with fields of one width are ordered by the
    fields. *)
Lemma str_ltb_prefix p : forall q r1 r2,
  String.length p = String.length q ->
  str_ltb p q = true -> str_ltb (p +:+ r1) (q +:+ r2) = true.
Proof.
  induction p as [|x p IH]; intros [|y q] r1 r2 Hl Hlt; try discriminate.
  change (str_ltb (String x (p +:+ r1)) (String y (q +:+ r2)) = true).
  apply str_ltb_cons_true in Hlt. apply str_ltb_cons_true.
  destruct Hlt as [Hlt | [-> Hlt]]; [now left | right].
  split; [reflexivity|]. apply IH; [|exact Hlt].
  cbn [String.length] in Hl. lia.
Qed.

Lemma str_ltb_same_prefix p r1 r2 :
  str_ltb (p +:+ r1) (p +:+ r2) = str_ltb r1 r2.
Proof.
  induction p as [|x p IH]; [reflexivity|].
  change (str_ltb (String x (p +:+ r1)) (String x (p +:+ r2))
          = str_ltb r1 r2).
  rewrite str_ltb_cons, Nat.ltb_irrefl, Nat.eqb_refl, IH. reflexivity.
Qed.

End TextOrder.

Section MaxMin.
Implicit Types (l : list string) (m x : string).

Lemma py_max_from m l :
  exists m',
    fold_left (fun acc x =>
                 match acc with
                 | None => Some x
                 | Some m => if str_ltb m x then Some x else acc
                 end) l (Some m) = Some m'
    /\ (m' = m \/ m' ∈ l)
    /\ str_ltb m' m = false
    /\ forall x, x ∈ l -> str_ltb m' x = false.
Proof.
  revert m. induction l as [|y l IH]; intros m.
  - exists m. cbn [fold_left]. split; [reflexivity|].
    split; [now left|]. split; [apply str_ltb_irrefl|].
    intros x Hx. now apply elem_of_nil in Hx.
  - cbn [fold_left]. destruct (str_ltb m y) eqn:E.
    + destruct (IH y) as (m' & Hf & Hin & Hge & Hall).
      exists m'. split; [exact Hf|]. split; [|split].
      * right. destruct Hin as [-> | Hin];
          [apply list_elem_of_here | now apply list_elem_of_further].
      * destruct (str_ltb m' m) eqn:E'; [|reflexivity].
        now rewrite (str_ltb_trans _ _ _ E' E) in Hge.
      * intros x [-> | Hx]%elem_of_cons; [exact Hge | now apply Hall].
    + destruct (IH m) as (m' & Hf & Hin & Hge & Hall).
      exists m'. split; [exact Hf|]. split; [|split].
      * destruct Hin as [-> | Hin];
          [now left | right; now apply list_elem_of_further].
      * exact Hge.
      * intros x [-> | Hx]%elem_of_cons; [|now apply Hall].
        destruct (str_ltb m' y) eqn:E'; [|reflexivity].
        destruct (str_ltb_total _ _ Hge) as [<- | Hlt]; [congruence|].
        now rewrite (str_ltb_trans _ _ _ Hlt E') in E.
Qed.

Lemma py_min_from m l :
  exists m',
    fold_left (fun acc x =>
                 match acc with
                 | None => Some x
                 | Some m => if str_ltb x m then Some x else acc
                 end) l (Some m) = Some m'
    /\ (m' = m \/ m' ∈ l)
    /\ str_ltb m m' = false
    /\ forall x, x ∈ l -> str_ltb x m' = false.
Proof.
  revert m. induction l as [|y l IH]; intros m.
  - exists m. cbn [fold_left]. split; [reflexivity|].
    split; [now left|]. split; [apply str_ltb_irrefl|].
    intros x Hx. now apply elem_of_nil in Hx.
  - cbn [fold_left]. destruct (str_ltb y m) eqn:E.
    + destruct (IH y) as (m' & Hf & Hin & Hge & Hall).
      exists m'. split; [exact Hf|]. split; [|split].
      * right. destruct Hin as [-> | Hin];
          [apply list_elem_of_here | now apply list_elem_of_further].
      * destruct (str_ltb m m') eqn:E'; [|reflexivity].
        now rewrite (str_ltb_trans _ _ _ E E') in Hge.
      * intros x [-> | Hx]%elem_of_cons; [exact Hge | now apply Hall].
    + destruct (IH m) as (m' & Hf & Hin & Hge & Hall).
      exists m'. split; [exact Hf|]. split; [|split].
      * destruct Hin as [-> | Hin];
          [now left | right; now apply list_elem_of_further].
      * exact Hge.
      * intros x [-> | Hx]%elem_of_cons; [|now apply Hall].
        destruct (str_ltb y m') eqn:E'; [|reflexivity].
        destruct (str_ltb_total _ _ Hge) as [-> | Hlt]; [congruence|].
        now rewrite (str_ltb_trans _ _ _ E' Hlt) in E.
Qed.

(** [max]: nothing for no texts, else one of the texts that no text
    exceeds. *)
Lemma py_max_spec l :
  match py_max l with
  | None => l = []
  | Some m => m ∈ l /\ forall x, x ∈ l -> str_ltb m x = false
  end.
Proof.
  unfold py_max. destruct l as [|y l]; [reflexivity|].
  cbn [fold_left]. destruct (py_max_from y l) as (m' & -> & Hin & Hge & Hall).
  split.
  - destruct Hin as [-> | Hin];
      [apply list_elem_of_here | now apply list_elem_of_further].
  - intros x [-> | Hx]%elem_of_cons; [exact Hge | now apply Hall].
Qed.

Lemma py_min_spec l :
  match py_min l with
  | None => l = []
  | Some m => m ∈ l /\ forall x, x ∈ l -> str_ltb x m = false
  end.
Proof.
  unfold py_min. destruct l as [|y l]; [reflexivity|].
  cbn [fold_left]. destruct (py_min_from y l) as (m' & -> & Hin & Hge & Hall).
  split.
  - destruct Hin as [-> | Hin];
      [apply list_elem_of_here | now apply list_elem_of_further].
  - intros x [-> | Hx]%elem_of_cons; [exact Hge | now apply Hall].
Qed.

End MaxMin.

Section DigitOrder.
Implicit Types (p q : string) (w : nat).

(** The digits of [p] read after [acc]: [acc] shifted by the length of
    [p], plus what [p] reads alone. *)
Lemma digitpart_shift p :
  forallb Py.is_digit (list_ascii_of_string p) = true ->
  0 <= fst (fst (Py.digitpart p 0 0%nat)) < 10 ^ Z.of_nat (String.length p)
  /\ forall acc n,
       fst (fst (Py.digitpart p acc n))
       = acc * 10 ^ Z.of_nat (String.length p)
         + fst (fst (Py.digitpart p 0 0%nat)).
Proof.
  induction p as [|c p IH]; intros Hd.
  - split; [cbn; lia|]. intros acc n. cbn. lia.
  - cbn [list_ascii_of_string forallb] in Hd.
    apply andb_true_iff in Hd as [Hc Hp].
    destruct (IH Hp) as [Hr Hs].
    pose proof (digit_val_range c Hc) as Hv.
    assert (Hstep : forall acc n,
              Py.digitpart (String c p) acc n
              = Py.digitpart p (acc * 10 + Py.digit_val c) (S n)).
    { intros acc n. cbn [Py.digitpart]. now rewrite Hc. }
    cbn [String.length]. rewrite Nat2Z.inj_succ, Z.pow_succ_r by lia.
    split.
    + rewrite Hstep, Hs. nia.
    + intros acc n. rewrite !Hstep, (Hs (acc * 10 + _)), (Hs (0 * 10 + _)).
      ring.
Qed.

Lemma digit_val_code (c : ascii) :
  Py.digit_val c = Z.of_nat (Py.code c) - 48.
Proof. reflexivity. Qed.

(** Digit groups of one width are ordered as the numbers they read. *)
Lemma digits_lt w : forall p q (a b : Z),
  digits_of w a p -> digits_of w b q -> a < b -> str_ltb p q = true.
Proof.
  induction w as [|w IH]; intros p q a b (Hlp & Hdp & Hvp) (Hlq & Hdq & Hvq) Hab.
  - destruct p, q; try discriminate. cbn in Hvp, Hvq. lia.
  - destruct p as [|x p], q as [|y q]; try discriminate.
    cbn [String.length] in Hlp, Hlq.
    injection Hlp as Hlp. injection Hlq as Hlq.
    cbn [list_ascii_of_string forallb] in Hdp, Hdq.
    apply andb_true_iff in Hdp as [Hx Hp], Hdq as [Hy Hq].
    destruct (digitpart_shift p Hp) as [Hrp Hsp].
    destruct (digitpart_shift q Hq) as [Hrq Hsq].
    assert (Hp' : fst (fst (Py.digitpart (String x p) 0 0%nat))
                  = Py.digit_val x * 10 ^ Z.of_nat w
                    + fst (fst (Py.digitpart p 0 0%nat))).
    { cbn [Py.digitpart]. rewrite Hx, Hsp, Hlp. ring. }
    assert (Hq' : fst (fst (Py.digitpart (String y q) 0 0%nat))
                  = Py.digit_val y * 10 ^ Z.of_nat w
                    + fst (fst (Py.digitpart q 0 0%nat))).
    { cbn [Py.digitpart]. rewrite Hy, Hsq, Hlq. ring. }
    rewrite Hp' in Hvp. rewrite Hq' in Hvq. rewrite Hlp in Hrp.
    rewrite Hlq in Hrq.
    pose proof (digit_val_range x Hx). pose proof (digit_val_range y Hy).
    apply str_ltb_cons_true.
    destruct (Z_lt_le_dec (Py.digit_val x) (Py.digit_val y)) as [Hlt | Hge].
    + left. rewrite !digit_val_code in Hlt. lia.
    + assert (Hxy : Py.digit_val x = Py.digit_val y) by nia.
      right. split.
      * apply code_inj. rewrite !digit_val_code in Hxy. lia.
      * apply (IH p q (fst (fst (Py.digitpart p 0 0%nat)))
                 (fst (fst (Py.digitpart q 0 0%nat))));
          [repeat split; assumption | repeat split; assumption | nia].
Qed.

(** A field of digits in front of the rest of a text. *)
Lemma field_lt w p q (a b : Z) (r1 r2 : string) :
  digits_of w a p -> digits_of w b q -> a < b ->
  str_ltb (p +:+ r1) (q +:+ r2) = true.
Proof.
  intros Hp Hq Hab. apply str_ltb_prefix.
  - destruct Hp as (-> & _), Hq as (Hq & _). now rewrite Hq.
  - exact (digits_lt w p q a b Hp Hq Hab).
Qed.

End DigitOrder.

Section CalendarOrder.
Implicit Types (y m d : Z) (w : DT.datetime).

Ltac month_cases m :=
  let H := fresh "H" in
  assert (H : m = 1 \/ m = 2 \/ m = 3 \/ m = 4 \/ m = 5 \/ m = 6 \/ m = 7
              \/ m = 8 \/ m = 9 \/ m = 10 \/ m = 11 \/ m = 12) by lia;
  repeat (destruct H as [-> | H]); try subst m.

Ltac month_table :=
  unfold DT.days_before_month, DT.days_in_month;
  repeat match goal with
         | |- context [Z.to_nat ?k] =>
             let v := eval vm_compute in (Z.to_nat k) in
             change (Z.to_nat k) with v
         end;
  destruct (DT.is_leap _); cbn; lia.

Lemma day_of_year_range y m d :
  1 <= m <= 12 -> 1 <= d <= DT.days_in_month y m ->
  1 <= DT.days_before_month y m + d
       <= (if DT.is_leap y then 366 else 365).
Proof.
  intros Hm. month_cases m; month_table.
Qed.

Lemma month_order y (m1 m2 d1 d2 : Z) :
  1 <= m1 -> m1 < m2 -> m2 <= 12 ->
  d1 <= DT.days_in_month y m1 -> 1 <= d2 ->
  DT.days_before_month y m1 + d1 < DT.days_before_month y m2 + d2.
Proof.
  intros H1 H12 H2.
  assert (Hm1 : 1 <= m1 <= 12) by lia. assert (Hm2 : 1 <= m2 <= 12) by lia.
  month_cases m1; month_cases m2; try lia; month_table.
Qed.

Lemma days_before_year_mono (y1 y2 : Z) :
  y1 <= y2 -> DT.days_before_year y1 <= DT.days_before_year y2.
Proof.
  intros H. unfold DT.days_before_year. cbv zeta.
  Z.div_mod_to_equations. lia.
Qed.

Lemma year_order (y1 y2 : Z) :
  y1 < y2 ->
  DT.days_before_year y1 + (if DT.is_leap y1 then 366 else 365)
  <= DT.days_before_year y2.
Proof.
  intros H. rewrite <- days_before_year_succ.
  apply days_before_year_mono. lia.
Qed.

(** The day number grows with the date. *)
Lemma ymd2ord_lex (y1 m1 d1 y2 m2 d2 : Z) :
  1 <= m1 <= 12 -> 1 <= d1 <= DT.days_in_month y1 m1 ->
  1 <= m2 <= 12 -> 1 <= d2 <= DT.days_in_month y2 m2 ->
  y1 < y2 \/ (y1 = y2 /\ (m1 < m2 \/ (m1 = m2 /\ d1 < d2))) ->
  DT.ymd2ord y1 m1 d1 < DT.ymd2ord y2 m2 d2.
Proof.
  intros Hm1 Hd1 Hm2 Hd2 H. unfold DT.ymd2ord.
  destruct H as [Hy | [-> [Hm | [-> Hd]]]].
  - pose proof (year_order y1 y2 Hy).
    pose proof (day_of_year_range y1 m1 d1 Hm1 Hd1).
    pose proof (day_of_year_range y2 m2 d2 Hm2 Hd2). lia.
  - pose proof (month_order y2 m1 m2 d1 d2). lia.
  - lia.
Qed.

Lemma ymd2ord_order (y1 m1 d1 y2 m2 d2 : Z) :
  1 <= m1 <= 12 -> 1 <= d1 <= DT.days_in_month y1 m1 ->
  1 <= m2 <= 12 -> 1 <= d2 <= DT.days_in_month y2 m2 ->
  DT.ymd2ord y1 m1 d1 <= DT.ymd2ord y2 m2 d2 ->
  (DT.ymd2ord y1 m1 d1 = DT.ymd2ord y2 m2 d2
   /\ y1 = y2 /\ m1 = m2 /\ d1 = d2)
  \/ (DT.ymd2ord y1 m1 d1 < DT.ymd2ord y2 m2 d2
      /\ (y1 < y2 \/ (y1 = y2 /\ (m1 < m2 \/ (m1 = m2 /\ d1 < d2))))).
Proof.
  intros Hm1 Hd1 Hm2 Hd2 Hle.
  assert (Hcases :
            (y1 = y2 /\ m1 = m2 /\ d1 = d2)
            \/ (y1 < y2 \/ (y1 = y2 /\ (m1 < m2 \/ (m1 = m2 /\ d1 < d2))))
            \/ (y2 < y1 \/ (y2 = y1 /\ (m2 < m1 \/ (m2 = m1 /\ d2 < d1)))))
    by lia.
  destruct Hcases as [(-> & -> & ->) | [Hlt | Hgt]].
  - left. repeat split; reflexivity.
  - right. split; [now apply ymd2ord_lex | exact Hlt].
  - pose proof (ymd2ord_lex y2 m2 d2 y1 m1 d1 Hm2 Hd2 Hm1 Hd1 Hgt). lia.
Qed.

Lemma whole_seconds_eq w :
  DT.valid w = true ->
  whole_seconds w
  = ((DT.ymd2ord (DT.year w) (DT.month w) (DT.day w) * 24 + DT.hour w) * 60
     + DT.minute w) * 60 + DT.second w.
Proof.
  intros Hv.
  destruct (valid_inv w Hv) as (_ & _ & _ & _ & Hu).
  unfold whole_seconds, DT.to_us. symmetry.
  apply (Z.div_unique _ _ _ (DT.microsecond w)); lia.
Qed.

End CalendarOrder.

Section StampOrder.
Implicit Types (w : DT.datetime).

(** The date and time of day in text are ordered as the whole seconds
    they stand for. *)
Lemma date_time_str_lt (w1 w2 : DT.datetime) :
  DT.valid w1 = true -> DT.valid w2 = true ->
  whole_seconds w1 < whole_seconds w2 ->
  str_ltb (DT.date_time_str w1) (DT.date_time_str w2) = true.
Proof.
  intros Hv1 Hv2.
  rewrite (whole_seconds_eq w1 Hv1), (whole_seconds_eq w2 Hv2).
  destruct (valid_digits w1 Hv1) as (Y1 & M1 & D1 & H1 & I1 & S1 & _).
  destruct (valid_digits w2 Hv2) as (Y2 & M2 & D2 & H2 & I2 & S2 & _).
  destruct (valid_inv w1 Hv1) as ((Hy1 & Hm1 & Hd1) & Hh1 & Hi1 & Hs1 & _).
  destruct (valid_inv w2 Hv2) as ((Hy2 & Hm2 & Hd2) & Hh2 & Hi2 & Hs2 & _).
  intros Hlt.
  assert (Hle : DT.ymd2ord (DT.year w1) (DT.month w1) (DT.day w1)
                <= DT.ymd2ord (DT.year w2) (DT.month w2) (DT.day w2)) by lia.
  unfold DT.date_time_str.
  destruct (ymd2ord_order _ _ _ _ _ _ Hm1 Hd1 Hm2 Hd2 Hle)
    as [(Ho & Ey & Em & Ed) | (_ & [Hy | [Ey [Hm | [Em Hd]]]])].
  - rewrite Ey, Em, Ed, !str_ltb_same_prefix.
    assert (Hcases : DT.hour w1 < DT.hour w2
                     \/ (DT.hour w1 = DT.hour w2
                         /\ (DT.minute w1 < DT.minute w2
                             \/ (DT.minute w1 = DT.minute w2
                                 /\ DT.second w1 < DT.second w2)))) by lia.
    destruct Hcases as [Hh | [Eh [Hi | [Ei Hs]]]].
    + exact (field_lt 2 _ _ _ _ _ _ H1 H2 Hh).
    + rewrite Eh, !str_ltb_same_prefix.
      exact (field_lt 2 _ _ _ _ _ _ I1 I2 Hi).
    + rewrite Eh, Ei, !str_ltb_same_prefix.
      exact (digits_lt 2 _ _ _ _ S1 S2 Hs).
  - exact (field_lt 4 _ _ _ _ _ _ Y1 Y2 Hy).
  - rewrite Ey, !str_ltb_same_prefix.
    exact (field_lt 2 _ _ _ _ _ _ M1 M2 Hm).
  - rewrite Ey, Em, !str_ltb_same_prefix.
    exact (field_lt 2 _ _ _ _ _ _ D1 D2 Hd).
Qed.

Lemma date_time_str_length w :
  DT.valid w = true -> String.length (DT.date_time_str w) = 19%nat.
Proof.
  intros Hv.
  destruct (valid_digits w Hv)
    as ((Y & _) & (M & _) & (D & _) & (H & _) & (I & _) & (S & _) & _).
  unfold DT.date_time_str. rewrite !length_append, Y, M, D, H, I, S.
  reflexivity.
Qed.

(** The stored text begins with the date and the time of day. *)
Lemma stamped_prefix (s : spot) w :
  stamped s w -> exists rest, when s = DT.date_time_str w +:+ rest.
Proof.
  intros [Hv [Hw | Hw]].
  - destruct (isoformat_body w Hv) as (frac & body & -> & Hb & Hp & Hz).
    destruct (stored_text _ Hp Hz) as [H1 _].
    exists (frac +:+ "Z"). now rewrite Hw, Hb, H1, append_assoc3.
  - destruct (isoformat_ms_body w Hv) as (frac & body & -> & Hb & Hp & Hz & _).
    destruct (stored_text _ Hp Hz) as [H1 _].
    exists (frac +:+ "Z"). now rewrite Hw, Hb, H1, append_assoc3.
Qed.

(** Stored texts are ordered as the whole seconds of their times. *)
Lemma stamped_lt (s1 s2 : spot) (w1 w2 : DT.datetime) :
  stamped s1 w1 -> stamped s2 w2 ->
  whole_seconds w1 < whole_seconds w2 ->
  str_ltb (when s1) (when s2) = true.
Proof.
  intros H1 H2 Hlt.
  destruct (stamped_prefix s1 w1 H1) as (r1 & ->).
  destruct (stamped_prefix s2 w2 H2) as (r2 & ->).
  destruct H1 as [Hv1 _], H2 as [Hv2 _].
  apply str_ltb_prefix.
  - now rewrite !date_time_str_length.
  - now apply date_time_str_lt.
Qed.

End StampOrder.

Section FreshestFacts.
Implicit Types (s : spot) (w : DT.datetime).

Lemma parsed_records_stamped (feed : list (DT.datetime * string)) :
  Forall (fun x => DT.valid (fst x) = true) feed ->
  Forall (fun s => exists w, stamped s w) (parsed_records feed).
Proof.
  induction 1 as [|[now line] feed Hv _ IH]; [constructor|].
  rewrite (parsed_records_cons (now, line) feed).
  apply Forall_app. split; [|exact IH]. cbn [fst] in Hv.
  unfold parsed_records. cbn [flat_map fst snd]. cbv zeta.
  rewrite app_nil_r.
  destruct (String.eqb _ ""); [constructor|].
  destruct (parse_line now (Py.strip line)) as [[s|s|]|e] eqn:E;
    try constructor; try constructor.
  - apply parse_line_relay_inv in E as (m & _ & Hs).
    destruct (relay_spot_when now m s Hv Hs) as (w & Hw & Hwhen).
    exists w. split; [exact Hw | now left].
  - apply parse_line_listing_inv in E as (m & _ & _ & Hs).
    destruct (shdx_spot_when now m s Hs) as (w & Hw & Hwhen).
    exists w. split; [exact Hw | now right].
Qed.

Lemma handle_lines_stamped (feed : list (DT.datetime * string))
    (st : store) :
  synced st ->
  Forall (fun x => DT.valid (fst x) = true) feed ->
  Forall (fun s => exists w, stamped s w) (Deque.items (spots st)) ->
  Forall (fun s => exists w, stamped s w)
         (Deque.items (spots (handle_lines feed st))).
Proof.
  intros Hs Hv Hr.
  destruct (handle_lines_run feed st Hs) as (_ & _ & Hi). rewrite Hi.
  apply most_recent_Forall, Forall_app. split; [exact Hr|].
  now apply parsed_records_stamped.
Qed.

Lemma when_in (text : string) (l : list spot) :
  text ∈ map when l -> exists s, s ∈ l /\ when s = text.
Proof.
  intros H. apply list_elem_of_In, in_map_iff in H as (s & Hs & Hin).
  exists s. split; [now apply list_elem_of_In | exact Hs].
Qed.

Lemma in_when (s : spot) (l : list spot) : s ∈ l -> when s ∈ map when l.
Proof.
  intros H. apply list_elem_of_In. apply in_map. now apply list_elem_of_In.
Qed.

Lemma freshest_stamped (d : Deque.t spot) :
  Forall (fun s => exists w, stamped s w) (Deque.items d) ->
  match portal_index_freshest d with
  | None => Deque.items d = []
  | Some text =>
      exists s w, s ∈ Deque.items d /\ when s = text /\ stamped s w
        /\ forall s' w', s' ∈ Deque.items d -> stamped s' w' ->
             whole_seconds w' <= whole_seconds w
  end.
Proof.
  intros Hall. unfold portal_index_freshest.
  pose proof (py_max_spec (map when (Deque.items d))) as Hmax.
  destruct (py_max _) as [text|].
  - destruct Hmax as [Hin Hge].
    destruct (when_in text _ Hin) as (s & Hs & Hwhen).
    rewrite Forall_forall in Hall. destruct (Hall s Hs) as [w Hw].
    exists s, w. split; [exact Hs|]. split; [exact Hwhen|].
    split; [exact Hw|].
    intros s' w' Hs' Hw'.
    destruct (Z_lt_le_dec (whole_seconds w) (whole_seconds w'))
      as [Hlt | Hle]; [|exact Hle].
    pose proof (stamped_lt s s' w w' Hw Hw' Hlt) as Habs.
    rewrite Hwhen, (Hge _ (in_when s' _ Hs')) in Habs. discriminate.
  - now destruct (Deque.items d).
Qed.

Lemma oldest_stamped (d : Deque.t spot) :
  Forall (fun s => exists w, stamped s w) (Deque.items d) ->
  match portal_index_oldest d with
  | None => Deque.items d = []
  | Some text =>
      exists s w, s ∈ Deque.items d /\ when s = text /\ stamped s w
        /\ forall s' w', s' ∈ Deque.items d -> stamped s' w' ->
             whole_seconds w <= whole_seconds w'
  end.
Proof.
  intros Hall. unfold portal_index_oldest.
  pose proof (py_min_spec (map when (Deque.items d))) as Hmin.
  destruct (py_min _) as [text|].
  - destruct Hmin as [Hin Hge].
    destruct (when_in text _ Hin) as (s & Hs & Hwhen).
    rewrite Forall_forall in Hall. destruct (Hall s Hs) as [w Hw].
    exists s, w. split; [exact Hs|]. split; [exact Hwhen|].
    split; [exact Hw|].
    intros s' w' Hs' Hw'.
    destruct (Z_lt_le_dec (whole_seconds w') (whole_seconds w))
      as [Hlt | Hle]; [|exact Hle].
    pose proof (stamped_lt s' s w' w Hw' Hw Hlt) as Habs.
    rewrite Hwhen, (Hge _ (in_when s' _ Hs')) in Habs. discriminate.
  - now destruct (Deque.items d).
Qed.

End FreshestFacts.

(** X22. The front page's freshest and oldest timestamps are chosen by
    comparing the stored texts, and the texts are not all of one shape
    (six digits of fraction, three, or none).  On a cache the read loop
    has filled under valid clock readings the choice is still right to
    the second: freshest is the text of a cached record that no cached
    record is later than by a whole second, oldest the text of one that
    no cached record is earlier than by a whole second, and both are
    absent exactly when the cache is empty. *)
Theorem freshest_is_latest (feed : list (DT.datetime * string))
    (st : store) :
  synced st ->
  Forall (fun x => DT.valid (fst x) = true) feed ->
  Forall (fun s => exists w, stamped s w) (Deque.items (spots st)) ->
  let d := spots (handle_lines feed st) in
  match portal_index_freshest d with
  | None => Deque.items d = []
  | Some text =>
      exists s w, s ∈ Deque.items d /\ when s = text /\ stamped s w
        /\ forall s' w', s' ∈ Deque.items d -> stamped s' w' ->
             whole_seconds w' <= whole_seconds w
  end
  /\ match portal_index_oldest d with
     | None => Deque.items d = []
     | Some text =>
         exists s w, s ∈ Deque.items d /\ when s = text /\ stamped s w
           /\ forall s' w', s' ∈ Deque.items d -> stamped s' w' ->
                whole_seconds w <= whole_seconds w'
     end.
Proof.
  intros Hs Hv Hr d.
  pose proof (handle_lines_stamped feed st Hs Hv Hr) as Hall.
  split; [now apply freshest_stamped | now apply oldest_stamped].
Qed.

(** A listing line, a relay line and a later listing line, read at three
    clock readings. *)
Lemma freshest_is_latest_witness :
  let feed := [(sample_now, listing_line);
               (DT.mk 2025 11 11 18 30 9 0, relay_line);
               (DT.mk 2025 11 11 18 30 8 500000, later_listing_line)] in
  let d := spots (handle_lines feed (sample_store 5)) in
  match portal_index_freshest d with
  | None => Deque.items d = []
  | Some text =>
      exists s w, s ∈ Deque.items d /\ when s = text /\ stamped s w
        /\ forall s' w', s' ∈ Deque.items d -> stamped s' w' ->
             whole_seconds w' <= whole_seconds w
  end
  /\ match portal_index_oldest d with
     | None => Deque.items d = []
     | Some text =>
         exists s w, s ∈ Deque.items d /\ when s = text /\ stamped s w
           /\ forall s' w', s' ∈ Deque.items d -> stamped s' w' ->
                whole_seconds w <= whole_seconds w'
     end.
Proof.
  apply (freshest_is_latest
           [(sample_now, listing_line);
            (DT.mk 2025 11 11 18 30 9 0, relay_line);
            (DT.mk 2025 11 11 18 30 8 500000, later_listing_line)]
           (sample_store 5)).
  - unfold synced, bounded, Deque.len. cbn. lia.
  - repeat constructor.
  - constructor.
Defined.
